(** * chat-excel: the streaming session engine

    A shallow embedding of the client's core, file by file:
    - [src/services/api.ts]: [sendChatMessageStream], the SSE frame decoder,
      and the client identifier ([generateUUID], [getClientId]);
    - [src/pages/SessionPage.tsx] and the generate page: [handleSend],
      [handleSheetsChange], the first turn started by the generate page,
      and the effects that load a session and upload the files; for the
      session page also the handlers piece by piece, as the event loop
      runs them between their awaits;
    - [src/components/ChatMessageList.tsx]: the option normalisation done by
      [MessageChart], the chart instance registry and [exportAllCharts],
      [removeJsonCodeBlock] and the typing indicator;
    - [src/components/SheetSelector.tsx], [src/components/ChatInput.tsx],
      the home page and [src/App.tsx]: what the pages are handed.

    The host functions the code calls ([TextDecoder], [JSON.parse],
    string methods, [parseInt]) are modelled in [JS], [TextDecoder] and
    [JSON] after the ECMAScript and Encoding standards. *)

From Stdlib Require Import List ZArith NArith Lia Bool String Ascii.
From Stdlib.Strings Require Import Byte.
From Stdlib Require DecimalString HexadecimalString DecimalN DecimalPos.
Import ListNotations.

Set Warnings "-register-all".

(* ================================================================== *)
(** ** Host values *)

Module JS.

(** A JavaScript string is a sequence of UTF-16 code units. *)
Abbreviation jsstring := (list N) (only parsing).

(** ASCII literals of the source. *)
Definition lit (s : string) : jsstring :=
  map N_of_ascii (list_ascii_of_string s).

Fixpoint eqb (a b : jsstring) : bool :=
  match a, b with
  | [], [] => true
  | x :: a', y :: b' => N.eqb x y && eqb a' b'
  | _, _ => false
  end.

(** [s.startsWith(p)] *)
Fixpoint startsWith (s p : jsstring) : bool :=
  match p, s with
  | [], _ => true
  | y :: p', x :: s' => N.eqb x y && startsWith s' p'
  | _ :: _, [] => false
  end.

(** [s.slice(n)] for [0 <= n] *)
Definition slice (s : jsstring) (n : nat) : jsstring := skipn n s.

(** WhiteSpace and LineTerminator code units, the set [trim] and
    [parseInt] strip. *)
Definition is_whitespace (c : N) : bool :=
  existsb (N.eqb c)
    [0x09; 0x0A; 0x0B; 0x0C; 0x0D; 0x20; 0xA0; 0x1680;
     0x2000; 0x2001; 0x2002; 0x2003; 0x2004; 0x2005; 0x2006; 0x2007;
     0x2008; 0x2009; 0x200A; 0x2028; 0x2029; 0x202F; 0x205F; 0x3000;
     0xFEFF]%N.

Fixpoint trimStart (s : jsstring) : jsstring :=
  match s with
  | c :: r => if is_whitespace c then trimStart r else s
  | [] => []
  end.

Definition trimEnd (s : jsstring) : jsstring := rev (trimStart (rev s)).

(** [s.trim()] *)
Definition trim (s : jsstring) : jsstring := trimEnd (trimStart s).

(** [s.split(sep)] for a separator of one code unit; never empty. *)
Fixpoint split (sep : N) (s : jsstring) : list jsstring :=
  match s with
  | [] => [[]]
  | c :: r =>
      if N.eqb c sep then [] :: split sep r
      else match split sep r with
           | l :: ls => (c :: l) :: ls
           | [] => [[c]]
           end
  end.

(** Decimal digits of a non-negative integer, as template literals and
    array indices print it. *)
Definition dec_string (n : N) : jsstring :=
  lit (DecimalString.NilZero.string_of_uint (N.to_uint n)).

(** Numbers.  A JSON number literal denotes [m * 10^e]; the rounding of
    the literal to a binary64 value is not modelled, except that
    [rounds_to_zero] tells the literals whose binary64 value is zero. *)
Inductive number := NaN | Dec (m e : Z).

Definition of_Z (z : Z) : number := Dec z 0.

Definition rounds_to_zero (m e : Z) : bool :=
  (m =? 0)%Z || ((e <? 0)%Z && (Z.abs m * 2 ^ 1075 <=? 10 ^ (- e))%Z).

(** [a < b] on numbers; false when either is NaN. *)
Definition num_ltb (a b : number) : bool :=
  match a, b with
  | Dec m1 e1, Dec m2 e2 =>
      let e := Z.min e1 e2 in
      (m1 * 10 ^ (e1 - e) <? m2 * 10 ^ (e2 - e))%Z
  | _, _ => false
  end.

Inductive jsval :=
| Undefined
| Null
| Bool (b : bool)
| Num (n : number)
| Str (s : jsstring)
| Arr (xs : list jsval)
| Obj (props : list (jsstring * jsval)).

(** Own properties of an object, in an association list with one binding
    per key. *)
Fixpoint lookup (k : jsstring) (ps : list (jsstring * jsval)) : option jsval :=
  match ps with
  | [] => None
  | (k', v) :: r => if eqb k' k then Some v else lookup k r
  end.

(** [o[k] = v]: the binding is replaced where it stands, or appended. *)
Fixpoint set_prop (ps : list (jsstring * jsval)) (k : jsstring) (v : jsval)
  : list (jsstring * jsval) :=
  match ps with
  | [] => [(k, v)]
  | (k', v') :: r =>
      if eqb k' k then (k', v) :: r else (k', v') :: set_prop r k v
  end.

Fixpoint indexed {A} (f : A -> jsval) (i : N) (xs : list A)
  : list (jsstring * jsval) :=
  match xs with
  | [] => []
  | x :: r => (dec_string i, f x) :: indexed f (N.succ i) r
  end.

(** The own enumerable properties an object spread [{...v}] copies. *)
Definition own_props (v : jsval) : list (jsstring * jsval) :=
  match v with
  | Obj ps => ps
  | Arr xs => indexed (fun x => x) 0 xs
  | Str s => indexed (fun c => Str [c]) 0 s
  | _ => []
  end.

Definition length_val {A} (xs : list A) : jsval :=
  Num (of_Z (Z.of_nat (List.length xs))).

(** [v.k] for the property names the code reads; none of them is a
    property of a built-in prototype.  [None] is the TypeError of a
    property read on [null] or [undefined]. *)
Definition get (v : jsval) (k : jsstring) : option jsval :=
  match v with
  | Undefined | Null => None
  | Obj ps => Some (match lookup k ps with Some x => x | None => Undefined end)
  | Arr xs =>
      Some (if eqb k (lit "length") then length_val xs
            else match lookup k (own_props v) with
                 | Some x => x | None => Undefined end)
  | Str s =>
      Some (if eqb k (lit "length") then length_val s
            else match lookup k (own_props v) with
                 | Some x => x | None => Undefined end)
  | Bool _ | Num _ => Some Undefined
  end.

(** [v?.k] *)
Definition get_opt (v : jsval) (k : jsstring) : jsval :=
  match get v k with Some x => x | None => Undefined end.

(** ToBoolean *)
Definition truthy (v : jsval) : bool :=
  match v with
  | Undefined | Null => false
  | Bool b => b
  | Num NaN => false
  | Num (Dec m e) => negb (rounds_to_zero m e)
  | Str [] => false
  | Str (_ :: _) => true
  | Arr _ | Obj _ => true
  end.

(** [a || b] *)
Definition or_else (a b : jsval) : jsval := if truthy a then a else b.

(** [v === "..."] against a string *)
Definition is_str (v : jsval) (s : jsstring) : bool :=
  match v with Str t => eqb t s | _ => false end.

(** ToNumber, for the values whose conversion needs no string parsing
    and no ToPrimitive call; [None] otherwise. *)
Definition ToNumber (v : jsval) : option number :=
  match v with
  | Undefined => Some NaN
  | Null => Some (of_Z 0)
  | Bool b => Some (of_Z (if b then 1 else 0))
  | Num n => Some n
  | Str _ | Arr _ | Obj _ => None
  end.

(** [v > k] for an integer [k] *)
Definition gt (v : jsval) (k : Z) : option bool :=
  match ToNumber v with
  | Some n => Some (num_ltb (of_Z k) n)
  | None => None
  end.

(** Value of a digit in a radix up to 16. *)
Definition digit_val (radix : N) (c : N) : option N :=
  let d :=
    if (0x30 <=? c)%N && (c <=? 0x39)%N then Some (c - 0x30)%N
    else if (0x61 <=? c)%N && (c <=? 0x66)%N then Some (c - 0x61 + 10)%N
    else if (0x41 <=? c)%N && (c <=? 0x46)%N then Some (c - 0x41 + 10)%N
    else None in
  match d with
  | Some x => if (x <? radix)%N then Some x else None
  | None => None
  end.

Fixpoint digits_prefix (radix : N) (s : jsstring) (acc : option N) : option N :=
  match s with
  | [] => acc
  | c :: r =>
      match digit_val radix c with
      | Some d =>
          digits_prefix radix r
            (Some (match acc with Some a => a * radix + d | None => d end)%N)
      | None => acc
      end
  end.

(** [parseInt(s)] with no radix argument: leading white space, a sign,
    a [0x] prefix, then the longest run of digits; NaN when there is
    none. *)
Definition parseInt (s : jsstring) : number :=
  let s := trimStart s in
  let '(neg, s) :=
    match s with
    | 0x2D%N :: r => (true, r)
    | 0x2B%N :: r => (false, r)
    | _ => (false, s)
    end in
  let '(radix, s) :=
    match s with
    | 0x30%N :: 0x78%N :: r => (16%N, r)
    | 0x30%N :: 0x58%N :: r => (16%N, r)
    | _ => (10%N, s)
    end in
  match digits_prefix radix s None with
  | Some n => of_Z (if neg then - Z.of_N n else Z.of_N n)
  | None => NaN
  end.

(** [xs.join(sep)] for an array of strings *)
Fixpoint join (sep : jsstring) (xs : list jsstring) : jsstring :=
  match xs with
  | [] => []
  | [x] => x
  | x :: r => x ++ sep ++ join sep r
  end.

(** [xs.includes(x)] for an array of strings *)
Definition includes (xs : list jsstring) (x : jsstring) : bool :=
  existsb (eqb x) xs.

(** [s.slice(start, end)] for [0 <= start <= end] *)
Definition slice_between (s : jsstring) (start stop : nat) : jsstring :=
  firstn (stop - start) (skipn start s).

(** [n.toString(16)] for a non-negative integer *)
Definition hex_string (n : N) : jsstring :=
  lit (HexadecimalString.NilZero.string_of_uint (N.to_hex_uint n)).

(** [s.padStart(n, fill)] for a filler of one code unit *)
Definition padStart (s : jsstring) (n : nat) (fill : N) : jsstring :=
  repeat fill (n - List.length s) ++ s.

End JS.

(* ================================================================== *)
(** ** [new TextDecoder()]: the UTF-8 decoder of the Encoding standard *)

Module TextDecoder.
Import JS.

(** The decoder's variables, kept from one [decode(value, {stream: true})]
    to the next, and the BOM-seen flag of the TextDecoder object. *)
Record decoder := {
  code_point : N;
  bytes_seen : N;
  bytes_needed : N;
  lower_boundary : N;
  upper_boundary : N;
  bom_seen : bool }.

Definition fresh : decoder :=
  {| code_point := 0; bytes_seen := 0; bytes_needed := 0;
     lower_boundary := 0x80; upper_boundary := 0xBF; bom_seen := false |}.

Definition reset (d : decoder) : decoder :=
  {| code_point := 0; bytes_seen := 0; bytes_needed := 0;
     lower_boundary := 0x80; upper_boundary := 0xBF; bom_seen := bom_seen d |}.

Definition between (lo b hi : N) : bool := (lo <=? b)%N && (b <=? hi)%N.

(** The handler on a byte when no continuation byte is awaited. *)
Definition lead (d : decoder) (b : N) : decoder * list N :=
  if between 0x00 b 0x7F then (d, [b])
  else if between 0xC2 b 0xDF then
    ({| code_point := N.land b 0x1F; bytes_seen := bytes_seen d;
        bytes_needed := 1;
        lower_boundary := lower_boundary d;
        upper_boundary := upper_boundary d; bom_seen := bom_seen d |}, [])
  else if between 0xE0 b 0xEF then
    ({| code_point := N.land b 0xF; bytes_seen := bytes_seen d;
        bytes_needed := 2;
        lower_boundary := if (b =? 0xE0)%N then 0xA0 else lower_boundary d;
        upper_boundary := if (b =? 0xED)%N then 0x9F else upper_boundary d;
        bom_seen := bom_seen d |}, [])
  else if between 0xF0 b 0xF4 then
    ({| code_point := N.land b 0x7; bytes_seen := bytes_seen d;
        bytes_needed := 3;
        lower_boundary := if (b =? 0xF0)%N then 0x90 else lower_boundary d;
        upper_boundary := if (b =? 0xF4)%N then 0x8F else upper_boundary d;
        bom_seen := bom_seen d |}, [])
  else (d, [0xFFFD%N]).

(** The handler on one byte: the new variables and the code points it
    returns.  A byte outside the boundaries ends the sequence with an
    error and is handled again as a lead byte. *)
Definition handler (d : decoder) (b : N) : decoder * list N :=
  if (bytes_needed d =? 0)%N then lead d b
  else if negb (between (lower_boundary d) b (upper_boundary d)) then
    let '(d', out) := lead (reset d) b in (d', 0xFFFD%N :: out)
  else
    let cp := N.lor (N.shiftl (code_point d) 6) (N.land b 0x3F) in
    let seen := (bytes_seen d + 1)%N in
    if negb (seen =? bytes_needed d)%N then
      ({| code_point := cp; bytes_seen := seen;
          bytes_needed := bytes_needed d;
          lower_boundary := 0x80; upper_boundary := 0xBF;
          bom_seen := bom_seen d |}, [])
    else (reset d, [cp]).

(** A code point as UTF-16 code units. *)
Definition utf16 (cp : N) : jsstring :=
  if (cp <? 0x10000)%N then [cp]
  else let c := (cp - 0x10000)%N in
       [(0xD800 + N.shiftr c 10)%N; (0xDC00 + N.land c 0x3FF)%N].

(** Serialising the decoder's output: the first code point is dropped
    when it is the byte order mark. *)
Fixpoint serialize (seen : bool) (cps : list N) : bool * jsstring :=
  match cps with
  | [] => (seen, [])
  | cp :: r =>
      let '(seen', out) := serialize true r in
      if negb seen && (cp =? 0xFEFF)%N then (seen', out)
      else (seen', utf16 cp ++ out)
  end.

Definition decode_byte (d : decoder) (b : byte) : decoder * jsstring :=
  let '(d', cps) := handler d (Byte.to_N b) in
  let '(seen, out) := serialize (bom_seen d') cps in
  ({| code_point := code_point d'; bytes_seen := bytes_seen d';
      bytes_needed := bytes_needed d';
      lower_boundary := lower_boundary d';
      upper_boundary := upper_boundary d'; bom_seen := seen |}, out).

(** [decoder.decode(value, {stream: true})]: the bytes go through the
    handler one by one; what is pending at the end of [value] stays in
    the decoder. *)
Fixpoint decode (d : decoder) (value : list byte) : decoder * jsstring :=
  match value with
  | [] => (d, [])
  | b :: r =>
      let '(d1, s1) := decode_byte d b in
      let '(d2, s2) := decode d1 r in
      (d2, s1 ++ s2)
  end.

(** The bytes of a literal of a UTF-8 source file. *)
Definition bytes_of (s : string) : list byte := list_byte_of_string s.

(** A string literal of the source. *)
Definition text (s : string) : jsstring := snd (decode fresh (bytes_of s)).

End TextDecoder.

(* ================================================================== *)
(** ** [JSON.parse] *)

Module JSON.
Import JS.

Inductive token :=
| TLBrace | TRBrace | TLBracket | TRBracket | TColon | TComma
| TStr (s : jsstring)
| TAtom (v : jsval).

(** Where the lexer stands inside a number. *)
Inductive numpos := NMinus | NZero | NInt | NDot | NFrac | NE | NESign | NExp.

Record numacc := {
  neg : bool; mant : Z; scale : Z; eneg : bool; expo : Z }.

Definition num0 (sign : bool) (d : Z) : numacc :=
  {| neg := sign; mant := d; scale := 0; eneg := false; expo := 0 |}.

Definition num_value (a : numacc) : jsval :=
  Num (Dec (if neg a then - mant a else mant a)
           ((if eneg a then - expo a else expo a) - scale a)).

Inductive lstate :=
| LStart
| LWord (rest : jsstring) (v : jsval)
| LStr (acc : jsstring)
| LEsc (acc : jsstring)
| LHex (acc : jsstring) (code : N) (more : nat)
| LNum (p : numpos) (a : numacc).

Definition digit (c : N) : option Z :=
  if (0x30 <=? c)%N && (c <=? 0x39)%N then Some (Z.of_N (c - 0x30)) else None.

Definition is_e (c : N) : bool := (c =? 0x65)%N || (c =? 0x45)%N.

(** The lexer between two tokens. *)
Definition lstart (c : N) : option (lstate * list token) :=
  if existsb (N.eqb c) [0x20; 0x09; 0x0A; 0x0D]%N then Some (LStart, [])
  else if (c =? 0x7B)%N then Some (LStart, [TLBrace])
  else if (c =? 0x7D)%N then Some (LStart, [TRBrace])
  else if (c =? 0x5B)%N then Some (LStart, [TLBracket])
  else if (c =? 0x5D)%N then Some (LStart, [TRBracket])
  else if (c =? 0x3A)%N then Some (LStart, [TColon])
  else if (c =? 0x2C)%N then Some (LStart, [TComma])
  else if (c =? 0x22)%N then Some (LStr [], [])
  else if (c =? 0x6E)%N then Some (LWord (lit "ull") Null, [])
  else if (c =? 0x74)%N then Some (LWord (lit "rue") (Bool true), [])
  else if (c =? 0x66)%N then Some (LWord (lit "alse") (Bool false), [])
  else if (c =? 0x2D)%N then Some (LNum NMinus (num0 true 0), [])
  else if (c =? 0x30)%N then Some (LNum NZero (num0 false 0), [])
  else match digit c with
       | Some d => Some (LNum NInt (num0 false d), [])
       | None => None
       end.

(** A number ends at the first code unit that cannot continue it; that
    code unit starts the next token. *)
Definition num_done (a : numacc) (c : N) : option (lstate * list token) :=
  match lstart c with
  | Some (st, ts) => Some (st, TAtom (num_value a) :: ts)
  | None => None
  end.

Definition push_digit (a : numacc) (d : Z) (frac : bool) : numacc :=
  {| neg := neg a; mant := mant a * 10 + d;
     scale := if frac then scale a + 1 else scale a;
     eneg := eneg a; expo := expo a |}.

Definition push_exp (a : numacc) (d : Z) : numacc :=
  {| neg := neg a; mant := mant a; scale := scale a;
     eneg := eneg a; expo := expo a * 10 + d |}.

Definition set_eneg (a : numacc) : numacc :=
  {| neg := neg a; mant := mant a; scale := scale a;
     eneg := true; expo := expo a |}.

Definition lnum (p : numpos) (a : numacc) (c : N) : option (lstate * list token) :=
  match p, digit c with
  | NMinus, Some d =>
      Some (LNum (if (d =? 0)%Z then NZero else NInt) (push_digit a d false), [])
  | NMinus, None => None
  | NZero, _ =>
      if (c =? 0x2E)%N then Some (LNum NDot a, [])
      else if is_e c then Some (LNum NE a, [])
      else num_done a c
  | NInt, Some d => Some (LNum NInt (push_digit a d false), [])
  | NInt, None =>
      if (c =? 0x2E)%N then Some (LNum NDot a, [])
      else if is_e c then Some (LNum NE a, [])
      else num_done a c
  | NDot, Some d => Some (LNum NFrac (push_digit a d true), [])
  | NDot, None => None
  | NFrac, Some d => Some (LNum NFrac (push_digit a d true), [])
  | NFrac, None => if is_e c then Some (LNum NE a, []) else num_done a c
  | NE, Some d => Some (LNum NExp (push_exp a d), [])
  | NE, None =>
      if (c =? 0x2B)%N then Some (LNum NESign a, [])
      else if (c =? 0x2D)%N then Some (LNum NESign (set_eneg a), [])
      else None
  | NESign, Some d => Some (LNum NExp (push_exp a d), [])
  | NESign, None => None
  | NExp, Some d => Some (LNum NExp (push_exp a d), [])
  | NExp, None => num_done a c
  end.

Definition escape (c : N) : option N :=
  if (c =? 0x22)%N then Some 0x22%N
  else if (c =? 0x5C)%N then Some 0x5C%N
  else if (c =? 0x2F)%N then Some 0x2F%N
  else if (c =? 0x62)%N then Some 0x08%N
  else if (c =? 0x66)%N then Some 0x0C%N
  else if (c =? 0x6E)%N then Some 0x0A%N
  else if (c =? 0x72)%N then Some 0x0D%N
  else if (c =? 0x74)%N then Some 0x09%N
  else None.

Definition lstep (st : lstate) (c : N) : option (lstate * list token) :=
  match st with
  | LStart => lstart c
  | LWord [] _ => None
  | LWord (x :: r) v =>
      if (c =? x)%N then
        match r with
        | [] => Some (LStart, [TAtom v])
        | _ :: _ => Some (LWord r v, [])
        end
      else None
  | LStr acc =>
      if (c =? 0x22)%N then Some (LStart, [TStr (rev acc)])
      else if (c =? 0x5C)%N then Some (LEsc acc, [])
      else if (c <? 0x20)%N then None
      else Some (LStr (c :: acc), [])
  | LEsc acc =>
      if (c =? 0x75)%N then Some (LHex acc 0 4, [])
      else match escape c with
           | Some x => Some (LStr (x :: acc), [])
           | None => None
           end
  | LHex acc code more =>
      match digit_val 16 c with
      | Some d =>
          let code' := (code * 16 + d)%N in
          match more with
          | 0%nat | 1%nat => Some (LStr (code' :: acc), [])
          | S n => Some (LHex acc code' n, [])
          end
      | None => None
      end
  | LNum p a => lnum p a c
  end.

Definition lfinish (st : lstate) : option (list token) :=
  match st with
  | LStart => Some []
  | LNum (NZero | NInt | NFrac | NExp) a => Some [TAtom (num_value a)]
  | _ => None
  end.

Fixpoint lex (st : lstate) (s : jsstring) : option (list token) :=
  match s with
  | [] => lfinish st
  | c :: r =>
      match lstep st c with
      | Some (st', ts) =>
          match lex st' r with
          | Some ts' => Some (ts ++ ts')
          | None => None
          end
      | None => None
      end
  end.

(** The containers being built around the value the parser is reading. *)
Inductive frame :=
| FArr (acc : list jsval)
| FObj (props : list (jsstring * jsval)) (key : jsstring).

Inductive pstate :=
| SValue (stk : list frame)
| SArrFirst (stk : list frame)
| SArrNext (stk : list frame) (acc : list jsval)
| SObjFirst (stk : list frame)
| SObjKey (stk : list frame) (props : list (jsstring * jsval))
| SColon (stk : list frame) (props : list (jsstring * jsval)) (key : jsstring)
| SObjNext (stk : list frame) (props : list (jsstring * jsval))
| SDone (v : jsval).

(** A value is complete: it goes into the container on top of the
    stack.  A repeated key keeps its last value. *)
Definition complete (stk : list frame) (v : jsval) : pstate :=
  match stk with
  | [] => SDone v
  | FArr acc :: r => SArrNext r (v :: acc)
  | FObj props key :: r => SObjNext r (set_prop props key v)
  end.

Definition pvalue (stk : list frame) (t : token) : option pstate :=
  match t with
  | TAtom v => Some (complete stk v)
  | TStr s => Some (complete stk (Str s))
  | TLBracket => Some (SArrFirst stk)
  | TLBrace => Some (SObjFirst stk)
  | _ => None
  end.

Definition pstep (st : pstate) (t : token) : option pstate :=
  match st, t with
  | SValue stk, _ => pvalue stk t
  | SArrFirst stk, TRBracket => Some (complete stk (Arr []))
  | SArrFirst stk, _ => pvalue (FArr [] :: stk) t
  | SArrNext stk acc, TComma => Some (SValue (FArr acc :: stk))
  | SArrNext stk acc, TRBracket => Some (complete stk (Arr (rev acc)))
  | SObjFirst stk, TStr k => Some (SColon stk [] k)
  | SObjFirst stk, TRBrace => Some (complete stk (Obj []))
  | SObjKey stk props, TStr k => Some (SColon stk props k)
  | SColon stk props k, TColon => Some (SValue (FObj props k :: stk))
  | SObjNext stk props, TComma => Some (SObjKey stk props)
  | SObjNext stk props, TRBrace => Some (complete stk (Obj props))
  | _, _ => None
  end.

Fixpoint run (st : pstate) (ts : list token) : option jsval :=
  match ts with
  | [] => match st with SDone v => Some v | _ => None end
  | t :: r =>
      match pstep st t with
      | Some st' => run st' r
      | None => None
      end
  end.

(** [JSON.parse(text)]; [None] is the SyntaxError. *)
Definition parse (s : jsstring) : option jsval :=
  match lex LStart s with
  | Some ts => run (SValue []) ts
  | None => None
  end.

End JSON.

(* ================================================================== *)
(** ** [src/services/api.ts] *)

Module Api.
Import JS.

(** One invocation of a callback handed to [sendChatMessageStream]. *)
Inductive Callback :=
| onChunk (content : jsval)
| onDone (chartConfig : jsval)
| onError (error : jsval).

Definition newline : N := 0x0A.

(** What the parsed frame makes the consumer call.  Reading [event.type]
    of [null] throws; the [catch] around the parse swallows it. *)
Definition dispatch (event : jsval) : list Callback :=
  match get event (lit "type") with
  | None => []
  | Some type =>
      if is_str type (lit "chunk") && truthy (get_opt event (lit "content"))
      then [onChunk (get_opt event (lit "content"))]
      else if is_str type (lit "done")
      then [onDone (or_else (get_opt event (lit "chart_config")) Null)]
      else if is_str type (lit "error")
      then [onError (or_else (get_opt event (lit "message"))
                             (Str (TextDecoder.text "未知错误")))]
      else []
  end.

(** The body of [for (const line of lines)]. *)
Definition process_line (line : jsstring) : list Callback :=
  if startsWith line (lit "data: ") then
    let jsonStr := slice line 6 in
    if truthy (Str (trim jsonStr)) then
      match JSON.parse jsonStr with
      | Some event => dispatch event
      | None => []
      end
    else []
  else [].

(** The variables of the read loop. *)
Record reader_state := {
  decoder : TextDecoder.decoder;
  buffer : jsstring }.

Definition initial : reader_state :=
  {| decoder := TextDecoder.fresh; buffer := [] |}.

(** One turn of [while (true)] on a chunk that was read. *)
Definition on_read (st : reader_state) (value : list byte)
  : reader_state * list Callback :=
  let '(d, decoded) := TextDecoder.decode (decoder st) value in
  let buffer := buffer st ++ decoded in
  let lines := split newline buffer in
  let rest := last lines [] in
  let lines := removelast lines in
  ({| decoder := d; buffer := rest |}, flat_map process_line lines).

(** The loop up to [done]: the calls made, in order, and the variables
    left when the loop breaks. *)
Fixpoint read_loop (st : reader_state) (chunks : list (list byte))
  : reader_state * list Callback :=
  match chunks with
  | [] => (st, [])
  | value :: r =>
      let '(st1, calls1) := on_read st value in
      let '(st2, calls2) := read_loop st1 r in
      (st2, calls1 ++ calls2)
  end.

(** A value a promise rejects with or a [throw] throws. *)
Inductive Thrown :=
| ErrorObject (message : jsstring)
| NotAnError.

(** The response body as the reader delivers it: the chunks read, then
    [done] or a rejected [read()]. *)
Record Body := {
  chunks : list (list byte);
  read_failure : option Thrown }.

(** The response of [fetch].  [error_detail] is what
    [await response.json()] gives for a response that is not ok: it
    throws, or the body's [detail], a string when present. *)
Record Response := {
  ok : bool;
  error_detail : Thrown + option jsstring;
  body : option Body }.

(** [sendChatMessageStream(payload, onChunk, onDone, onError)]: the
    callback invocations in order, and the exception the promise rejects
    with, if any. *)
Definition sendChatMessageStream (fetched : Thrown + Response)
  : list Callback * option Thrown :=
  match fetched with
  | inl e => ([], Some e)
  | inr response =>
      if negb (ok response) then
        match error_detail response with
        | inl e => ([], Some e)
        | inr (Some (c :: s)) => ([], Some (ErrorObject (c :: s)))
        | inr _ => ([], Some (ErrorObject (TextDecoder.text "发送消息失败")))
        end
      else
        match body response with
        | None => ([], Some (ErrorObject (TextDecoder.text "无法读取响应流")))
        | Some b =>
            (snd (read_loop initial (chunks b)), read_failure b)
        end
  end.

(** A successful response whose body delivers [cs] and ends. *)
Definition streaming (cs : list (list byte)) : Thrown + Response :=
  inr {| ok := true; error_detail := inr None;
         body := Some {| chunks := cs; read_failure := None |} |}.

(** The callbacks a byte stream delivered in the chunks [cs] produces. *)
Definition calls_of (cs : list (list byte)) : list Callback :=
  fst (sendChatMessageStream (streaming cs)).

(** *** The client identifier *)

(** [array[i] = v] on a typed array: nothing is written past its end. *)
Fixpoint store (array : list N) (i : nat) (v : N) : list N :=
  match array, i with
  | [], _ => []
  | _ :: r, O => v :: r
  | x :: r, S n => x :: store r n v
  end.

(** The array of [generateUUID] after the version and the variant are
    set, [random] being what [crypto.getRandomValues] wrote into it. *)
Definition stamped (random : list byte) : list N :=
  let array := map Byte.to_N random in
  let array := store array 6 (N.lor (N.land (nth 6 array 0%N) 0x0f) 0x40) in
  store array 8 (N.lor (N.land (nth 8 array 0%N) 0x3f) 0x80).

(** [generateUUID()] *)
Definition generateUUID (random : list byte) : jsstring :=
  let array := stamped random in
  let hex :=
    List.concat (map (fun b => padStart (hex_string b) 2 0x30) array) in
  slice_between hex 0 8 ++ lit "-" ++ slice_between hex 8 12 ++ lit "-"
  ++ slice_between hex 12 16 ++ lit "-" ++ slice_between hex 16 20
  ++ lit "-" ++ slice hex 20.

(** [getClientId()]: the identifier and the item [chat_excel_client_id]
    of [localStorage] after the call, [clientId] being the item before
    it; [random] is used when an identifier is generated. *)
Definition getClientId (clientId : option jsstring) (random : list byte)
  : jsstring * option jsstring :=
  match clientId with
  | Some (c :: s) => (c :: s, clientId)
  | _ =>
      let clientId := generateUUID random in
      (clientId, Some clientId)
  end.

(** *** The lines of the stream *)

(** The lines [for (const line of lines)] iterates over in one turn of
    [while (true)], and the variables left: [on_read] with the lines in
    place of the calls they make. *)
Definition lines_read (st : reader_state) (value : list byte)
  : reader_state * list jsstring :=
  let '(d, decoded) := TextDecoder.decode (decoder st) value in
  let buffer := buffer st ++ decoded in
  let lines := split newline buffer in
  let rest := last lines [] in
  let lines := removelast lines in
  ({| decoder := d; buffer := rest |}, lines).

Fixpoint lines_loop (st : reader_state) (chunks : list (list byte))
  : reader_state * list jsstring :=
  match chunks with
  | [] => (st, [])
  | value :: r =>
      let '(st1, lines1) := lines_read st value in
      let '(st2, lines2) := lines_loop st1 r in
      (st2, lines1 ++ lines2)
  end.

End Api.

(* ================================================================== *)
(** ** [src/components/ChatMessageList.tsx] *)

Module ChatMessageList.
Import JS.

Inductive Role := user | assistant.

Record ChatMessage := {
  id : jsstring;
  role : Role;
  content : jsstring;
  chartConfig : option jsval;
  isLoading : option bool }.

(** An object literal [{ id, role, content }]. *)
Definition message (i : jsstring) (r : Role) (c : jsstring) : ChatMessage :=
  {| id := i; role := r; content := c; chartConfig := None; isLoading := None |}.

(** *** The option [MessageChart] hands to [setOption] *)

Definition prop (o : list (jsstring * jsval)) (k : jsstring) : jsval :=
  get_opt (Obj o) k.

(** [legendData && legendData.length > k] *)
Definition longer_than (legendData : jsval) (k : Z) : option bool :=
  if truthy legendData then gt (get_opt legendData (lit "length")) k
  else Some false.

Definition hasTitle (safeConfig : list (jsstring * jsval)) : bool :=
  truthy (get_opt (prop safeConfig (lit "title")) (lit "text")).

Definition hasLegend (safeConfig : list (jsstring * jsval)) : bool :=
  truthy (get_opt (prop safeConfig (lit "legend")) (lit "data")).

Definition isRadarChart (safeConfig : list (jsstring * jsval)) : bool :=
  truthy (prop safeConfig (lit "radar")).

(** The radar branch: a legend of more than 3 items is laid out
    vertically and the radar gets a centre and a radius when it has
    none. *)
Definition radar_layout (isRadarChart hasLegend : bool)
  (safeConfig : list (jsstring * jsval)) : option (list (jsstring * jsval)) :=
  if isRadarChart && hasLegend then
    let legend := prop safeConfig (lit "legend") in
    let legendData := get_opt legend (lit "data") in
    match longer_than legendData 3 with
    | None => None
    | Some false => Some safeConfig
    | Some true =>
        let safeConfig :=
          set_prop safeConfig (lit "legend")
            (Obj (set_prop (set_prop (set_prop (own_props legend)
                    (lit "orient") (Str (lit "vertical")))
                    (lit "left") (Num (of_Z 10)))
                    (lit "top") (Num (of_Z 50)))) in
        let radar := prop safeConfig (lit "radar") in
        Some (set_prop safeConfig (lit "radar")
                (Obj (set_prop (set_prop (own_props radar)
                        (lit "center")
                        (or_else (get_opt radar (lit "center"))
                                 (Arr [Str (lit "60%"); Str (lit "55%")])))
                        (lit "radius")
                        (or_else (get_opt radar (lit "radius"))
                                 (Str (lit "55%"))))))
    end
  else Some safeConfig.

(** The least [grid.top] for a chart with this title and legend. *)
Definition minTop (hasTitle hasLegend isRadarChart : bool)
  (safeConfig : list (jsstring * jsval)) : option Z :=
  let minTop := 60%Z in
  let minTop := if hasTitle && hasLegend then 80%Z else minTop in
  let minTop := if hasTitle then Z.max minTop 50 else minTop in
  if hasLegend && negb isRadarChart then
    let legendData :=
      get_opt (prop safeConfig (lit "legend")) (lit "data") in
    match longer_than legendData 4 with
    | None => None
    | Some true => Some 100%Z
    | Some false => Some minTop
    end
  else Some minTop.

(** [typeof grid.top === 'number' ? grid.top :
     typeof grid.top === 'string' ? parseInt(grid.top) : 0] *)
Definition currentTop (grid : jsval) : number :=
  match get_opt grid (lit "top") with
  | Num n => n
  | Str s => parseInt s
  | _ => of_Z 0
  end.

(** The branch for charts that are no radar: [grid.top] is at least
    [minTop]. *)
Definition grid_top (isRadarChart : bool)
  (safeConfig : list (jsstring * jsval)) (minTop : Z)
  : list (jsstring * jsval) :=
  if negb isRadarChart then
    if negb (truthy (prop safeConfig (lit "grid"))) then
      set_prop safeConfig (lit "grid")
        (Obj [(lit "top", Num (of_Z minTop)); (lit "left", Num (of_Z 60));
              (lit "right", Num (of_Z 30)); (lit "bottom", Num (of_Z 60))])
    else
      let grid := prop safeConfig (lit "grid") in
      if num_ltb (currentTop grid) (of_Z minTop) then
        set_prop safeConfig (lit "grid")
          (Obj (set_prop (own_props grid) (lit "top") (Num (of_Z minTop))))
      else safeConfig
  else safeConfig.

(** [safeConfig] as the effect of [MessageChart] computes it from
    [config].  [None]: a legend whose [data.length] is no number needs a
    conversion that is outside [JS.ToNumber]. *)
Definition safeConfig (config : jsval) : option jsval :=
  let safeConfig := own_props config in
  let hasTitle := hasTitle safeConfig in
  let hasLegend := hasLegend safeConfig in
  let isRadarChart := isRadarChart safeConfig in
  match radar_layout isRadarChart hasLegend safeConfig with
  | None => None
  | Some safeConfig =>
      match minTop hasTitle hasLegend isRadarChart safeConfig with
      | None => None
      | Some minTop => Some (Obj (grid_top isRadarChart safeConfig minTop))
      end
  end.

(** *** The registry of chart instances *)

(** An ECharts instance is named by the number of its [echarts.init]
    call. *)
Record ChartInstanceRef := {
  messageId : jsstring;
  instance : nat;
  title : jsval }.

(** A map that keeps its keys in insertion order, as a JavaScript Map
    does: a list of bindings with one binding per key. *)
Fixpoint assoc {A} (k : jsstring) (l : list (jsstring * A)) : option A :=
  match l with
  | [] => None
  | (k', v) :: r => if eqb k' k then Some v else assoc k r
  end.

Definition has {A} (l : list (jsstring * A)) (k : jsstring) : bool :=
  match assoc k l with Some _ => true | None => false end.

Fixpoint assoc_set {A} (l : list (jsstring * A)) (k : jsstring) (v : A)
  : list (jsstring * A) :=
  match l with
  | [] => [(k, v)]
  | (k', v') :: r =>
      if eqb k' k then (k', v) :: r else (k', v') :: assoc_set r k v
  end.

Fixpoint assoc_remove {A} (l : list (jsstring * A)) (k : jsstring)
  : list (jsstring * A) :=
  match l with
  | [] => []
  | (k', v') :: r =>
      if eqb k' k then r else (k', v') :: assoc_remove r k
  end.

(** [Map<string, ChartInstanceRef>] *)
Definition ChartMap := list (jsstring * ChartInstanceRef).

(** [m.has(k)] *)
Definition Map_has (m : ChartMap) (k : jsstring) : bool := has m k.

(** [m.set(k, v)]: an existing key keeps its place. *)
Definition Map_set (m : ChartMap) (k : jsstring) (v : ChartInstanceRef)
  : ChartMap := assoc_set m k v.

(** [m.delete(k)] *)
Definition Map_delete (m : ChartMap) (k : jsstring) : ChartMap :=
  assoc_remove m k.

(** [Array.from(m.values())] *)
Definition Map_values (m : ChartMap) : list ChartInstanceRef := map snd m.

(** [config?.title?.text || "图表"] *)
Definition chart_title (config : jsval) : jsval :=
  or_else (get_opt (get_opt config (lit "title")) (lit "text"))
          (Str (TextDecoder.text "图表")).

(** [handleInstanceReady]: the map after the call and the list handed
    to [onChartInstancesChange]. *)
Definition handleInstanceReady (m : ChartMap) (messageId : jsstring)
  (instance : nat) (config : jsval) : ChartMap * list ChartInstanceRef :=
  let title := chart_title config in
  let m := Map_set m messageId
             {| messageId := messageId; instance := instance; title := title |} in
  (m, Map_values m).

(** [handleInstanceDestroy] *)
Definition handleInstanceDestroy (m : ChartMap) (messageId : jsstring)
  : ChartMap * list ChartInstanceRef :=
  let m := Map_delete m messageId in
  (m, Map_values m).

(** The list component with its charts.
    - [created]: how many times [echarts.init] ran;
    - [live]: the instances not disposed of, each with the option last
      set on it;
    - [mounted]: the [MessageChart] components by message id, each with
      its [chartInstanceRef.current];
    - [chartInstances]: [chartInstancesRef.current];
    - [reported]: the length last handed to the page through
      [onChartInstancesChange]. *)
Record View := {
  created : nat;
  live : list (nat * option jsval);
  mounted : list (jsstring * option nat);
  chartInstances : ChartMap;
  reported : option nat }.

Definition empty_view : View :=
  {| created := 0; live := []; mounted := []; chartInstances := [];
     reported := None |}.

(** [instance.setOption(option)] *)
Fixpoint setOption (live : list (nat * option jsval)) (h : nat) (o : jsval)
  : list (nat * option jsval) :=
  match live with
  | [] => []
  | (h', o') :: r =>
      if Nat.eqb h' h then (h', Some o) :: r else (h', o') :: setOption r h o
  end.

(** [instance.dispose()] *)
Definition dispose (live : list (nat * option jsval)) (h : nat)
  : list (nat * option jsval) :=
  filter (fun '(h', _) => negb (Nat.eqb h' h)) live.

(** A message with a chart configuration is rendered: its
    [MessageChart] mounts with an empty [chartInstanceRef]. *)
Definition mount (v : View) (messageId : jsstring) : View :=
  {| created := created v; live := live v;
     mounted := assoc_set (mounted v) messageId None;
     chartInstances := chartInstances v; reported := reported v |}.

(** The first effect of the [MessageChart] of [messageId], run after
    mounting and when [config], [messageId] or [onInstanceReady] has
    changed.  An instance is created and registered only while
    [chartInstanceRef.current] is empty; the normalised option is set on
    the instance in every run.  [None] when [safeConfig] gives none. *)
Definition chart_effect (v : View) (messageId : jsstring) (config : jsval)
  : option View :=
  match assoc messageId (mounted v) with
  | None => Some v
  | Some ref =>
      if negb (truthy config) then Some v
      else
        let '(h, v1) :=
          match ref with
          | Some h => (h, v)
          | None =>
              let h := created v in
              let '(m, instances) :=
                handleInstanceReady (chartInstances v) messageId h config in
              (h, {| created := S (created v);
                     live := live v ++ [(h, None)];
                     mounted := assoc_set (mounted v) messageId (Some h);
                     chartInstances := m;
                     reported := Some (List.length instances) |})
          end in
        match safeConfig config with
        | None => None
        | Some safe =>
            Some {| created := created v1;
                    live := setOption (live v1) h safe;
                    mounted := mounted v1;
                    chartInstances := chartInstances v1;
                    reported := reported v1 |}
        end
  end.

(** The cleanup of the second effect, run when the component unmounts:
    [onInstanceDestroy()], then the instance is disposed of. *)
Definition unmount (v : View) (messageId : jsstring) : View :=
  match assoc messageId (mounted v) with
  | None => v
  | Some ref =>
      let '(m, instances) := handleInstanceDestroy (chartInstances v) messageId in
      {| created := created v;
         live := match ref with Some h => dispose (live v) h | None => live v end;
         mounted := assoc_remove (mounted v) messageId;
         chartInstances := m;
         reported := Some (List.length instances) |}
  end.

(** The same cleanup while the component stays mounted: it runs before
    the effects run again when [onInstanceDestroy], a function the
    parent makes anew at each of its renders, has changed. *)
Definition cleanup (v : View) (messageId : jsstring) : View :=
  match assoc messageId (mounted v) with
  | None => v
  | Some ref =>
      let '(m, instances) := handleInstanceDestroy (chartInstances v) messageId in
      {| created := created v;
         live := match ref with Some h => dispose (live v) h | None => live v end;
         mounted := assoc_set (mounted v) messageId None;
         chartInstances := m;
         reported := Some (List.length instances) |}
  end.

(** The [MessageChart] of [messageId] rendered again while it stays
    mounted.  [ChatMessageItem] hands it [onInstanceReady] and
    [onInstanceDestroy] as arrow functions made in its own render, so
    the dependencies of both effects have changed whenever it renders
    again: the cleanups run first, then the effects. *)
Definition rerender (v : View) (messageId : jsstring) (config : jsval)
  : option View :=
  chart_effect (cleanup v messageId) messageId config.

(** *** [exportAllCharts] *)

Inductive Exported :=
| alert (message : jsstring)
| timers (scheduled : list (Z * ChartInstanceRef)).

(** [instances.forEach((item, index) => setTimeout(..., index * 300))]:
    the delay and the item of each timer, in the order of the calls. *)
Fixpoint forEach_setTimeout (index : Z) (instances : list ChartInstanceRef)
  : list (Z * ChartInstanceRef) :=
  match instances with
  | [] => []
  | item :: r => (index * 300, item)%Z :: forEach_setTimeout (index + 1) r
  end.

Definition exportAllCharts (m : ChartMap) : Exported :=
  let instances := Map_values m in
  if Nat.eqb (List.length instances) 0
  then alert (TextDecoder.text "当前没有可导出的图表")
  else timers (forEach_setTimeout 0 instances).

(** *** What [ChatMessageItem] shows *)

(** The index of the first [```] in [t]. *)
Fixpoint closing_fence (t : jsstring) : option nat :=
  match t with
  | [] => None
  | _ :: r =>
      if startsWith t (lit "```") then Some 0%nat
      else option_map S (closing_fence r)
  end.

(** [content.replace(/```json[\s\S]*?```/g, empty)]: the matches are
    sought from the left, each as short as it can be, and dropped;
    [skip] counts the code units of the match in hand still to drop. *)
Fixpoint replace_json_blocks (skip : nat) (content : jsstring) : jsstring :=
  match content with
  | [] => []
  | c :: r =>
      match skip with
      | S n => replace_json_blocks n r
      | O =>
          if startsWith content (lit "```json") then
            match closing_fence (slice content 7) with
            | Some j => replace_json_blocks (6 + j + 3) r
            | None => c :: replace_json_blocks 0 r
            end
          else c :: replace_json_blocks 0 r
      end
  end.

Definition removeJsonCodeBlock (content : jsstring) : jsstring :=
  trim (replace_json_blocks 0 content).

(** [m.chartConfig ? removeJsonCodeBlock(m.content) : m.content] *)
Definition displayContent (m : ChatMessage) : jsstring :=
  match chartConfig m with
  | Some config =>
      if truthy config then removeJsonCodeBlock (content m) else content m
  | None => content m
  end.

(** [m.role === "assistant" && (m.isLoading || !m.content.trim())] *)
Definition showLoading (m : ChatMessage) : bool :=
  match role m with
  | assistant =>
      match isLoading m with
      | Some true => true
      | _ => negb (truthy (Str (trim (content m))))
      end
  | user => false
  end.

End ChatMessageList.

(* ================================================================== *)
(** ** The turn both pages drive through [sendChatMessageStream] *)

Module Turn.
Import JS ChatMessageList.

(** A callback invocation with arguments of the declared parameter
    types: [onChunk: (content: string) => void],
    [onDone: (chartConfig: Record<string, unknown> | null) => void],
    [onError: (error: string) => void]. *)
Inductive StreamEvent :=
| Chunk (content : jsstring)
| Done (chartConfig : jsval)
| Error (error : jsstring).

(** What the awaited call did: the callbacks it invoked, in order, and
    the exception it ended with, if any. *)
Record Outcome := {
  events : list StreamEvent;
  thrown : option Api.Thrown }.

Definition typed (c : Api.Callback) : option StreamEvent :=
  match c with
  | Api.onChunk (Str s) => Some (Chunk s)
  | Api.onDone chartConfig => Some (Done chartConfig)
  | Api.onError (Str s) => Some (Error s)
  | _ => None
  end.

Fixpoint typed_all (cs : list Api.Callback) : option (list StreamEvent) :=
  match cs with
  | [] => Some []
  | c :: r =>
      match typed c, typed_all r with
      | Some e, Some es => Some (e :: es)
      | _, _ => None
      end
  end.

(** The outcome of [sendChatMessageStream] on what [fetch] gave, when
    the frames carry strings where the callbacks take strings. *)
Definition outcome_of (fetched : Api.Thrown + Api.Response) : option Outcome :=
  let '(calls, e) := Api.sendChatMessageStream fetched in
  match typed_all calls with
  | Some es => Some {| events := es; thrown := e |}
  | None => None
  end.

(** [error instanceof Error ? error.message : "未知错误"] *)
Definition error_message (e : Api.Thrown) : jsstring :=
  match e with
  | Api.ErrorObject m => m
  | Api.NotAnError => TextDecoder.text "未知错误"
  end.

(** [chartConfig || undefined] *)
Definition chart_or_undefined (chartConfig : jsval) : option jsval :=
  if truthy chartConfig then Some chartConfig else None.

(** [[...prev.slice(0, -1), m]] *)
Definition replace_last (prev : list ChatMessage) (m : ChatMessage)
  : list ChatMessage :=
  removelast prev ++ [m].

(** The three callbacks of [handleSend], on the messages and on the
    local [streamContent]. *)
Definition on_event (assistantMsgId : jsstring)
  (s : jsstring * list ChatMessage) (ev : StreamEvent)
  : jsstring * list ChatMessage :=
  let '(streamContent, prev) := s in
  match ev with
  | Chunk chunk =>
      let streamContent := streamContent ++ chunk in
      (streamContent,
       replace_last prev (message assistantMsgId assistant streamContent))
  | Done chartConfig =>
      (streamContent,
       replace_last prev
         {| id := assistantMsgId; role := assistant;
            content := streamContent;
            chartConfig := chart_or_undefined chartConfig;
            isLoading := None |})
  | Error error =>
      (streamContent,
       replace_last prev
         (message assistantMsgId assistant
            (TextDecoder.text "生成失败：" ++ error)))
  end.

Definition on_events (assistantMsgId : jsstring)
  (s : jsstring * list ChatMessage) (evs : list StreamEvent)
  : jsstring * list ChatMessage :=
  fold_left (on_event assistantMsgId) evs s.

(** The [catch] block of [handleSend]. *)
Definition on_catch (assistantMsgId : jsstring) (prev : list ChatMessage)
  (e : Api.Thrown) : list ChatMessage :=
  replace_last prev
    (message assistantMsgId assistant
       (TextDecoder.text "生成失败：" ++ error_message e)).

(** The two entries a turn starts with; [now_a] and [now_u] are the
    values of the two [Date.now()] calls. *)
Definition assistant_id (now_a : N) : jsstring := lit "a-" ++ dec_string now_a.
Definition user_id (now_u : N) : jsstring := lit "u-" ++ dec_string now_u.

Definition opened (prev : list ChatMessage) (text : jsstring) (now_a now_u : N)
  : list ChatMessage :=
  prev ++ [message (user_id now_u) user text;
           message (assistant_id now_a) assistant []].

(** The messages after the callbacks for [evs] ran, the stream still
    being read. *)
Definition streamed (prev : list ChatMessage) (text : jsstring)
  (now_a now_u : N) (evs : list StreamEvent) : jsstring * list ChatMessage :=
  on_events (assistant_id now_a) ([], opened prev text now_a now_u) evs.

(** The messages when the [try] statement is left. *)
Definition settled (prev : list ChatMessage) (text : jsstring)
  (now_a now_u : N) (out : Outcome) : list ChatMessage :=
  let '(_, msgs) := streamed prev text now_a now_u (events out) in
  match thrown out with
  | Some e => on_catch (assistant_id now_a) msgs e
  | None => msgs
  end.

End Turn.

(* ================================================================== *)
(** ** [src/services/api.ts]: the session a page loads *)

Module SessionApi.
Import JS ChatMessageList.

Record FileMetadataInfo := {
  file_id : jsstring;
  filename : jsstring;
  sheet_names : option (list jsstring);
  selected_sheets : option (list jsstring) }.

(** A stored message; the pages read the roles [user] and [assistant]. *)
Record ChatMessageInfo := {
  id : N;
  role : Role;
  content : jsstring;
  chart_config : jsval }.

Record SessionDetail := {
  title : option jsstring;
  file_ids : option (list jsstring);
  file_metadata : option (list FileMetadataInfo);
  messages : list ChatMessageInfo }.

(** A sheet of the answer of [selectMultipleSheets], with the fields the
    pages read. *)
Record SheetData := {
  sheet_name : jsstring;
  rows : N }.

(** [result.selected_sheets.map((s) => ...).join(", ")] *)
Definition sheet_infos (selected_sheets : list SheetData) : jsstring :=
  join (lit ", ")
    (map (fun s =>
            TextDecoder.text "「" ++ sheet_name s ++ TextDecoder.text "」("
            ++ dec_string (rows s) ++ TextDecoder.text "行)")
         selected_sheets).

End SessionApi.

(* ================================================================== *)
(** ** [src/pages/SessionPage.tsx] *)

Module SessionPage.
Import JS ChatMessageList Turn.

Record RestoredFileInfo := {
  file_id : jsstring;
  filename : jsstring;
  sheet_names : list jsstring;
  selectedSheets : list jsstring }.

Record SessionDetail := {
  file_ids : option (list jsstring) }.

Record ChatRequestPayload := {
  session_id : jsstring;
  message_text : jsstring;
  payload_file_ids : list jsstring }.

(** The props and state of the page, and [requests], the calls made to
    [sendChatMessageStream] so far. *)
Record State := {
  sessionId : jsstring;
  messages : list ChatMessage;
  loading : bool;
  isStreaming : bool;
  sessionDetail : option SessionDetail;
  fileInfos : list RestoredFileInfo;
  dataSourceIds : list jsstring;
  requests : list ChatRequestPayload }.

(** *** [handleSheetsChange]: the data source ids *)

(** [`${info.file_id}:${sheet}`] *)
Definition source_id (file_id sheet : jsstring) : jsstring :=
  file_id ++ lit ":" ++ sheet.

(** The body of [updatedInfos.forEach((info) => ...)] on the array
    being filled. *)
Definition push_ids (newDataSourceIds : list jsstring) (info : RestoredFileInfo)
  : list jsstring :=
  if (0 <? List.length (selectedSheets info))%nat then
    fold_left (fun ids sheet => ids ++ [source_id (file_id info) sheet])
              (selectedSheets info) newDataSourceIds
  else newDataSourceIds ++ [file_id info].

Definition recompute (updatedInfos : list RestoredFileInfo) : list jsstring :=
  fold_left push_ids updatedInfos [].

(** [updatedInfos[fileIndex] = {...updatedInfos[fileIndex], selectedSheets}]
    for an index of the list, as the sheet selectors pass it. *)
Fixpoint select (infos : list RestoredFileInfo) (fileIndex : nat)
  (newSheets : list jsstring) : option (list RestoredFileInfo) :=
  match infos, fileIndex with
  | [], _ => None
  | info :: r, O =>
      Some ({| file_id := file_id info; filename := filename info;
               sheet_names := sheet_names info;
               selectedSheets := newSheets |} :: r)
  | info :: r, S n =>
      match select r n newSheets with
      | Some r' => Some (info :: r')
      | None => None
      end
  end.

(** [handleSheetsChange] up to its first [await]: the file infos and
    the data source ids it sets.  What the handler does when
    [selectMultipleSheets] has answered is [answered] below. *)
Definition handleSheetsChange (st : State) (fileIndex : nat)
  (newSheets : list jsstring) : option State :=
  match select (fileInfos st) fileIndex newSheets with
  | None => None
  | Some updatedInfos =>
      Some {| sessionId := sessionId st; messages := messages st;
              loading := loading st; isStreaming := isStreaming st;
              sessionDetail := sessionDetail st;
              fileInfos := updatedInfos;
              dataSourceIds := recompute updatedInfos;
              requests := requests st |}
  end.

(** *** [handleSend] *)

(** [dataSourceIds.length > 0 ? dataSourceIds : sessionDetail.file_ids || []] *)
Definition fileIdsToUse (st : State) (d : SessionDetail) : list jsstring :=
  if (0 <? List.length (dataSourceIds st))%nat then dataSourceIds st
  else match file_ids d with Some l => l | None => [] end.

Definition with_messages (st : State) (msgs : list ChatMessage)
  (streaming : bool) (reqs : list ChatRequestPayload) : State :=
  {| sessionId := sessionId st; messages := msgs; loading := loading st;
     isStreaming := streaming; sessionDetail := sessionDetail st;
     fileInfos := fileInfos st; dataSourceIds := dataSourceIds st;
     requests := reqs |}.

(** The guard [if (!sessionDetail || loading || isStreaming) return]. *)
Definition rejected (st : State) : bool :=
  match sessionDetail st with
  | None => true
  | Some _ => loading st || isStreaming st
  end.

Definition request (st : State) (text : jsstring) : list ChatRequestPayload :=
  match sessionDetail st with
  | Some d => [{| session_id := sessionId st; message_text := text;
                  payload_file_ids := fileIdsToUse st d |}]
  | None => []
  end.

(** The page while the stream of an accepted turn is read, after the
    callbacks for [evs], when nothing else has run since the turn
    began.  The handlers as the event loop interleaves them are [task]
    and [run] below. *)
Definition during (st : State) (text : jsstring) (now_a now_u : N)
  (evs : list StreamEvent) : State :=
  with_messages st (snd (streamed (messages st) text now_a now_u evs))
    true (requests st ++ request st text).

(** [handleSend(text)] run to its end on the state of the render that
    made it, when nothing else runs while it awaits: the guard, the
    flag and the request are those of every run, the messages those of
    a turn no other handler writes into. *)
Definition handleSend (st : State) (text : jsstring) (now_a now_u : N)
  (out : Outcome) : State :=
  if rejected st then st
  else
    with_messages st (settled (messages st) text now_a now_u out)
      false (requests st ++ request st text).

(** *** [loadSession] *)

(** The page as its [useState] calls make it. *)
Definition first_render (sessionId : jsstring) : State :=
  {| sessionId := sessionId; messages := []; loading := true;
     isStreaming := false; sessionDetail := None; fileInfos := [];
     dataSourceIds := []; requests := [] |}.

(** The body of [detail.file_metadata.map((fm) => ...)]. *)
Definition restored (fm : SessionApi.FileMetadataInfo) : RestoredFileInfo :=
  {| file_id := SessionApi.file_id fm;
     filename := SessionApi.filename fm;
     sheet_names :=
       match SessionApi.sheet_names fm with Some l => l | None => [] end;
     selectedSheets :=
       match SessionApi.selected_sheets fm with Some l => l | None => [] end |}.

(** The text of the entry for one file. *)
Definition file_info_content (fm : SessionApi.FileMetadataInfo) : jsstring :=
  let content :=
    TextDecoder.text "文件「" ++ SessionApi.filename fm
    ++ TextDecoder.text "」已加载" in
  match SessionApi.sheet_names fm with
  | Some names =>
      if (1 <? List.length names)%nat then
        let content :=
          content ++ [0x0A%N] ++ TextDecoder.text "📊 包含 "
          ++ dec_string (N.of_nat (List.length names))
          ++ TextDecoder.text " 个 Sheet：" ++ join (lit ", ") names in
        let content :=
          match SessionApi.selected_sheets fm with
          | Some selected =>
              if (0 <? List.length selected)%nat then
                content ++ [0x0A%N] ++ TextDecoder.text "✅ 当前选择："
                ++ join (lit ", ") selected
              else content
          | None => content
          end in
        content ++ [0x0A%N] ++ TextDecoder.text "💡 提示：可以在上方选择多个 Sheet 进行联合分析"
      else content
  | None => content
  end.

(** [detail.file_metadata.forEach((fm, index) => fileMessages.push(...))]
    from [index] on. *)
Fixpoint file_info_messages (index : N)
  (file_metadata : list SessionApi.FileMetadataInfo) : list ChatMessage :=
  match file_metadata with
  | [] => []
  | fm :: r =>
      message (lit "file-info-" ++ dec_string index) assistant
        (file_info_content fm)
      :: file_info_messages (N.succ index) r
  end.

Definition fileMessages
  (file_metadata : option (list SessionApi.FileMetadataInfo))
  : list ChatMessage :=
  match file_metadata with
  | Some (fm :: r) =>
      message (lit "file-count") assistant
        (TextDecoder.text "已上传 "
         ++ dec_string (N.of_nat (List.length (fm :: r)))
         ++ TextDecoder.text " 个文件")
      :: file_info_messages 0 (fm :: r)
  | _ => []
  end.

Definition chatMessages (history : list SessionApi.ChatMessageInfo)
  : list ChatMessage :=
  map (fun msg =>
         {| id := lit "msg-" ++ dec_string (SessionApi.id msg);
            role := SessionApi.role msg;
            content := SessionApi.content msg;
            chartConfig := chart_or_undefined (SessionApi.chart_config msg);
            isLoading := None |})
      history.

(** [loadSession] run to its end on what [getSessionDetail] gave;
    [cancelled] is the flag when the call has returned.  The state keeps
    of the detail the field [handleSend] reads. *)
Definition loadSession (st : State) (cancelled : bool)
  (fetched : Api.Thrown + SessionApi.SessionDetail) : State :=
  match fetched with
  | inr detail =>
      if cancelled then
        {| sessionId := sessionId st; messages := messages st;
           loading := true; isStreaming := isStreaming st;
           sessionDetail := sessionDetail st; fileInfos := fileInfos st;
           dataSourceIds := dataSourceIds st; requests := requests st |}
      else
        let infos :=
          match SessionApi.file_metadata detail with
          | Some (fm :: r) => Some (map restored (fm :: r))
          | _ => None
          end in
        {| sessionId := sessionId st;
           messages :=
             fileMessages (SessionApi.file_metadata detail)
             ++ chatMessages (SessionApi.messages detail);
           loading := false; isStreaming := isStreaming st;
           sessionDetail :=
             Some {| file_ids := SessionApi.file_ids detail |};
           fileInfos :=
             match infos with Some l => l | None => fileInfos st end;
           dataSourceIds :=
             match infos with
             | Some l => recompute l
             | None => dataSourceIds st
             end;
           requests := requests st |}
  | inl error =>
      {| sessionId := sessionId st;
         messages :=
           [message (lit "error") assistant
              (TextDecoder.text "加载会话失败：" ++ error_message error)];
         loading := if cancelled then true else false;
         isStreaming := isStreaming st;
         sessionDetail := sessionDetail st; fileInfos := fileInfos st;
         dataSourceIds := dataSourceIds st; requests := requests st |}
  end.

(** [hasMultipleSheets] *)
Definition hasMultipleSheets (st : State) : bool :=
  existsb (fun info => (1 <? List.length (sheet_names info))%nat)
          (fileInfos st).

(** *** [handleSheetsChange] with its awaits *)

(** [handleSheetsChange] run to its end when nothing else runs while
    it awaits: the file infos and the ids are set before
    [selectMultipleSheets] is called, for a selection that is not
    empty; [selected] is what the call gave, [now] the value of
    [Date.now()]. *)
Definition handleSheetsChange_awaited (st : State) (fileIndex : nat)
  (newSheets : list jsstring)
  (selected : Api.Thrown + list SessionApi.SheetData) (now : N)
  : option State :=
  match handleSheetsChange st fileIndex newSheets with
  | None => None
  | Some st1 =>
      match newSheets, selected with
      | _ :: _, inr selected_sheets =>
          Some
            (with_messages st1
               (messages st1
                ++ [message (lit "sheet-change-" ++ dec_string now) assistant
                      (TextDecoder.text "已选择 "
                       ++ dec_string (N.of_nat (List.length newSheets))
                       ++ TextDecoder.text " 个 Sheet："
                       ++ SessionApi.sheet_infos selected_sheets
                       ++ TextDecoder.text " 💡 现在可以基于这些数据进行联合分析")])
               (isStreaming st1) (requests st1))
      | _, _ => Some st1
      end
  end.

(** *** The handlers as the event loop runs them *)

(** The entry [handleSheetsChange] appends when [selectMultipleSheets]
    has answered. *)
Definition sheet_change_entry (newSheets : list jsstring)
  (selected_sheets : list SessionApi.SheetData) (now : N) : ChatMessage :=
  message (lit "sheet-change-" ++ dec_string now) assistant
    (TextDecoder.text "已选择 "
     ++ dec_string (N.of_nat (List.length newSheets))
     ++ TextDecoder.text " 个 Sheet："
     ++ SessionApi.sheet_infos selected_sheets
     ++ TextDecoder.text " 💡 现在可以基于这些数据进行联合分析").

(** The locals of a [handleSend] call that awaits
    [sendChatMessageStream]. *)
Record InFlight := {
  assistantMsgId : jsstring;
  streamContent : jsstring }.

(** The page with its calls in flight: the turn, if one is awaited, and
    the selections of the [handleSheetsChange] calls that await
    [selectMultipleSheets], in the order of the calls. *)
Record Page := {
  state : State;
  turn : option InFlight;
  awaited : list (list jsstring) }.

(** What the event loop runs on the page, each piece without
    interruption:
    - [send]: [handleSend] up to its [await];
    - [callback]: a callback of the awaited [sendChatMessageStream];
    - [returned]: the call has ended, with an exception or without:
      the [catch] and [finally] blocks;
    - [change]: [handleSheetsChange] up to its first [await], called by
      a sheet selector;
    - [answered]: [selectMultipleSheets] has answered the [k]-th of the
      calls that await it. *)
Inductive Task :=
| send (text : jsstring) (now_a now_u : N)
| callback (ev : StreamEvent)
| returned (thrown : option Api.Thrown)
| change (fileIndex : nat) (newSheets : list jsstring)
| answered (k : nat) (selected : Api.Thrown + list SessionApi.SheetData)
           (now : N).

(** One task on the page; [None] when it cannot run: a callback or a
    return without a turn in flight, a change through a selector that
    is disabled ([loading || isStreaming]) or for a file the page does
    not hold, an answer nothing awaits.  The messages are set through
    updater functions, so every write reads the transcript as it is
    when the task runs.  [handleSheetsChange] sets neither [loading]
    nor [isStreaming]; what it does after its second [await]
    ([updateSessionFileMetadata]) leaves the state alone. *)
Definition task (p : Page) (t : Task) : option Page :=
  let st := state p in
  match t with
  | send text now_a now_u =>
      if rejected st then Some p
      else
        Some {| state :=
                  with_messages st (opened (messages st) text now_a now_u)
                    true (requests st ++ request st text);
                turn := Some {| assistantMsgId := assistant_id now_a;
                                streamContent := [] |};
                awaited := awaited p |}
  | callback ev =>
      match turn p with
      | None => None
      | Some f =>
          let '(content, msgs) :=
            on_event (assistantMsgId f) (streamContent f, messages st) ev in
          Some {| state := with_messages st msgs (isStreaming st) (requests st);
                  turn := Some {| assistantMsgId := assistantMsgId f;
                                  streamContent := content |};
                  awaited := awaited p |}
      end
  | returned thrown =>
      match turn p with
      | None => None
      | Some f =>
          let msgs :=
            match thrown with
            | Some e => on_catch (assistantMsgId f) (messages st) e
            | None => messages st
            end in
          Some {| state := with_messages st msgs false (requests st);
                  turn := None;
                  awaited := awaited p |}
      end
  | change fileIndex newSheets =>
      if loading st || isStreaming st then None
      else
        match handleSheetsChange st fileIndex newSheets with
        | None => None
        | Some st1 =>
            Some {| state := st1;
                    turn := turn p;
                    awaited :=
                      match newSheets with
                      | [] => awaited p
                      | _ :: _ => awaited p ++ [newSheets]
                      end |}
        end
  | answered k selected now =>
      match nth_error (awaited p) k with
      | None => None
      | Some newSheets =>
          let msgs :=
            match selected with
            | inr selected_sheets =>
                messages st
                ++ [sheet_change_entry newSheets selected_sheets now]
            | inl _ => messages st
            end in
          Some {| state := with_messages st msgs (isStreaming st) (requests st);
                  turn := turn p;
                  awaited := firstn k (awaited p) ++ skipn (S k) (awaited p) |}
      end
  end.

Fixpoint run (p : Page) (tasks : list Task) : option Page :=
  match tasks with
  | [] => Some p
  | t :: r =>
      match task p t with
      | Some p' => run p' r
      | None => None
      end
  end.

(** A page with nothing in flight. *)
Definition at_rest (st : State) : Page :=
  {| state := st; turn := None; awaited := [] |}.

End SessionPage.

(* ================================================================== *)
(** ** The generate page *)

Module GeneratePage.
Import JS ChatMessageList Turn.

Record UploadResponse := {
  file_id : jsstring;
  filename : jsstring;
  sheet_names : option (list jsstring);
  selected_sheet : option jsstring }.

Record FileInfo := {
  uploadResult : UploadResponse;
  selectedSheets : list jsstring }.

Record ChatRequestPayload := {
  session_id : jsstring;
  message_text : jsstring;
  payload_file_ids : list jsstring }.

Record State := {
  messages : list ChatMessage;
  loading : bool;
  fileIds : list jsstring;
  sessionId : option jsstring;
  fileInfos : list FileInfo;
  requests : list ChatRequestPayload }.

Definition with_messages (st : State) (msgs : list ChatMessage)
  (busy : bool) (reqs : list ChatRequestPayload) : State :=
  {| messages := msgs; loading := busy; fileIds := fileIds st;
     sessionId := sessionId st; fileInfos := fileInfos st;
     requests := reqs |}.

(** *** [handleSheetsChange]: the data source ids *)

Definition source_id (file_id sheet : jsstring) : jsstring :=
  file_id ++ lit ":" ++ sheet.

Definition push_ids (newDataSourceIds : list jsstring) (fi : FileInfo)
  : list jsstring :=
  if (0 <? List.length (selectedSheets fi))%nat then
    fold_left
      (fun ids sheet => ids ++ [source_id (file_id (uploadResult fi)) sheet])
      (selectedSheets fi) newDataSourceIds
  else newDataSourceIds ++ [file_id (uploadResult fi)].

Definition recompute (newInfos : list FileInfo) : list jsstring :=
  fold_left push_ids newInfos [].

Fixpoint select (infos : list FileInfo) (fileIndex : nat)
  (newSelectedSheets : list jsstring) : option (list FileInfo) :=
  match infos, fileIndex with
  | [], _ => None
  | info :: r, O =>
      Some ({| uploadResult := uploadResult info;
               selectedSheets := newSelectedSheets |} :: r)
  | info :: r, S n =>
      match select r n newSelectedSheets with
      | Some r' => Some (info :: r')
      | None => None
      end
  end.

(** [handleSheetsChange] after [selectMultipleSheets] resolved, up to
    [setFileIds]; it returns at once for an index without file info or
    an empty selection. *)
Definition handleSheetsChange (st : State) (fileIndex : nat)
  (newSelectedSheets : list jsstring) : State :=
  match newSelectedSheets, select (fileInfos st) fileIndex newSelectedSheets with
  | _ :: _, Some newInfos =>
      {| messages := messages st; loading := true;
         fileIds := recompute newInfos; sessionId := sessionId st;
         fileInfos := newInfos; requests := requests st |}
  | _, _ => st
  end.

(** *** [handleSend] *)

(** The guard [if (fileIds.length === 0 || !sessionId || loading) return]. *)
Definition rejected (st : State) : bool :=
  Nat.eqb (List.length (fileIds st)) 0
  || match sessionId st with Some (_ :: _) => false | _ => true end
  || loading st.

Definition request (st : State) (text : jsstring) : list ChatRequestPayload :=
  match sessionId st with
  | Some s => [{| session_id := s; message_text := text;
                  payload_file_ids := fileIds st |}]
  | None => []
  end.

(** The page while the stream of an accepted turn is read, after the
    callbacks for [evs]. *)
Definition during (st : State) (text : jsstring) (now_a now_u : N)
  (evs : list StreamEvent) : State :=
  with_messages st (snd (streamed (messages st) text now_a now_u evs))
    true (requests st ++ request st text).

Definition handleSend (st : State) (text : jsstring) (now_a now_u : N)
  (out : Outcome) : State :=
  if rejected st then st
  else
    with_messages st (settled (messages st) text now_a now_u out)
      false (requests st ++ request st text).

(** *** The first turn, started by the effect that uploads the files *)

(** The callbacks [init] hands over; each returns at once when the
    effect was cancelled. *)
Definition on_event (cancelled : bool)
  (s : jsstring * list ChatMessage) (ev : StreamEvent)
  : jsstring * list ChatMessage :=
  if cancelled then s
  else
    let '(streamContent, prev) := s in
    match ev with
    | Chunk chunk =>
        let streamContent := streamContent ++ chunk in
        (streamContent,
         replace_last prev (message (lit "m4") assistant streamContent))
    | Done chartConfig =>
        (streamContent,
         replace_last prev
           {| id := lit "m4"; role := assistant; content := streamContent;
              chartConfig := chart_or_undefined chartConfig;
              isLoading := None |})
    | Error error =>
        (streamContent,
         replace_last prev
           (message (lit "m4") assistant (TextDecoder.text "错误：" ++ error)))
    end.

(** The events with the value [cancelled] has when each arrives: the
    cleanup of the effect may run after [alive] of them. *)
Fixpoint on_events (alive : option nat)
  (s : jsstring * list ChatMessage) (evs : list StreamEvent)
  : jsstring * list ChatMessage :=
  match evs with
  | [] => s
  | ev :: r =>
      match alive with
      | None => on_events None (on_event false s ev) r
      | Some O => on_events (Some O) (on_event true s ev) r
      | Some (S n) => on_events (Some n) (on_event false s ev) r
      end
  end.

(** The [catch] block of [init]. *)
Definition on_catch (prev : list ChatMessage) (e : Api.Thrown)
  : list ChatMessage :=
  prev ++ [message (lit "error") assistant
             (TextDecoder.text "错误：" ++ error_message e)].

(** [init] from [if (initialPrompt)] to its end, the session being
    created: the turn for the initial prompt.  [alive] is [None] when
    the effect is never cancelled. *)
Definition first_turn (st : State) (session : jsstring)
  (initialPrompt : jsstring) (dataSourceIds : list jsstring)
  (alive : option nat) (out : Outcome) : State :=
  match initialPrompt with
  | [] =>
      with_messages st (messages st)
        (match alive with None => false | Some _ => loading st end)
        (requests st)
  | _ :: _ =>
      let msgs :=
        messages st ++ [message (lit "m3") user initialPrompt;
                        message (lit "m4") assistant []] in
      let '(_, msgs) := on_events alive ([], msgs) (events out) in
      let reqs :=
        requests st ++ [{| session_id := session;
                           message_text := initialPrompt;
                           payload_file_ids := dataSourceIds |}] in
      match alive, thrown out with
      | None, Some e => with_messages st (on_catch msgs e) false reqs
      | None, None => with_messages st msgs false reqs
      | Some _, _ => with_messages st msgs (loading st) reqs
      end
  end.

(** *** [init], the effect that uploads the files *)

(** The response to an upload with the fields only the transcript
    reads. *)
Record Uploaded := {
  res : UploadResponse;
  rows : N;
  columns : list jsstring }.

(** When the cleanup of the effect runs, if it does: before the uploads
    have ended, before the session is created, or in the first turn
    after [alive] events. *)
Inductive Cancellation :=
| while_uploading
| while_creating
| while_streaming (alive : nat).

(** The page as its [useState] calls make it. *)
Definition first_render : State :=
  {| messages := []; loading := false; fileIds := []; sessionId := None;
     fileInfos := []; requests := [] |}.

(** [uploadResults.forEach((res) => ...)]: the data source ids. *)
Definition init_ids (uploadResults : list UploadResponse) : list jsstring :=
  fold_left
    (fun dataSourceIds res =>
       match selected_sheet res with
       | Some (c :: sheet) =>
           dataSourceIds ++ [file_id res ++ lit ":" ++ c :: sheet]
       | _ => dataSourceIds ++ [file_id res]
       end)
    uploadResults [].

(** [files.map((file, index) => ...)]: the file infos. *)
Definition init_infos (uploadResults : list UploadResponse) : list FileInfo :=
  map (fun res =>
         {| uploadResult := res;
            selectedSheets :=
              match selected_sheet res with
              | Some (c :: sheet) => [c :: sheet]
              | _ => []
              end |})
      uploadResults.

(** [uploadResults.map((res, index) => ...)] from [index] on, each
    response with the name of its file. *)
Fixpoint uploadMessages (index : N) (uploads : list (jsstring * Uploaded))
  : list ChatMessage :=
  match uploads with
  | [] => []
  | (name, up) :: r =>
      let content :=
        TextDecoder.text "文件「" ++ name ++ TextDecoder.text "」上传成功！共 "
        ++ dec_string (rows up) ++ TextDecoder.text " 行数据，列："
        ++ join (lit ", ") (columns up) in
      let content :=
        match sheet_names (res up) with
        | Some names =>
            if (1 <? List.length names)%nat then
              content ++ [0x0A%N] ++ TextDecoder.text "📊 包含 "
              ++ dec_string (N.of_nat (List.length names))
              ++ TextDecoder.text " 个 Sheet：" ++ join (lit ", ") names
              ++ [0x0A%N] ++ TextDecoder.text "💡 提示：可以在上方选择多个 Sheet 进行联合分析"
            else content
        | None => content
        end in
      message (lit "upload-" ++ dec_string index) assistant content
      :: uploadMessages (N.succ index) r
  end.

(** [init] run to its end.  [files] are the names of the files,
    [uploaded] what [Promise.all] of the uploads gave (one response for
    each file, in the order of the files), [created] what
    [createSession] gave (the id of the session), [out] what the call
    for the initial prompt did. *)
Definition init (st : State) (files : list jsstring)
  (initialPrompt : jsstring)
  (uploaded : Api.Thrown + list Uploaded)
  (created : Api.Thrown + jsstring)
  (cancel : option Cancellation) (out : Outcome) : State :=
  let count := dec_string (N.of_nat (List.length files)) in
  let st0 :=
    with_messages st
      [{| id := lit "m1"; role := assistant;
          content :=
            TextDecoder.text "正在上传 " ++ count
            ++ TextDecoder.text " 个文件...";
          chartConfig := None; isLoading := Some true |}]
      true (requests st) in
  let cancelled_uploading :=
    match cancel with Some while_uploading => true | _ => false end in
  let cancelled_creating :=
    match cancel with
    | Some while_uploading | Some while_creating => true
    | _ => false
    end in
  match uploaded with
  | inl error =>
      if cancelled_uploading then st0
      else with_messages st0 (on_catch (messages st0) error) false
             (requests st0)
  | inr uploads =>
      if cancelled_uploading then st0
      else
        let uploadResults := map res uploads in
        let dataSourceIds := init_ids uploadResults in
        let st1 :=
          {| messages :=
               {| id := lit "m1"; role := assistant;
                  content :=
                    TextDecoder.text "已上传 " ++ count
                    ++ TextDecoder.text " 个文件";
                  chartConfig := None; isLoading := Some false |}
               :: uploadMessages 0 (combine files uploads);
             loading := true;
             fileIds := dataSourceIds;
             sessionId := sessionId st;
             fileInfos := init_infos uploadResults;
             requests := requests st |} in
        match created with
        | inl error =>
            if cancelled_creating then st1
            else with_messages st1 (on_catch (messages st1) error) false
                   (requests st1)
        | inr session =>
            if cancelled_creating then st1
            else
              first_turn
                {| messages := messages st1; loading := true;
                   fileIds := dataSourceIds; sessionId := Some session;
                   fileInfos := fileInfos st1; requests := requests st1 |}
                session initialPrompt dataSourceIds
                (match cancel with
                 | Some (while_streaming alive) => Some alive
                 | _ => None
                 end)
                out
        end
  end.

(** [hasMultipleSheets] *)
Definition hasMultipleSheets (st : State) : bool :=
  existsb
    (fun info =>
       match sheet_names (uploadResult info) with
       | Some names => (1 <? List.length names)%nat
       | None => false
       end)
    (fileInfos st).

(** *** [handleSheetsChange] with its awaits *)

(** [handleSheetsChange] run to its end: the file infos and the ids are
    set when [selectMultipleSheets] has answered; [selected] is what the
    call gave, [now] the value of [Date.now()]. *)
Definition handleSheetsChange_awaited (st : State) (fileIndex : nat)
  (newSelectedSheets : list jsstring)
  (selected : Api.Thrown + list SessionApi.SheetData) (now : N) : State :=
  match newSelectedSheets, select (fileInfos st) fileIndex newSelectedSheets with
  | _ :: _, Some newInfos =>
      match selected with
      | inr selected_sheets =>
          {| messages :=
               messages st
               ++ [message (lit "sheet-switch-" ++ dec_string now) assistant
                     (TextDecoder.text "已选择 "
                      ++ dec_string (N.of_nat (List.length newSelectedSheets))
                      ++ TextDecoder.text " 个 Sheet："
                      ++ SessionApi.sheet_infos selected_sheets
                      ++ [0x0A%N]
                      ++ TextDecoder.text "💡 现在可以基于这些数据进行联合分析")];
             loading := false;
             fileIds := recompute newInfos; sessionId := sessionId st;
             fileInfos := newInfos; requests := requests st |}
      | inl error =>
          with_messages st
            (messages st
             ++ [message (lit "sheet-error-" ++ dec_string now) assistant
                   (TextDecoder.text "选择 Sheet 失败：" ++ error_message error)])
            false (requests st)
      end
  | _, _ => st
  end.

End GeneratePage.

(* ================================================================== *)
(** ** [src/components/SheetSelector.tsx] *)

Module SheetSelector.
Import JS.

(** [handleCheckboxChange(sheet, checked)] of the multiple selector:
    the list handed to [onChange], if it is called. *)
Definition handleCheckboxChange (selectedSheets : list jsstring)
  (sheet : jsstring) (checked : bool) : option (list jsstring) :=
  if checked then Some (selectedSheets ++ [sheet])
  else if (1 <? List.length selectedSheets)%nat then
    Some (filter (fun s => negb (eqb s sheet)) selectedSheets)
  else None.

(** A click on the checkbox of [sheet]: the browser inverts what the
    box shows, [selectedSheets.includes(sheet)].  There is a box for
    each of [sheets], when they are more than one, and a disabled box
    takes no click. *)
Definition click (sheets selectedSheets : list jsstring) (disabled : bool)
  (sheet : jsstring) : option (list jsstring) :=
  if (List.length sheets <=? 1)%nat then None
  else if disabled then None
  else if negb (includes sheets sheet) then None
  else handleCheckboxChange selectedSheets sheet
         (negb (includes selectedSheets sheet)).

End SheetSelector.

(* ================================================================== *)
(** ** [src/components/ChatInput.tsx] *)

Module ChatInput.
Import JS.

(** [handleSend()]: the text handed to [onSend], if it is called, and
    the value of the input afterwards. *)
Definition handleSend (disabled : bool) (value : jsstring)
  : option jsstring * jsstring :=
  if disabled then (None, value)
  else
    let trimmed := trim value in
    if negb (truthy (Str trimmed)) then (None, value)
    else (Some trimmed, []).

End ChatInput.

(* ================================================================== *)
(** ** The home page and [src/App.tsx] *)

Module HomePage.
Import JS.

(** A [File] the user picked. *)
Record File := {
  name : jsstring;
  bytes : list byte }.

(** [handleFilesChange(newFiles)] on the files held. *)
Definition handleFilesChange (prev newFiles : list File) : list File :=
  let existingNames := map name prev in
  let uniqueNewFiles :=
    filter (fun f => negb (includes existingNames (name f))) newFiles in
  prev ++ uniqueNewFiles.

(** [prev.filter((_, i) => i !== index)] *)
Fixpoint handleRemoveFile (prev : list File) (index : nat) : list File :=
  match prev, index with
  | [], _ => []
  | _ :: r, O => r
  | f :: r, S n => f :: handleRemoveFile r n
  end.

Definition canSubmit (files : list File) : bool :=
  (0 <? List.length files)%nat.

(** [handleSend()]: the arguments of [onSubmit], if it is called. *)
Definition handleSend (files : list File) (prompt : jsstring)
  : option (list File * jsstring) :=
  if negb (canSubmit files) then None else Some (files, trim prompt).

End HomePage.

Module App.
Import JS.

Inductive PageType := home | generate | history | session.

Record State := {
  page : PageType;
  files : list HomePage.File;
  prompt : jsstring;
  currentSessionId : option jsstring }.

Definition first_render : State :=
  {| page := home; files := []; prompt := []; currentSessionId := None |}.

Definition handleHomeSubmit (st : State) (f : list HomePage.File)
  (p : jsstring) : State :=
  {| page := generate; files := f; prompt := p;
     currentSessionId := currentSessionId st |}.

Definition setPage (st : State) (target : PageType) : State :=
  {| page := target; files := files st; prompt := prompt st;
     currentSessionId := currentSessionId st |}.

Definition handleNavigate (st : State) (target : PageType) : State :=
  setPage st target.

Definition handleOpenSession (st : State) (sessionId : jsstring) : State :=
  {| page := session; files := files st; prompt := prompt st;
     currentSessionId := Some sessionId |}.

Definition handleBackToHome (st : State) : State := setPage st home.

(** The page the component returns. *)
Inductive Rendered :=
| HistoryPage
| SessionPage (sessionId : jsstring)
| GeneratePage (files : list HomePage.File) (initialPrompt : jsstring)
| HomePage.

Definition render (st : State) : Rendered :=
  match page st, currentSessionId st, files st with
  | history, _, _ => HistoryPage
  | session, Some (c :: sessionId), _ => SessionPage (c :: sessionId)
  | generate, _, f :: r => GeneratePage (f :: r) (prompt st)
  | _, _, _ => HomePage
  end.

End App.

(* ================================================================== *)
(** ** Notions the statements use, and the inputs of the examples *)

Module Spec.
Import JS.

Definition x0a : byte := Byte.x0a.

(** The text a byte stream decodes to, read in one piece. *)
Definition decoded (bytes : list byte) : jsstring :=
  snd (TextDecoder.decode TextDecoder.fresh bytes).

(** The lines of a text that a newline ends, and what follows the last
    newline. *)
Definition complete_lines (t : jsstring) : list jsstring :=
  removelast (split Api.newline t).

Definition rest (t : jsstring) : jsstring :=
  last (split Api.newline t) [].

(** A stream cut in three at [i] and [k] bytes further. *)
Definition cut3 (i k : nat) (stream : list byte) : list (list byte) :=
  [firstn i stream; firstn k (skipn i stream); skipn k (skipn i stream)].

(** JSON in a literal, written with apostrophes for quotation marks. *)
Fixpoint quoted (s : string) : string :=
  match s with
  | EmptyString => EmptyString
  | String c r =>
      String (if Ascii.eqb c "'"%char then ascii_of_nat 34 else c) (quoted r)
  end.

(** The bytes of a line and its newline. *)
Definition line (s : string) : list byte :=
  TextDecoder.bytes_of (quoted s) ++ [x0a].

Definition json (s : string) : option jsval :=
  JSON.parse (TextDecoder.text (quoted s)).

Definition frame_hi : list byte :=
  line "data: {'type':'chunk','content':'hi'}".

Definition frame_done : list byte := line "data: {'type':'done'}".

(** Two frames with a blank line and a line that is no JSON between
    them. *)
Definition tolerant_stream : list byte :=
  frame_hi ++ line "" ++ line "data: not-json" ++ frame_done.

(** [event.k] of a parsed object. *)
Definition field (o : list (jsstring * jsval)) (k : string) : jsval :=
  get_opt (Obj o) (lit k).

(** The default of [event.message || "未知错误"]. *)
Definition unknown_error : jsval := Str (TextDecoder.text "未知错误").

(** The text of a line, as the loop hands it to the frame handling. *)
Definition line_text (s : string) : jsstring := TextDecoder.text (quoted s).

(** [onDone] and [onError] end a turn. *)
Definition is_terminal (c : Api.Callback) : bool :=
  match c with
  | Api.onChunk _ => false
  | Api.onDone _ | Api.onError _ => true
  end.

(** Frames that follow a [done] frame. *)
Definition after_done : list byte :=
  frame_done ++ frame_hi ++ frame_done
  ++ line "data: {'type':'error','message':'late'}".

(** The tokens of one file: one per selected sheet, or the file id. *)
Definition per_file (fileId : jsstring) (sheets : list jsstring)
  : list jsstring :=
  match sheets with
  | [] => [fileId]
  | _ :: _ => map (fun sheet => fileId ++ lit ":" ++ sheet) sheets
  end.

(** The delays [0, 300, ..., 300 (n - 1)]. *)
Definition offsets (n : nat) : list Z :=
  map (fun i => (300 * Z.of_nat i)%Z) (seq 0 n).

(** The record [handleInstanceReady] stores. *)
Definition record (messageId : jsstring) (instance : nat) (config : jsval)
  : ChatMessageList.ChartInstanceRef :=
  {| ChatMessageList.messageId := messageId;
     ChatMessageList.instance := instance;
     ChatMessageList.title := ChatMessageList.chart_title config |}.

(** A session page ready for a turn, with one workbook of two sheets. *)
Definition session0 : SessionPage.State :=
  {| SessionPage.sessionId := lit "s1";
     SessionPage.messages := [];
     SessionPage.loading := false;
     SessionPage.isStreaming := false;
     SessionPage.sessionDetail :=
       Some {| SessionPage.file_ids := Some [lit "f1"] |};
     SessionPage.fileInfos :=
       [{| SessionPage.file_id := lit "f1";
           SessionPage.filename := lit "book.xlsx";
           SessionPage.sheet_names := [lit "A"; lit "B"];
           SessionPage.selectedSheets := [] |}];
     SessionPage.dataSourceIds := [lit "f1"];
     SessionPage.requests := [] |}.

(** A generate page whose session is created. *)
Definition generate0 : GeneratePage.State :=
  {| GeneratePage.messages :=
       [ChatMessageList.message (lit "m1") ChatMessageList.assistant
          (lit "1 file")];
     GeneratePage.loading := false;
     GeneratePage.fileIds := [lit "f1"];
     GeneratePage.sessionId := Some (lit "s1");
     GeneratePage.fileInfos := [];
     GeneratePage.requests := [] |}.

(** Three charts registered in the order [a-1], [a-2], [a-3]. *)
Definition three_charts : ChatMessageList.ChartMap :=
  fst (ChatMessageList.handleInstanceReady
         (fst (ChatMessageList.handleInstanceReady
                 (fst (ChatMessageList.handleInstanceReady [] (lit "a-1") 0
                         (Obj [])))
                 (lit "a-2") 1 (Obj [])))
         (lit "a-3") 2 (Obj [])).

Definition is_error (ev : Turn.StreamEvent) : bool :=
  match ev with Turn.Error _ => true | _ => false end.

(** The last entry of a transcript. *)
Definition final (msgs : list ChatMessageList.ChatMessage)
  : ChatMessageList.ChatMessage :=
  last msgs (ChatMessageList.message [] ChatMessageList.user []).

(** How a turn failed: the message of the exception its call ended
    with, or else the message of the error event that came last. *)
Definition failure (out : Turn.Outcome) : option jsstring :=
  match Turn.thrown out with
  | Some e => Some (Turn.error_message e)
  | None =>
      match rev (Turn.events out) with
      | Turn.Error error :: _ => Some error
      | _ => None
      end
  end.



(** A failed fetch as a browser reports it. *)
Definition failed_fetch : Turn.Outcome :=
  {| Turn.events := [];
     Turn.thrown := Some (Api.ErrorObject (lit "Failed to fetch")) |}.

(** The outcome of the scenario: two chunks and a chart. *)
Definition totals : Turn.Outcome :=
  {| Turn.events :=
       [Turn.Chunk (lit "Here"); Turn.Chunk (lit " it is");
        Turn.Done (Obj [(lit "title", Obj [(lit "text", Str (lit "Totals"))])])];
     Turn.thrown := None |}.

(** An error frame as the only event. *)
Definition error_event : Turn.Outcome :=
  {| Turn.events := [Turn.Error (lit "boom")]; Turn.thrown := None |}.


(** The views the list component reaches: distinct keys in both maps,
    and every live instance made by an earlier [echarts.init]. *)
Definition wf_view (v : ChatMessageList.View) : Prop :=
  NoDup (map fst (ChatMessageList.chartInstances v))
  /\ NoDup (map fst (ChatMessageList.mounted v))
  /\ (forall h o, In (h, o) (ChatMessageList.live v) ->
                  (h < ChatMessageList.created v)%nat).

(** How many records the registry holds for an entry. *)
Definition records_for (m : ChatMessageList.ChartMap) (k : jsstring) : nat :=
  List.length (filter (fun kv => eqb (fst kv) k) m).

(** A chart of one message, mounted and not yet drawn. *)
Definition one_mounted : ChatMessageList.View :=
  ChatMessageList.mount ChatMessageList.empty_view (lit "a-1").

Definition bars : jsval :=
  Obj [(lit "title", Obj [(lit "text", Str (lit "Totals"))])].

Definition bars_wide : jsval :=
  Obj [(lit "title", Obj [(lit "text", Str (lit "Totals"))]);
       (lit "grid", Obj [(lit "top", Num (of_Z 120))])].

(** [safeConfig.grid.top] of a normalised option. *)
Definition top_of (safe : jsval) : jsval :=
  get_opt (get_opt safe (lit "grid")) (lit "top").

(** [safeConfig.legend.data] of the properties of a configuration. *)
Definition legend_data (o : list (jsstring * jsval)) : jsval :=
  get_opt (ChatMessageList.prop o (lit "legend")) (lit "data").

(** A radar chart with four legend items and a centre of its own. *)
Definition radar_own_centre : jsval :=
  Obj [(lit "radar",
        Obj [(lit "center", Arr [Str (lit "50%"); Str (lit "50%")])]);
       (lit "legend",
        Obj [(lit "data",
              Arr [Str (lit "a"); Str (lit "b"); Str (lit "c");
                   Str (lit "d")])])].

(** The frames of the scenario, the second cut in two chunks. *)
Definition scenario_chunks : list (list byte) :=
  [line "data: {'type':'chunk','content':'Here'}";
   firstn 20 (line "data: {'type':'chunk','content':' it is'}");
   skipn 20 (line "data: {'type':'chunk','content':' it is'}")
   ++ line "data: {'type':'done','chart_config':{'title':{'text':'Totals'}}}"].

(** The code unit of a hexadecimal digit, in lower case. *)
Definition hex_digit (d : N) : N :=
  if (d <? 10)%N then (0x30 + d)%N else (0x61 + (d - 10))%N.

Definition is_hex_digit (c : N) : bool :=
  ((0x30 <=? c)%N && (c <=? 0x39)%N) || ((0x61 <=? c)%N && (c <=? 0x66)%N).

(** The positions of the hyphens in an identifier. *)
Definition is_hyphen_place (i : nat) : bool :=
  existsb (Nat.eqb i) [8; 13; 18; 23]%nat.

(** Sixteen bytes any call of [crypto.getRandomValues] may give. *)
Definition sample_random : list byte :=
  [Byte.x00; Byte.x11; Byte.x22; Byte.x33; Byte.x44; Byte.x55; Byte.xff;
   Byte.x77; Byte.xff; Byte.x99; Byte.xaa; Byte.xbb; Byte.xcc; Byte.xdd;
   Byte.xee; Byte.x0f].

Definition other_random : list byte :=
  [Byte.x00; Byte.x11; Byte.x22; Byte.x33; Byte.x44; Byte.x55; Byte.x0f;
   Byte.x77; Byte.x3f; Byte.x99; Byte.xaa; Byte.xbb; Byte.xcc; Byte.xdd;
   Byte.xee; Byte.x0f].

(** The identifiers successive calls of [getClientId] return, the
    storage being changed by these calls only. *)
Fixpoint client_ids (stored : option jsstring) (randoms : list (list byte))
  : list jsstring :=
  match randoms with
  | [] => []
  | random :: later =>
      let '(clientId, stored) := Api.getClientId stored random in
      clientId :: client_ids stored later
  end.

(** How many newline bytes a stream holds. *)
Definition newline_bytes (bytes : list byte) : nat :=
  List.length (filter (Byte.eqb x0a) bytes).

(** How many newlines a text holds. *)
Definition newlines (t : jsstring) : nat :=
  List.length (filter (N.eqb Api.newline) t).

(** A line frame after a character of three bytes cut short. *)
Definition cut_short : list byte :=
  [Byte.xe4; Byte.xb8] ++ line "data: {'type':'done'}".

(** The lower boundary the decoder keeps is a continuation byte. *)
Definition continuing (d : TextDecoder.decoder) : Prop :=
  (0x80 <= TextDecoder.lower_boundary d)%N.

(** White space only. *)
Definition blank (s : jsstring) : bool := forallb is_whitespace s.

(** A code unit that is no backtick. *)
Definition plain (s : jsstring) : Prop := ~ In 0x60%N s.

(** A block [```json ... ```]. *)
Definition fenced (body : jsstring) : jsstring :=
  lit "```json" ++ body ++ lit "```".

(** Text with blocks in it: [t0], then each block followed by text. *)
Definition with_blocks (t0 : jsstring) (blocks : list (jsstring * jsstring))
  : jsstring :=
  t0 ++ List.concat (map (fun bt => fenced (fst bt) ++ snd bt) blocks).

(** The input bar of the session page: [ChatInput] with the props the
    page hands it. *)
Definition session_input (st : SessionPage.State) (value : jsstring)
  (now_a now_u : N) (out : Turn.Outcome) : SessionPage.State * jsstring :=
  match ChatInput.handleSend
          (SessionPage.loading st || SessionPage.isStreaming st) value with
  | (Some text, value') =>
      (SessionPage.handleSend st text now_a now_u out, value')
  | (None, value') => (st, value')
  end.

(** An answer with its chart repeated as a block, as the model writes
    it. *)
Definition answer_with_block : jsstring :=
  with_blocks (lit "Totals by month. ")
    [(line_text "{'series':[1,2]}", lit " Done.")].

(** A code unit a JSON string holds as it is: no quotation mark, no
    backslash, no control character. *)
Definition unescaped (c : N) : bool :=
  (0x20 <=? c)%N && negb (c =? 0x22)%N && negb (c =? 0x5C)%N.

(** The line of a frame of one kind with one field, whose text stands
    between the quotation marks. *)
Definition frame_line (kind field s : jsstring) : jsstring :=
  line_text "data: {'type':'" ++ kind ++ line_text "','" ++ field
  ++ line_text "':'" ++ s ++ line_text "'}".

Definition chunk_line (s : jsstring) : jsstring :=
  frame_line (lit "chunk") (lit "content") s.

Definition error_line (s : jsstring) : jsstring :=
  frame_line (lit "error") (lit "message") s.

Definition done_line : jsstring := line_text "data: {'type':'done'}".

(** The text of a chunk frame: not empty, and held as it is. *)
Definition chunk_text (s : jsstring) : Prop :=
  s <> [] /\ forallb unescaped s = true.

(** The events of chunk frames followed by a [done] frame. *)
Definition delivered (chunks : list jsstring) : Turn.Outcome :=
  {| Turn.events := map Turn.Chunk chunks ++ [Turn.Done Null];
     Turn.thrown := None |}.

(** What happens to the charts of a list: a [MessageChart] mounts, its
    first effect runs, the cleanup of its second effect runs while it
    stays mounted, or it unmounts. *)
Inductive Op :=
| Mount (messageId : jsstring)
| Effect (messageId : jsstring) (config : jsval)
| Cleanup (messageId : jsstring)
| Unmount (messageId : jsstring).

Definition view_step (v : ChatMessageList.View) (op : Op)
  : option ChatMessageList.View :=
  match op with
  | Mount k => Some (ChatMessageList.mount v k)
  | Effect k config => ChatMessageList.chart_effect v k config
  | Cleanup k => Some (ChatMessageList.cleanup v k)
  | Unmount k => Some (ChatMessageList.unmount v k)
  end.

Fixpoint view_run (v : ChatMessageList.View) (ops : list Op)
  : option ChatMessageList.View :=
  match ops with
  | [] => Some v
  | op :: r =>
      match view_step v op with
      | Some v' => view_run v' r
      | None => None
      end
  end.

(** [chartCount], the state of the page that [onChartInstancesChange]
    sets; it starts at 0. *)
Definition chartCount (v : ChatMessageList.View) : nat :=
  match ChatMessageList.reported v with Some n => n | None => 0%nat end.

(** The instance of a binding of the registry. *)
Definition handle (kv : jsstring * ChatMessageList.ChartInstanceRef) : nat :=
  ChatMessageList.instance (snd kv).

(** The registry names live instances only, each once and under the id
    of its record; a chart that holds an instance is registered with
    it; and the count reported is the size of the registry. *)
Definition sound (v : ChatMessageList.View) : Prop :=
  wf_view v
  /\ (forall k r, In (k, r) (ChatMessageList.chartInstances v) ->
        ChatMessageList.messageId r = k
        /\ exists o, In (ChatMessageList.instance r, o) (ChatMessageList.live v))
  /\ NoDup (map handle (ChatMessageList.chartInstances v))
  /\ (forall k h,
        ChatMessageList.assoc k (ChatMessageList.mounted v) = Some (Some h) ->
        exists r, In (k, r) (ChatMessageList.chartInstances v)
                  /\ ChatMessageList.instance r = h)
  /\ chartCount v = List.length (ChatMessageList.chartInstances v).

(** Two charts drawn, the first redrawn after a cleanup, the second
    removed. *)
Definition two_charts : list Op :=
  [Mount (lit "a-1"); Effect (lit "a-1") bars;
   Mount (lit "a-2"); Effect (lit "a-2") bars_wide;
   Cleanup (lit "a-1"); Effect (lit "a-1") bars;
   Unmount (lit "a-2")].

(** The keys of an object, in their order. *)
Definition keys (v : jsval) : list jsstring := map fst (own_props v).

(** A radar chart with five legend items. *)
Definition radar_five : jsval :=
  Obj [(lit "series", Arr [Num (of_Z 1); Num (of_Z 2)]);
       (lit "radar", Obj []);
       (lit "legend",
        Obj [(lit "data",
              Arr [Str (lit "a"); Str (lit "b"); Str (lit "c");
                   Str (lit "d"); Str (lit "e")])])].

(** A file info of the session page with another selection. *)
Definition reselected (info : SessionPage.RestoredFileInfo)
  (sheets : list jsstring) : SessionPage.RestoredFileInfo :=
  {| SessionPage.file_id := SessionPage.file_id info;
     SessionPage.filename := SessionPage.filename info;
     SessionPage.sheet_names := SessionPage.sheet_names info;
     SessionPage.selectedSheets := sheets |}.

(** The tokens of some files of the session page. *)
Definition tokens_of (infos : list SessionPage.RestoredFileInfo)
  : list jsstring :=
  flat_map (fun info => per_file (SessionPage.file_id info)
                          (SessionPage.selectedSheets info)) infos.

(** A session page with two files, the first a workbook. *)
Definition session_two_files : SessionPage.State :=
  {| SessionPage.sessionId := lit "s1";
     SessionPage.messages := [];
     SessionPage.loading := false;
     SessionPage.isStreaming := false;
     SessionPage.sessionDetail :=
       Some {| SessionPage.file_ids := Some [lit "f1"; lit "f2"] |};
     SessionPage.fileInfos :=
       [{| SessionPage.file_id := lit "f1";
           SessionPage.filename := lit "book.xlsx";
           SessionPage.sheet_names := [lit "A"; lit "B"];
           SessionPage.selectedSheets := [lit "A"] |};
        {| SessionPage.file_id := lit "f2";
           SessionPage.filename := lit "data.csv";
           SessionPage.sheet_names := [];
           SessionPage.selectedSheets := [] |}];
     SessionPage.dataSourceIds := [lit "f1:A"; lit "f2"];
     SessionPage.requests := [] |}.

(** What happens on the session page: the session is loaded, a sheet
    selection changes, a text is sent. *)
Inductive SessionEvent :=
| Loaded (cancelled : bool)
         (fetched : Api.Thrown + SessionApi.SessionDetail)
| SheetsChanged (fileIndex : nat) (newSheets : list jsstring)
                (selected : Api.Thrown + list SessionApi.SheetData) (now : N)
| Sent (text : jsstring) (now_a now_u : N) (out : Turn.Outcome).

Definition session_step (st : SessionPage.State) (ev : SessionEvent)
  : option SessionPage.State :=
  match ev with
  | Loaded cancelled fetched =>
      Some (SessionPage.loadSession st cancelled fetched)
  | SheetsChanged fileIndex newSheets selected now =>
      SessionPage.handleSheetsChange_awaited st fileIndex newSheets selected
        now
  | Sent text now_a now_u out =>
      Some (SessionPage.handleSend st text now_a now_u out)
  end.

Fixpoint session_run (st : SessionPage.State) (evs : list SessionEvent)
  : option SessionPage.State :=
  match evs with
  | [] => Some st
  | ev :: r =>
      match session_step st ev with
      | Some st' => session_run st' r
      | None => None
      end
  end.

(** The tokens of the files a session page holds. *)
Definition session_tokens (st : SessionPage.State) : list jsstring :=
  tokens_of (SessionPage.fileInfos st).

(** A stored session: one workbook with the sheet B selected, and a
    question with its answer. *)
Definition stored_session : SessionApi.SessionDetail :=
  {| SessionApi.title := Some (lit "Totals");
     SessionApi.file_ids := Some [lit "f1"];
     SessionApi.file_metadata :=
       Some [{| SessionApi.file_id := lit "f1";
                SessionApi.filename := lit "book.xlsx";
                SessionApi.sheet_names := Some [lit "A"; lit "B"];
                SessionApi.selected_sheets := Some [lit "B"] |}];
     SessionApi.messages :=
       [{| SessionApi.id := 7; SessionApi.role := ChatMessageList.user;
           SessionApi.content := lit "plot"; SessionApi.chart_config := Null |};
        {| SessionApi.id := 8; SessionApi.role := ChatMessageList.assistant;
           SessionApi.content := lit "Here"; SessionApi.chart_config := bars |}]
  |}.

(** The state a session page keeps between its handlers: the ids are
    those of the files held, no turn is in flight, and every request
    sent names the session of the page. *)
Definition session_at_rest (sessionId : jsstring) (st : SessionPage.State)
  : Prop :=
  SessionPage.dataSourceIds st = session_tokens st
  /\ SessionPage.sessionId st = sessionId
  /\ SessionPage.isStreaming st = false
  /\ Forall (fun r => SessionPage.session_id r = sessionId)
            (SessionPage.requests st).

(** A session is loaded, the sheet A is added to the selection, and a
    question is sent. *)
Definition session_story : list SessionEvent :=
  [Loaded false (inr stored_session);
   SheetsChanged 0 [lit "B"; lit "A"]
     (inr [{| SessionApi.sheet_name := lit "B"; SessionApi.rows := 3 |};
           {| SessionApi.sheet_name := lit "A"; SessionApi.rows := 5 |}])
     1500;
   Sent (lit "plot") 1000 1001 totals].

Definition is_sent (ev : SessionEvent) : bool :=
  match ev with Sent _ _ _ _ => true | _ => false end.

(** What happens on the generate page after its effect has run: a sheet
    selection changes, a text is sent. *)
Inductive GenerateEvent :=
| GSheetsChanged (fileIndex : nat) (newSelectedSheets : list jsstring)
                 (selected : Api.Thrown + list SessionApi.SheetData) (now : N)
| GSent (text : jsstring) (now_a now_u : N) (out : Turn.Outcome).

Definition generate_step (st : GeneratePage.State) (ev : GenerateEvent)
  : GeneratePage.State :=
  match ev with
  | GSheetsChanged fileIndex newSelectedSheets selected now =>
      GeneratePage.handleSheetsChange_awaited st fileIndex newSelectedSheets
        selected now
  | GSent text now_a now_u out =>
      GeneratePage.handleSend st text now_a now_u out
  end.

Definition generate_run (st : GeneratePage.State) (evs : list GenerateEvent)
  : GeneratePage.State :=
  fold_left generate_step evs st.

(** The tokens of the files a generate page holds. *)
Definition generate_tokens (st : GeneratePage.State) : list jsstring :=
  flat_map
    (fun fi => per_file (GeneratePage.file_id (GeneratePage.uploadResult fi))
                 (GeneratePage.selectedSheets fi))
    (GeneratePage.fileInfos st).

(** A workbook of two sheets uploaded with its first sheet selected,
    and a file without sheets. *)
Definition two_uploads : list GeneratePage.Uploaded :=
  [{| GeneratePage.res :=
        {| GeneratePage.file_id := lit "f1";
           GeneratePage.filename := lit "book.xlsx";
           GeneratePage.sheet_names := Some [lit "A"; lit "B"];
           GeneratePage.selected_sheet := Some (lit "A") |};
      GeneratePage.rows := 3; GeneratePage.columns := [lit "x"; lit "y"] |};
   {| GeneratePage.res :=
        {| GeneratePage.file_id := lit "f2";
           GeneratePage.filename := lit "data.csv";
           GeneratePage.sheet_names := None;
           GeneratePage.selected_sheet := None |};
      GeneratePage.rows := 9; GeneratePage.columns := [lit "x"] |}].

(** The page after the effect has run for these two files and no
    prompt. *)
Definition generated : GeneratePage.State :=
  GeneratePage.init GeneratePage.first_render
    [lit "book.xlsx"; lit "data.csv"] [] (inr two_uploads) (inr (lit "s1"))
    None failed_fetch.

(** What the user does with the files on the home page: files are
    picked, or the file at an index is removed. *)
Inductive HomeEvent :=
| Picked (newFiles : list HomePage.File)
| Removed (index : nat).

Definition home_step (files : list HomePage.File) (ev : HomeEvent)
  : list HomePage.File :=
  match ev with
  | Picked newFiles => HomePage.handleFilesChange files newFiles
  | Removed index => HomePage.handleRemoveFile files index
  end.

(** A pick holds no two files of one name. *)
Definition distinct_pick (ev : HomeEvent) : Prop :=
  match ev with
  | Picked newFiles => NoDup (map HomePage.name newFiles)
  | Removed _ => True
  end.

(** What the pages make [App] do: the home page submits, the side bar
    navigates, the history opens a session, a page goes back ([onBack]
    of the generate page leads home, that of the session page to the
    history). *)
Inductive AppEvent :=
| Submit (f : list HomePage.File) (p : jsstring)
| Navigate (history : bool)
| OpenSession (sessionId : jsstring)
| BackToHome
| BackToHistory.

Definition app_step (st : App.State) (ev : AppEvent) : App.State :=
  match ev with
  | Submit f p => App.handleHomeSubmit st f p
  | Navigate history =>
      App.handleNavigate st (if history then App.history else App.home)
  | OpenSession sessionId => App.handleOpenSession st sessionId
  | BackToHome => App.handleBackToHome st
  | BackToHistory => App.setPage st App.history
  end.

(** The home page submits files it holds, at least one; the history
    opens sessions it lists, whose ids are not empty. *)
Definition from_the_pages (ev : AppEvent) : Prop :=
  match ev with
  | Submit f p => exists files prompt,
                    HomePage.handleSend files prompt = Some (f, p)
  | OpenSession sessionId => sessionId <> []
  | _ => True
  end.

Definition a_file (name : string) : HomePage.File :=
  {| HomePage.name := lit name; HomePage.bytes := [] |}.

(** The tasks that can run on the session page while a turn is in
    flight: the callbacks of the turn, and the answers to selections
    changed before it began (the selectors are disabled meanwhile). *)
Definition in_turn (t : SessionPage.Task) : bool :=
  match t with
  | SessionPage.callback _ | SessionPage.answered _ _ _ => true
  | _ => false
  end.

(** The events of the callbacks among some tasks, in order. *)
Definition events_of (tasks : list SessionPage.Task)
  : list Turn.StreamEvent :=
  flat_map (fun t => match t with
                     | SessionPage.callback ev => [ev]
                     | _ => []
                     end) tasks.

(** The text of the chunks among some events. *)
Definition text_of (evs : list Turn.StreamEvent) : jsstring :=
  flat_map (fun ev => match ev with Turn.Chunk c => c | _ => [] end) evs.

(** The entry a callback of [handleSend] writes when the chunks that
    came before it have the text [earlier]. *)
Definition entry_written (assistantMsgId earlier : jsstring)
  (ev : Turn.StreamEvent) : ChatMessageList.ChatMessage :=
  match ev with
  | Turn.Chunk c =>
      ChatMessageList.message assistantMsgId ChatMessageList.assistant
        (earlier ++ c)
  | Turn.Done chartConfig =>
      {| ChatMessageList.id := assistantMsgId;
         ChatMessageList.role := ChatMessageList.assistant;
         ChatMessageList.content := earlier;
         ChatMessageList.chartConfig := Turn.chart_or_undefined chartConfig;
         ChatMessageList.isLoading := None |}
  | Turn.Error error =>
      ChatMessageList.message assistantMsgId ChatMessageList.assistant
        (TextDecoder.text "生成失败：" ++ error)
  end.

(** The tasks of one turn: [handleSend] is called, [middle] runs while
    it awaits, and the call ends. *)
Definition turn_tasks (text : jsstring) (now_a now_u : N)
  (middle : list SessionPage.Task) (thrown : option Api.Thrown)
  : list SessionPage.Task :=
  SessionPage.send text now_a now_u :: middle ++ [SessionPage.returned thrown].

(** What the server answers for the two sheets of the workbook. *)
Definition two_sheets : list SessionApi.SheetData :=
  [{| SessionApi.sheet_name := lit "A"; SessionApi.rows := 3 |};
   {| SessionApi.sheet_name := lit "B"; SessionApi.rows := 5 |}].

(** The page of [session_two_files] after the sheet B of its workbook
    was added to the selection, the server not having answered yet. *)
Definition awaiting_answer : SessionPage.Page :=
  {| SessionPage.state :=
       {| SessionPage.sessionId := lit "s1";
          SessionPage.messages := [];
          SessionPage.loading := false;
          SessionPage.isStreaming := false;
          SessionPage.sessionDetail :=
            Some {| SessionPage.file_ids := Some [lit "f1"; lit "f2"] |};
          SessionPage.fileInfos :=
            [{| SessionPage.file_id := lit "f1";
                SessionPage.filename := lit "book.xlsx";
                SessionPage.sheet_names := [lit "A"; lit "B"];
                SessionPage.selectedSheets := [lit "A"; lit "B"] |};
             {| SessionPage.file_id := lit "f2";
                SessionPage.filename := lit "data.csv";
                SessionPage.sheet_names := [];
                SessionPage.selectedSheets := [] |}];
          SessionPage.dataSourceIds := [lit "f1:A"; lit "f1:B"; lit "f2"];
          SessionPage.requests := [] |};
     SessionPage.turn := None;
     SessionPage.awaited := [[lit "A"; lit "B"]] |}.

(** The sheet B is added to the selection of the workbook and a
    question is sent before the server has answered; the answer arrives
    first, then the stream: a chunk and a [done] frame. *)
Definition late_answer : list SessionPage.Task :=
  [SessionPage.change 0 [lit "A"; lit "B"];
   SessionPage.send (lit "plot totals") 1000 1001;
   SessionPage.answered 0 (inr two_sheets) 1500;
   SessionPage.callback (Turn.Chunk (lit "Here"));
   SessionPage.callback (Turn.Done Null);
   SessionPage.returned None].

(** The input bar of the session page, with the calls of the page in
    flight: [ChatInput] with the props the page hands it, and
    [handleSend] up to its [await]. *)
Definition session_enter (p : SessionPage.Page) (value : jsstring)
  (now_a now_u : N) : option SessionPage.Page * jsstring :=
  let st := SessionPage.state p in
  match ChatInput.handleSend
          (SessionPage.loading st || SessionPage.isStreaming st) value with
  | (Some text, value') =>
      (SessionPage.task p (SessionPage.send text now_a now_u), value')
  | (None, value') => (Some p, value')
  end.

(** The page an event asks [App] for. *)
Definition asked (ev : AppEvent) : App.Rendered :=
  match ev with
  | Submit f p => App.GeneratePage f p
  | Navigate history => if history then App.HistoryPage else App.HomePage
  | OpenSession sessionId => App.SessionPage sessionId
  | BackToHome => App.HomePage
  | BackToHistory => App.HistoryPage
  end.

(** A frame in two chunks, and bytes that no newline follows. *)
Definition hi_in_two : list (list byte) :=
  [firstn 17 frame_hi; skipn 17 frame_hi].

Definition unfinished : list byte :=
  TextDecoder.bytes_of (quoted "data: {'type':'chunk','content':'lost'}").

End Spec.

(* ================================================================== *)
(** * Properties *)

(** ** Strings and lines *)

Lemma eqb_eq (a b : JS.jsstring) : JS.eqb a b = true <-> a = b.
Proof.
  revert b; induction a as [|x a IH]; intros [|y b]; simpl;
    try (split; [discriminate | congruence]); try tauto.
  rewrite andb_true_iff, N.eqb_eq, IH.
  split; [intros [-> ->]; reflexivity | intros H; inversion H; auto].
Qed.

Lemma eqb_refl (a : JS.jsstring) : JS.eqb a a = true.
Proof. apply eqb_eq; reflexivity. Qed.

Lemma eqb_neq (a b : JS.jsstring) : JS.eqb a b = false <-> a <> b.
Proof.
  rewrite <- eqb_eq. destruct (JS.eqb a b); split; congruence.
Qed.

Lemma split_not_nil sep s : JS.split sep s <> [].
Proof.
  destruct s as [|c r]; simpl; [discriminate|].
  destruct (N.eqb c sep); [discriminate|].
  destruct (JS.split sep r); discriminate.
Qed.

Lemma split_lines_rest t :
  JS.split Api.newline t = Spec.complete_lines t ++ [Spec.rest t].
Proof.
  unfold Spec.complete_lines, Spec.rest.
  apply app_removelast_last, split_not_nil.
Qed.

Lemma lines_rest_cons c t :
  (Spec.complete_lines (c :: t), Spec.rest (c :: t)) =
  if N.eqb c Api.newline
  then ([] :: Spec.complete_lines t, Spec.rest t)
  else match Spec.complete_lines t with
       | [] => ([], c :: Spec.rest t)
       | l :: ls => ((c :: l) :: ls, Spec.rest t)
       end.
Proof.
  unfold Spec.complete_lines, Spec.rest.
  pose proof (split_not_nil Api.newline t) as NE.
  cbn [JS.split].
  destruct (N.eqb c Api.newline).
  - destruct (JS.split Api.newline t) as [|l ls]; [congruence|].
    reflexivity.
  - destruct (JS.split Api.newline t) as [|l [|y ls]]; [congruence| |];
      reflexivity.
Qed.

Lemma complete_lines_cons c t :
  Spec.complete_lines (c :: t) =
  if N.eqb c Api.newline then [] :: Spec.complete_lines t
  else match Spec.complete_lines t with
       | [] => []
       | l :: ls => (c :: l) :: ls
       end.
Proof.
  pose proof (f_equal fst (lines_rest_cons c t)) as H. simpl in H.
  rewrite H. destruct (N.eqb c Api.newline); [reflexivity|].
  destruct (Spec.complete_lines t); reflexivity.
Qed.

Lemma rest_cons c t :
  Spec.rest (c :: t) =
  if N.eqb c Api.newline then Spec.rest t
  else match Spec.complete_lines t with
       | [] => c :: Spec.rest t
       | _ :: _ => Spec.rest t
       end.
Proof.
  pose proof (f_equal snd (lines_rest_cons c t)) as H. simpl in H.
  rewrite H. destruct (N.eqb c Api.newline); [reflexivity|].
  destruct (Spec.complete_lines t); reflexivity.
Qed.

(** Splitting a text that arrives in two pieces: the lines of the first
    piece, then the lines of what the first piece left followed by the
    second piece. *)
Lemma lines_app a b :
  Spec.complete_lines (a ++ b) =
    Spec.complete_lines a ++ Spec.complete_lines (Spec.rest a ++ b)
  /\ Spec.rest (a ++ b) = Spec.rest (Spec.rest a ++ b).
Proof.
  induction a as [|c a [IH1 IH2]]; [split; reflexivity|].
  rewrite <- app_comm_cons, !complete_lines_cons, !rest_cons, IH1, IH2.
  destruct (N.eqb c Api.newline) eqn:E; [split; reflexivity|].
  destruct (Spec.complete_lines a) as [|l ls]; cbn [app].
  - rewrite complete_lines_cons, rest_cons, E.
    destruct (Spec.complete_lines (Spec.rest a ++ b)); split; reflexivity.
  - split; reflexivity.
Qed.

Lemma no_newline_no_line t :
  ~ In Api.newline t -> Spec.complete_lines t = [] /\ Spec.rest t = t.
Proof.
  induction t as [|c t IH]; intros H; [split; reflexivity|].
  rewrite complete_lines_cons, rest_cons.
  destruct (N.eqb c Api.newline) eqn:E.
  - apply N.eqb_eq in E. exfalso; apply H; left; auto.
  - destruct IH as [-> ->]; [intros Hin; apply H; right; exact Hin|].
    split; reflexivity.
Qed.

(** ** The decoder reads a stream byte by byte *)

Lemma decode_app d a b :
  TextDecoder.decode d (a ++ b) =
  let '(d1, s1) := TextDecoder.decode d a in
  let '(d2, s2) := TextDecoder.decode d1 b in
  (d2, s1 ++ s2).
Proof.
  revert d; induction a as [|x a IH]; intros d; simpl.
  - destruct (TextDecoder.decode d b); reflexivity.
  - destruct (TextDecoder.decode_byte d x) as [d1 s1].
    rewrite IH.
    destruct (TextDecoder.decode d1 a) as [d2 s2].
    destruct (TextDecoder.decode d2 b) as [d3 s3].
    rewrite app_assoc; reflexivity.
Qed.

Lemma rest_no_newline t : ~ In Api.newline (Spec.rest t).
Proof.
  induction t as [|c t IH]; [intros []|].
  rewrite rest_cons. destruct (N.eqb c Api.newline) eqn:E; [exact IH|].
  destruct (Spec.complete_lines t); [|exact IH].
  intros [H|H]; [|exact (IH H)].
  apply N.eqb_neq in E. congruence.
Qed.

(** The read loop from a state whose buffer holds no newline: it calls
    back for the lines completed by the buffer followed by the text of
    all the chunks, and keeps what follows the last newline. *)
Lemma read_loop_spec cs : forall st,
  ~ In Api.newline (Api.buffer st) ->
  Api.read_loop st cs =
    ({| Api.decoder := fst (TextDecoder.decode (Api.decoder st) (List.concat cs));
        Api.buffer :=
          Spec.rest (Api.buffer st ++
                     snd (TextDecoder.decode (Api.decoder st) (List.concat cs))) |},
     flat_map Api.process_line
       (Spec.complete_lines
          (Api.buffer st ++
           snd (TextDecoder.decode (Api.decoder st) (List.concat cs))))).
Proof.
  induction cs as [|c cs IH]; intros [d0 buf] Hbuf;
    cbn [List.concat Api.read_loop Api.decoder Api.buffer] in *.
  - cbn [TextDecoder.decode fst snd]. rewrite app_nil_r.
    destruct (no_newline_no_line buf Hbuf) as [-> ->]. reflexivity.
  - unfold Api.on_read. cbn [Api.decoder Api.buffer].
    rewrite decode_app.
    destruct (TextDecoder.decode d0 c) as [d1 s1].
    rewrite IH by apply rest_no_newline.
    cbn [Api.decoder Api.buffer].
    destruct (TextDecoder.decode d1 (List.concat cs)) as [d2 s2].
    cbn [fst snd].
    destruct (lines_app (buf ++ s1) s2) as [L R].
    rewrite app_assoc, L, R, flat_map_app. reflexivity.
Qed.

Lemma calls_of_spec cs :
  Api.calls_of cs =
  flat_map Api.process_line
    (Spec.complete_lines (Spec.decoded (List.concat cs))).
Proof.
  unfold Api.calls_of, Api.streaming, Api.sendChatMessageStream.
  cbn [Api.ok Api.body Api.chunks Api.read_failure negb fst snd].
  rewrite read_loop_spec by (intros []). reflexivity.
Qed.

(** ** A newline in the text comes from a newline byte *)

(** The states the decoder reaches: inside a sequence the code point
    read so far is not zero, or the boundaries force the next byte to
    make it so. *)
Definition started (d : TextDecoder.decoder) : Prop :=
  (TextDecoder.upper_boundary d <= 0xBF)%N
  /\ (TextDecoder.bytes_needed d = 0%N -> TextDecoder.bytes_seen d = 0%N)
  /\ (TextDecoder.bytes_needed d <> 0%N ->
      TextDecoder.code_point d <> 0%N
      \/ ((TextDecoder.bytes_seen d + 2 <= TextDecoder.bytes_needed d)%N
          /\ (0x90 <= TextDecoder.lower_boundary d)%N)).

Lemma started_fresh : started TextDecoder.fresh.
Proof. unfold started; cbn; repeat split; try lia; congruence. Qed.

Lemma started_reset d : started (TextDecoder.reset d).
Proof. unfold started; cbn; repeat split; try lia; congruence. Qed.

Lemma lor_shift_high cp x v :
  cp <> 0%N -> (v < 64)%N -> N.lor (N.shiftl cp 6) x <> v.
Proof.
  intros Hcp Hv E.
  apply (f_equal (fun n => N.shiftr n 6)) in E.
  rewrite N.shiftr_lor, N.shiftr_shiftl_l, N.sub_diag, N.shiftl_0_r in E
    by reflexivity.
  assert (Z : N.shiftr v 6 = 0%N).
  { rewrite N.shiftr_div_pow2. apply N.div_small. exact Hv. }
  rewrite Z in E. apply N.lor_eq_0_iff in E. tauto.
Qed.

Lemma low6_nonzero (b : byte) :
  TextDecoder.between 0x90 (Byte.to_N b) 0xBF = true ->
  N.land (Byte.to_N b) 0x3F <> 0%N.
Proof. destruct b; vm_compute; congruence. Qed.

Lemma lead_2 (b : byte) :
  TextDecoder.between 0xC2 (Byte.to_N b) 0xDF = true ->
  N.land (Byte.to_N b) 0x1F <> 0%N.
Proof. destruct b; vm_compute; congruence. Qed.

Lemma lead_3 (b : byte) :
  TextDecoder.between 0xE0 (Byte.to_N b) 0xEF = true ->
  (Byte.to_N b =? 0xE0)%N = false ->
  N.land (Byte.to_N b) 0xF <> 0%N.
Proof. destruct b; vm_compute; congruence. Qed.

Lemma lead_4 (b : byte) :
  TextDecoder.between 0xF0 (Byte.to_N b) 0xF4 = true ->
  (Byte.to_N b =? 0xF0)%N = false ->
  N.land (Byte.to_N b) 0x7 <> 0%N.
Proof. destruct b; vm_compute; congruence. Qed.

Lemma ascii_newline (b : byte) :
  Byte.to_N b = 0x0A%N -> b = Spec.x0a.
Proof. destruct b; vm_compute; congruence. Qed.

Lemma lead_started d (b : byte) :
  started d -> TextDecoder.bytes_needed d = 0%N ->
  started (fst (TextDecoder.lead d (Byte.to_N b)))
  /\ (b <> Spec.x0a -> ~ In 0x0A%N (snd (TextDecoder.lead d (Byte.to_N b)))).
Proof.
  intros Hd Hn. pose proof Hd as (Hup & Hs & _). specialize (Hs Hn).
  unfold TextDecoder.lead.
  destruct (TextDecoder.between 0 (Byte.to_N b) 127) eqn:B1.
  { split; [exact Hd|]. cbn. intros Hb [E|[]].
    apply Hb, ascii_newline; auto. }
  destruct (TextDecoder.between 194 (Byte.to_N b) 223) eqn:B2.
  { split; [|intros _ []]. repeat split; cbn; [exact Hup|discriminate|].
    intros _. left. apply lead_2; exact B2. }
  destruct (TextDecoder.between 224 (Byte.to_N b) 239) eqn:B3.
  { split; [|intros _ []]. repeat split; cbn; [|discriminate|].
    - destruct (Byte.to_N b =? 237)%N; [lia | exact Hup].
    - intros _. destruct (Byte.to_N b =? 224)%N eqn:E0.
      + right. rewrite Hs. split; lia.
      + left. apply lead_3; auto. }
  destruct (TextDecoder.between 240 (Byte.to_N b) 244) eqn:B4.
  { split; [|intros _ []]. repeat split; cbn; [|discriminate|].
    - destruct (Byte.to_N b =? 244)%N; [lia | exact Hup].
    - intros _. destruct (Byte.to_N b =? 240)%N eqn:E0.
      + right. rewrite Hs. split; lia.
      + left. apply lead_4; auto. }
  split; [exact Hd|]. cbn. intros _ [E|[]]. discriminate.
Qed.

Lemma continuation_nonzero d (b : byte) :
  started d -> TextDecoder.bytes_needed d <> 0%N ->
  TextDecoder.between (TextDecoder.lower_boundary d) (Byte.to_N b)
    (TextDecoder.upper_boundary d) = true ->
  (TextDecoder.code_point d <> 0%N
   /\ forall v, (v < 64)%N ->
        N.lor (N.shiftl (TextDecoder.code_point d) 6)
              (N.land (Byte.to_N b) 0x3F) <> v)
  \/ ((TextDecoder.bytes_seen d + 2 <= TextDecoder.bytes_needed d)%N
      /\ N.lor (N.shiftl (TextDecoder.code_point d) 6)
               (N.land (Byte.to_N b) 0x3F) <> 0%N).
Proof.
  intros (Hup & _ & Hst) Hn Hb. destruct (Hst Hn) as [Hcp|[Hseen Hlow]].
  - left. split; [exact Hcp|]. intros v Hv. apply lor_shift_high; auto.
  - right. split; [exact Hseen|]. intros E.
    apply N.lor_eq_0_iff in E. destruct E as [_ E].
    revert E. apply low6_nonzero.
    unfold TextDecoder.between in *.
    apply andb_true_iff in Hb. destruct Hb as [H1 H2].
    apply N.leb_le in H1, H2.
    apply andb_true_iff; split; apply N.leb_le; lia.
Qed.

Lemma handler_started d (b : byte) :
  started d ->
  started (fst (TextDecoder.handler d (Byte.to_N b)))
  /\ (b <> Spec.x0a ->
      ~ In 0x0A%N (snd (TextDecoder.handler d (Byte.to_N b)))).
Proof.
  intros Hd. unfold TextDecoder.handler.
  destruct (TextDecoder.bytes_needed d =? 0)%N eqn:N0.
  { apply N.eqb_eq in N0. apply lead_started; auto. }
  apply N.eqb_neq in N0.
  destruct (TextDecoder.between (TextDecoder.lower_boundary d) (Byte.to_N b)
              (TextDecoder.upper_boundary d)) eqn:B; cbn [negb].
  - destruct (continuation_nonzero d b Hd N0 B) as [[Hcp Hv]|[Hseen Hnz]].
    + destruct (TextDecoder.bytes_seen d + 1 =? TextDecoder.bytes_needed d)%N
        eqn:F; cbn [negb fst snd].
      * split; [apply started_reset|]. intros _ [E|[]].
        revert E. apply Hv. reflexivity.
      * split; [|intros _ []]. repeat split; cbn; [lia|congruence|].
        intros _. left. apply Hv. reflexivity.
    + destruct (TextDecoder.bytes_seen d + 1 =? TextDecoder.bytes_needed d)%N
        eqn:F; cbn [negb fst snd].
      * apply N.eqb_eq in F. lia.
      * split; [|intros _ []]. repeat split; cbn; [lia|congruence|].
        intros _. left. exact Hnz.
  - destruct (lead_started (TextDecoder.reset d) b (started_reset d)
                eq_refl) as [H1 H2].
    destruct (TextDecoder.lead (TextDecoder.reset d) (Byte.to_N b)) as [d' out].
    cbn [fst snd] in *. split; [exact H1|].
    intros Hb [E|H]; [discriminate | exact (H2 Hb H)].
Qed.

Lemma utf16_no_newline cp : cp <> 0x0A%N -> ~ In 0x0A%N (TextDecoder.utf16 cp).
Proof.
  intros H. unfold TextDecoder.utf16.
  destruct (cp <? 65536)%N; unfold In.
  - intros [E|[]]. congruence.
  - intros [E|[E|[]]]; lia.
Qed.

Lemma serialize_no_newline cps : forall seen,
  ~ In 0x0A%N cps -> ~ In 0x0A%N (snd (TextDecoder.serialize seen cps)).
Proof.
  induction cps as [|cp r IH]; intros seen H; cbn; [tauto|].
  specialize (IH true (fun X => H (or_intror X))).
  destruct (TextDecoder.serialize true r) as [s' out]. cbn [snd] in IH.
  destruct (negb seen && (cp =? 65279)%N); cbn [snd]; [exact IH|].
  intros Hin. apply in_app_or in Hin. destruct Hin as [Hin|Hin]; [|tauto].
  revert Hin. apply utf16_no_newline. intros E. apply H. left; auto.
Qed.

Lemma decode_byte_started d (b : byte) :
  started d ->
  started (fst (TextDecoder.decode_byte d b))
  /\ (b <> Spec.x0a -> ~ In Api.newline (snd (TextDecoder.decode_byte d b))).
Proof.
  intros Hd. unfold TextDecoder.decode_byte.
  destruct (handler_started d b Hd) as [H1 H2].
  destruct (TextDecoder.handler d (Byte.to_N b)) as [d' cps].
  cbn [fst snd] in *.
  pose proof (serialize_no_newline cps (TextDecoder.bom_seen d')) as H3.
  destruct (TextDecoder.serialize (TextDecoder.bom_seen d') cps) as [s out].
  cbn [fst snd] in *. split; [|intros Hb; apply H3, H2, Hb].
  destruct H1 as (U & S0 & C). repeat split; cbn; auto.
Qed.

Lemma decode_started bytes : forall d,
  started d ->
  started (fst (TextDecoder.decode d bytes))
  /\ (~ In Spec.x0a bytes ->
      ~ In Api.newline (snd (TextDecoder.decode d bytes))).
Proof.
  induction bytes as [|b r IH]; intros d Hd; cbn [TextDecoder.decode].
  - split; [exact Hd | intros _ []].
  - destruct (decode_byte_started d b Hd) as [H1 H2].
    destruct (TextDecoder.decode_byte d b) as [d1 s1]. cbn [fst snd] in *.
    destruct (IH d1 H1) as [H3 H4].
    destruct (TextDecoder.decode d1 r) as [d2 s2]. cbn [fst snd] in *.
    split; [exact H3|]. intros Hno Hin.
    apply in_app_or in Hin. destruct Hin as [Hin|Hin].
    + apply H2 in Hin; auto. intros ->. apply Hno. left; reflexivity.
    + apply H4 in Hin; auto. intros X. apply Hno. right; exact X.
Qed.

(** ** C1: the callbacks do not depend on the chunking *)

Lemma cut3_concat i k (stream : list byte) :
  List.concat (Spec.cut3 i k stream) = stream.
Proof.
  unfold Spec.cut3. cbn [List.concat]. rewrite app_nil_r.
  rewrite firstn_skipn. apply firstn_skipn.
Qed.

Lemma unread_tail cs tail :
  ~ In Spec.x0a tail -> Api.calls_of (cs ++ [tail]) = Api.calls_of cs.
Proof.
  intros Hno. rewrite !calls_of_spec, concat_app. cbn [List.concat].
  rewrite app_nil_r. unfold Spec.decoded. rewrite decode_app.
  destruct (decode_started (List.concat cs) TextDecoder.fresh started_fresh)
    as [Hd _].
  destruct (TextDecoder.decode TextDecoder.fresh (List.concat cs)) as [d1 t1].
  cbn [fst snd] in *.
  destruct (decode_started tail d1 Hd) as [_ Ht]. specialize (Ht Hno).
  destruct (TextDecoder.decode d1 tail) as [d2 t2]. cbn [fst snd] in *.
  destruct (lines_app t1 t2) as [-> _].
  assert (Hr : ~ In Api.newline (Spec.rest t1 ++ t2)).
  { intros Hin. apply in_app_or in Hin. destruct Hin as [Hin|Hin].
    - exact (rest_no_newline t1 Hin).
    - exact (Ht Hin). }
  destruct (no_newline_no_line _ Hr) as [-> _].
  rewrite app_nil_r. reflexivity.
Qed.

(** C1.  For every byte stream the callbacks [sendChatMessageStream]
    invokes are those of the complete lines of the decoded stream, in
    order, however the stream is cut into chunks: two chunk lists with
    the same bytes give the same callbacks; a chunk without a newline at
    the end of the stream adds no callback; the frame
    [data: {"type":"chunk","content":"hi"}] cut at any two places gives
    the single callback [onChunk("hi")]; and a stream that ends with a
    failed read has made the same callbacks as one that ends. *)
Theorem C1_chunking_independent :
  forall (cs1 cs2 : list (list byte)) (tail : list byte),
    List.concat cs1 = List.concat cs2 ->
    ~ In Spec.x0a tail ->
    Api.calls_of cs1 =
      flat_map Api.process_line
        (Spec.complete_lines (Spec.decoded (List.concat cs1)))
    /\ Api.calls_of cs1 = Api.calls_of cs2
    /\ Api.calls_of (cs1 ++ [tail]) = Api.calls_of cs1
    /\ (forall i k,
          Api.calls_of (Spec.cut3 i k Spec.frame_hi) =
          [Api.onChunk (JS.Str (JS.lit "hi"))])
    /\ (forall detail failure,
          fst (Api.sendChatMessageStream
                 (inr {| Api.ok := true; Api.error_detail := detail;
                         Api.body :=
                           Some {| Api.chunks := cs1;
                                   Api.read_failure := failure |} |}))
          = Api.calls_of cs1).
Proof.
  intros cs1 cs2 tail Hcat Htail. repeat split.
  - apply calls_of_spec.
  - rewrite !calls_of_spec, Hcat. reflexivity.
  - apply unread_tail, Htail.
  - intros i k. rewrite calls_of_spec, cut3_concat. vm_compute. reflexivity.
Qed.

Lemma C1_chunking_independent_witness :
  List.concat Spec.hi_in_two = List.concat [Spec.frame_hi]
  /\ ~ In Spec.x0a Spec.unfinished
  /\ Api.calls_of Spec.hi_in_two = Api.calls_of [Spec.frame_hi]
  /\ Api.calls_of (Spec.hi_in_two ++ [Spec.unfinished]) =
     Api.calls_of Spec.hi_in_two.
Proof.
  assert (H1 : List.concat Spec.hi_in_two = List.concat [Spec.frame_hi])
    by reflexivity.
  assert (H2 : ~ In Spec.x0a Spec.unfinished).
  { vm_compute. intros H.
    repeat (destruct H as [H|H]; [discriminate H|]). exact H. }
  destruct (C1_chunking_independent Spec.hi_in_two [Spec.frame_hi]
              Spec.unfinished H1 H2) as (_ & A & B & _ & _).
  repeat split; assumption.
Defined.

(** ** C2: what one line makes the consumer call *)

Lemma trimStart_nil s : JS.trimStart s = [] -> Forall (fun c => JS.is_whitespace c = true) s.
Proof.
  induction s as [|c r IH]; cbn [JS.trimStart]; [constructor|].
  destruct (JS.is_whitespace c) eqn:E; [|discriminate].
  intros H. constructor; auto.
Qed.

Lemma trim_nil s : JS.trim s = [] -> Forall (fun c => JS.is_whitespace c = true) s.
Proof.
  unfold JS.trim, JS.trimEnd. intros H.
  apply (f_equal (@rev N)) in H. rewrite rev_involutive in H. cbn in H.
  apply trimStart_nil in H. apply Forall_rev in H.
  rewrite rev_involutive in H.
  destruct (JS.trimStart s) as [|c r] eqn:E; [apply trimStart_nil, E|].
  exfalso. inversion H as [|? ? Hc _]; subst.
  destruct s as [|x s']; [discriminate|]. cbn [JS.trimStart] in E.
  clear H. revert x E. induction s' as [|y s' IH]; intros x E.
  - destruct (JS.is_whitespace x) eqn:W; [discriminate|]. congruence.
  - destruct (JS.is_whitespace x) eqn:W; [|congruence].
    cbn [JS.trimStart] in E. apply (IH y). exact E.
Qed.

Lemma whitespace_lstart c :
  JS.is_whitespace c = true ->
  JSON.lstart c = Some (JSON.LStart, []) \/ JSON.lstart c = None.
Proof.
  unfold JS.is_whitespace. intros H. apply existsb_exists in H.
  destruct H as (x & Hin & E). apply N.eqb_eq in E. subst x.
  repeat (destruct Hin as [<-|Hin]; [vm_compute; auto|]). destruct Hin.
Qed.

Lemma blank_lex s :
  Forall (fun c => JS.is_whitespace c = true) s ->
  JSON.lex JSON.LStart s = Some [] \/ JSON.lex JSON.LStart s = None.
Proof.
  induction 1 as [|c r Hc _ IH]; cbn [JSON.lex JSON.lfinish JSON.lstep]; auto.
  destruct (whitespace_lstart c Hc) as [-> | ->]; auto.
  destruct IH as [-> | ->]; auto.
Qed.

(** A string of white space is no JSON text. *)
Lemma blank_not_json s : JS.trim s = [] -> JSON.parse s = None.
Proof.
  intros H. unfold JSON.parse.
  destruct (blank_lex s (trim_nil s H)) as [-> | ->]; reflexivity.
Qed.

Lemma process_line_frame line event :
  JS.startsWith line (JS.lit "data: ") = true ->
  JSON.parse (JS.slice line 6) = Some event ->
  Api.process_line line = Api.dispatch event.
Proof.
  intros Hp He. unfold Api.process_line. rewrite Hp, He.
  destruct (JS.trim (JS.slice line 6)) eqn:T; [|reflexivity].
  apply blank_not_json in T. congruence.
Qed.

Lemma is_str_true v s : JS.is_str v s = true <-> v = JS.Str s.
Proof.
  destruct v; cbn; try (split; [discriminate | intros X; discriminate X]).
  rewrite eqb_eq. split; congruence.
Qed.

Lemma is_str_false v s : JS.is_str v s = false <-> v <> JS.Str s.
Proof.
  rewrite <- is_str_true. destruct (JS.is_str v s); split; congruence.
Qed.

Lemma dec_string_head i k :
  match k with
  | c :: _ => ((c <? 0x30) || (0x39 <? c))%N = true
  | [] => True
  end -> JS.eqb (JS.dec_string i) k = false.
Proof.
  unfold JS.dec_string.
  destruct k as [|c k]; intros H.
  - destruct (N.to_uint i) as [|u|u|u|u|u|u|u|u|u|u]; reflexivity.
  - assert (forall x r, (0x30 <=? x)%N && (x <=? 0x39)%N = true ->
                        JS.eqb (x :: r) (c :: k) = false) as D.
    { intros x r Hx. cbn [JS.eqb]. destruct (N.eqb_spec x c); [|reflexivity].
      subst. apply andb_true_iff in Hx. apply orb_true_iff in H.
      destruct Hx as [A B]. apply N.leb_le in A, B.
      destruct H as [H|H]; apply N.ltb_lt in H; lia. }
    destruct (N.to_uint i) as [|u|u|u|u|u|u|u|u|u|u];
      cbn [DecimalString.NilZero.string_of_uint
             DecimalString.NilEmpty.string_of_uint JS.lit
             list_ascii_of_string map]; apply D; reflexivity.
Qed.

Lemma lookup_indexed {A} (f : A -> JS.jsval) k xs : forall i,
  match k with
  | c :: _ => ((c <? 0x30) || (0x39 <? c))%N = true
  | [] => True
  end -> JS.lookup k (JS.indexed f i xs) = None.
Proof.
  induction xs as [|x r IH]; intros i H; cbn [JS.indexed JS.lookup]; auto.
  rewrite dec_string_head by exact H. apply IH, H.
Qed.

(** A parsed value that is no object has no [type] among the three. *)
Lemma dispatch_not_object v :
  (forall o, v <> JS.Obj o) -> Api.dispatch v = [].
Proof.
  intros H. destruct v as [| |b|n|s|xs|o]; try reflexivity.
  - unfold Api.dispatch, JS.get.
    change (JS.eqb (JS.lit "type") (JS.lit "length")) with false. cbv iota.
    unfold JS.own_props. rewrite lookup_indexed by reflexivity. reflexivity.
  - unfold Api.dispatch, JS.get.
    change (JS.eqb (JS.lit "type") (JS.lit "length")) with false. cbv iota.
    unfold JS.own_props. rewrite lookup_indexed by reflexivity. reflexivity.
  - exfalso. exact (H o eq_refl).
Qed.

Lemma dispatch_object o :
  let field k := JS.get_opt (JS.Obj o) (JS.lit k) in
  Api.dispatch (JS.Obj o) =
    if JS.is_str (field "type"%string) (JS.lit "chunk") && JS.truthy (field "content"%string)
    then [Api.onChunk (field "content"%string)]
    else if JS.is_str (field "type"%string) (JS.lit "done")
    then [Api.onDone (JS.or_else (field "chart_config"%string) JS.Null)]
    else if JS.is_str (field "type"%string) (JS.lit "error")
    then [Api.onError (JS.or_else (field "message"%string)
                         (JS.Str (TextDecoder.text "未知错误")))]
    else [].
Proof. reflexivity. Qed.

(** C2.  A line that does not start with [data: ], or whose remainder is
    blank or no JSON, or parses to a value that is no object, makes no
    callback.  For a parsed object: type [chunk] calls [onChunk(content)]
    exactly when [content] is truthy, for a string when it is not
    empty; type [done] calls [onDone] with [chart_config], or [null]
    when it is absent; type [error] calls [onError] with [message], or
    the default message when it is absent; any other type calls
    nothing.  A blank line and the line [data: not-json] between two
    frames leave exactly the two callbacks of the frames. *)
Theorem C2_line_to_callbacks :
  forall line : JS.jsstring,
    (JS.startsWith line (JS.lit "data: ") = false
     \/ JS.trim (JS.slice line 6) = []
     \/ JSON.parse (JS.slice line 6) = None ->
     Api.process_line line = [])
    /\ (forall v,
          JS.startsWith line (JS.lit "data: ") = true ->
          JSON.parse (JS.slice line 6) = Some v ->
          (forall o, v <> JS.Obj o) ->
          Api.process_line line = [])
    /\ (forall o,
          JS.startsWith line (JS.lit "data: ") = true ->
          JSON.parse (JS.slice line 6) = Some (JS.Obj o) ->
          (Spec.field o "type" = JS.Str (JS.lit "chunk") ->
           Api.process_line line =
             (if JS.truthy (Spec.field o "content")
              then [Api.onChunk (Spec.field o "content")] else [])
           /\ (forall s, Spec.field o "content" = JS.Str s ->
                (Api.process_line line = [Api.onChunk (JS.Str s)] <-> s <> [])
                /\ (s = [] -> Api.process_line line = []))
           /\ (JS.lookup (JS.lit "content") o = None ->
                Api.process_line line = []))
          /\ (Spec.field o "type" = JS.Str (JS.lit "done") ->
              Api.process_line line =
                [Api.onDone (if JS.truthy (Spec.field o "chart_config")
                             then Spec.field o "chart_config" else JS.Null)]
              /\ (JS.lookup (JS.lit "chart_config") o = None ->
                  Api.process_line line = [Api.onDone JS.Null]))
          /\ (Spec.field o "type" = JS.Str (JS.lit "error") ->
              Api.process_line line =
                [Api.onError (if JS.truthy (Spec.field o "message")
                              then Spec.field o "message"
                              else Spec.unknown_error)]
              /\ (JS.lookup (JS.lit "message") o = None ->
                  Api.process_line line = [Api.onError Spec.unknown_error]))
          /\ (Spec.field o "type" <> JS.Str (JS.lit "chunk") ->
              Spec.field o "type" <> JS.Str (JS.lit "done") ->
              Spec.field o "type" <> JS.Str (JS.lit "error") ->
              Api.process_line line = []))
    /\ Api.calls_of [Spec.tolerant_stream] =
       [Api.onChunk (JS.Str (JS.lit "hi")); Api.onDone JS.Null].
Proof.
  intros line. split; [|split; [|split]].
  - unfold Api.process_line. intros [H|[H|H]].
    + rewrite H. reflexivity.
    + rewrite H. destruct (JS.startsWith _ _); reflexivity.
    + rewrite H. destruct (JS.startsWith _ _); [|reflexivity].
      destruct (JS.truthy _); reflexivity.
  - intros v Hp Hv Hno. rewrite (process_line_frame line v Hp Hv).
    apply dispatch_not_object, Hno.
  - intros o Hp Hv. rewrite (process_line_frame line _ Hp Hv).
    rewrite dispatch_object. fold (Spec.field o "type").
    fold (Spec.field o "content"). fold (Spec.field o "chart_config").
    fold (Spec.field o "message").
    split; [|split; [|split]].
    + intros T. rewrite T. cbn [JS.is_str]. rewrite eqb_refl. cbn [andb].
      split; [reflexivity|]. split.
      * intros s C. rewrite C. destruct s as [|c s]; cbn [JS.truthy].
        -- split; [split; [discriminate | congruence] | reflexivity].
        -- split; [split; [discriminate | reflexivity] | discriminate].
      * intros L. unfold Spec.field, JS.get_opt, JS.get. rewrite L.
        reflexivity.
    + intros T. rewrite T.
      change (JS.is_str (JS.Str (JS.lit "done")) (JS.lit "chunk")) with false.
      change (JS.is_str (JS.Str (JS.lit "done")) (JS.lit "done")) with true.
      cbn [andb]. split; [reflexivity|].
      intros L. unfold Spec.field, JS.get_opt, JS.get. rewrite L.
      reflexivity.
    + intros T. rewrite T.
      change (JS.is_str (JS.Str (JS.lit "error")) (JS.lit "chunk")) with false.
      change (JS.is_str (JS.Str (JS.lit "error")) (JS.lit "done")) with false.
      change (JS.is_str (JS.Str (JS.lit "error")) (JS.lit "error")) with true.
      cbn [andb]. split; [reflexivity|].
      intros L. unfold Spec.field, JS.get_opt, JS.get. rewrite L.
      reflexivity.
    + intros T1 T2 T3. apply is_str_false in T1, T2, T3.
      rewrite T1, T2, T3. reflexivity.
  - vm_compute. reflexivity.
Qed.

Lemma C2_line_to_callbacks_witness :
  JS.startsWith (Spec.line_text "data: {'type':'chunk','content':'hi'}")
    (JS.lit "data: ") = true
  /\ Api.process_line (Spec.line_text "data: {'type':'chunk','content':'hi'}")
     = [Api.onChunk (JS.Str (JS.lit "hi"))]
  /\ Api.process_line (Spec.line_text "data: not-json") = []
  /\ Api.process_line (Spec.line_text "data: {'type':'done'}")
     = [Api.onDone JS.Null].
Proof.
  split; [reflexivity|]. split; [|split].
  - destruct (C2_line_to_callbacks
                (Spec.line_text "data: {'type':'chunk','content':'hi'}"))
      as (_ & _ & H & _).
    destruct (H [(JS.lit "type", JS.Str (JS.lit "chunk"));
                 (JS.lit "content", JS.Str (JS.lit "hi"))]
                eq_refl eq_refl) as (Hc & _).
    destruct (Hc eq_refl) as (_ & Hs & _).
    destruct (Hs (JS.lit "hi") eq_refl) as ((_ & Hne) & _).
    apply Hne. discriminate.
  - destruct (C2_line_to_callbacks (Spec.line_text "data: not-json"))
      as (H & _).
    apply H. right; right. reflexivity.
  - destruct (C2_line_to_callbacks (Spec.line_text "data: {'type':'done'}"))
      as (_ & _ & H & _).
    destruct (H [(JS.lit "type", JS.Str (JS.lit "done"))] eq_refl eq_refl)
      as (_ & Hd & _).
    destruct (Hd eq_refl) as (_ & Hn). apply Hn. reflexivity.
Defined.

(** ** C10: the loop reads on after a terminal frame *)

(** C10.  The consumer does not stop at a terminal frame: when a line of
    the stream makes it call [onDone] or [onError], the lines after it
    are handled as any other and their callbacks follow; in the stream
    [done, chunk, done, error] all four callbacks are made, [onDone]
    twice and [onChunk] after the first [onDone]. *)
Theorem C10_reads_on_after_terminal :
  forall (cs : list (list byte)) (before later : list JS.jsstring)
         (terminal : JS.jsstring) (c : Api.Callback),
    Spec.complete_lines (Spec.decoded (List.concat cs)) =
      before ++ terminal :: later ->
    Api.process_line terminal = [c] ->
    Spec.is_terminal c = true ->
    Api.calls_of cs =
      flat_map Api.process_line before ++ c
        :: flat_map Api.process_line later
    /\ Api.calls_of [Spec.after_done] =
       [Api.onDone JS.Null; Api.onChunk (JS.Str (JS.lit "hi"));
        Api.onDone JS.Null; Api.onError (JS.Str (JS.lit "late"))].
Proof.
  intros cs before later terminal c Hl Hc _. split.
  - rewrite calls_of_spec, Hl, flat_map_app. cbn [flat_map].
    rewrite Hc. reflexivity.
  - vm_compute. reflexivity.
Qed.

Lemma C10_reads_on_after_terminal_witness :
  Api.calls_of [Spec.frame_done; Spec.frame_hi] =
  [Api.onDone JS.Null; Api.onChunk (JS.Str (JS.lit "hi"))].
Proof.
  exact (proj1 (C10_reads_on_after_terminal
                  [Spec.frame_done; Spec.frame_hi] []
                  [Spec.line_text "data: {'type':'chunk','content':'hi'}"]
                  (Spec.line_text "data: {'type':'done'}")
                  (Api.onDone JS.Null) eq_refl eq_refl eq_refl)).
Defined.

(** ** C4: the data source ids *)

Lemma fold_push_sheets (f : JS.jsstring) sheets : forall acc,
  fold_left (fun ids sheet => ids ++ [f ++ JS.lit ":" ++ sheet]) sheets acc
  = acc ++ map (fun sheet => f ++ JS.lit ":" ++ sheet) sheets.
Proof.
  induction sheets as [|x r IH]; intros acc; cbn [fold_left map].
  - rewrite app_nil_r; reflexivity.
  - rewrite IH, <- app_assoc. reflexivity.
Qed.

Lemma session_push_ids acc info :
  SessionPage.push_ids acc info =
  acc ++ Spec.per_file (SessionPage.file_id info)
           (SessionPage.selectedSheets info).
Proof.
  unfold SessionPage.push_ids, SessionPage.source_id, Spec.per_file.
  destruct (SessionPage.selectedSheets info) as [|x r]; [reflexivity|].
  cbn [List.length Nat.ltb Nat.leb]. apply fold_push_sheets.
Qed.

Lemma session_recompute infos : forall acc,
  fold_left SessionPage.push_ids infos acc =
  acc ++ flat_map (fun info => Spec.per_file (SessionPage.file_id info)
                                 (SessionPage.selectedSheets info)) infos.
Proof.
  induction infos as [|i r IH]; intros acc; cbn [fold_left flat_map].
  - rewrite app_nil_r; reflexivity.
  - rewrite IH, session_push_ids, <- app_assoc. reflexivity.
Qed.

Lemma generate_push_ids acc fi :
  GeneratePage.push_ids acc fi =
  acc ++ Spec.per_file (GeneratePage.file_id (GeneratePage.uploadResult fi))
           (GeneratePage.selectedSheets fi).
Proof.
  unfold GeneratePage.push_ids, GeneratePage.source_id, Spec.per_file.
  destruct (GeneratePage.selectedSheets fi) as [|x r]; [reflexivity|].
  cbn [List.length Nat.ltb Nat.leb]. apply fold_push_sheets.
Qed.

Lemma generate_recompute infos : forall acc,
  fold_left GeneratePage.push_ids infos acc =
  acc ++ flat_map
           (fun fi => Spec.per_file
                        (GeneratePage.file_id (GeneratePage.uploadResult fi))
                        (GeneratePage.selectedSheets fi)) infos.
Proof.
  induction infos as [|i r IH]; intros acc; cbn [fold_left flat_map].
  - rewrite app_nil_r; reflexivity.
  - rewrite IH, generate_push_ids, <- app_assoc. reflexivity.
Qed.

(** C4.  On both pages the recomputed data source ids are, file by file
    in the order of the files, one [fileId:sheet] per selected sheet in
    the order of the selection, or the single [fileId] of a file without
    a selected sheet; [handleSheetsChange] stores exactly these for the
    updated files, on the generate page for a selection that is not
    empty.  A file without a selection gives [[fileId]], a file
    with the sheets A and B gives [[fileId:A, fileId:B]]. *)
Theorem C4_data_source_ids :
  (forall infos : list SessionPage.RestoredFileInfo,
      SessionPage.recompute infos =
      flat_map (fun info => Spec.per_file (SessionPage.file_id info)
                              (SessionPage.selectedSheets info)) infos)
  /\ (forall infos : list GeneratePage.FileInfo,
        GeneratePage.recompute infos =
        flat_map
          (fun fi => Spec.per_file
                       (GeneratePage.file_id (GeneratePage.uploadResult fi))
                       (GeneratePage.selectedSheets fi)) infos)
  /\ (forall st fileIndex newSheets st',
        SessionPage.handleSheetsChange st fileIndex newSheets = Some st' ->
        SessionPage.dataSourceIds st' =
        flat_map (fun info => Spec.per_file (SessionPage.file_id info)
                                (SessionPage.selectedSheets info))
                 (SessionPage.fileInfos st'))
  /\ (forall st fileIndex c newSheets,
        GeneratePage.fileIds
          (GeneratePage.handleSheetsChange st fileIndex (c :: newSheets)) =
        match GeneratePage.select (GeneratePage.fileInfos st) fileIndex
                (c :: newSheets) with
        | Some newInfos =>
            flat_map
              (fun fi => Spec.per_file
                           (GeneratePage.file_id (GeneratePage.uploadResult fi))
                           (GeneratePage.selectedSheets fi)) newInfos
        | None => GeneratePage.fileIds st
        end)
  /\ (forall fileId name names,
        SessionPage.recompute
          [{| SessionPage.file_id := fileId; SessionPage.filename := name;
              SessionPage.sheet_names := names;
              SessionPage.selectedSheets := [] |}] = [fileId]
        /\ SessionPage.recompute
             [{| SessionPage.file_id := fileId; SessionPage.filename := name;
                 SessionPage.sheet_names := names;
                 SessionPage.selectedSheets := [JS.lit "A"; JS.lit "B"] |}]
           = [fileId ++ JS.lit ":A"; fileId ++ JS.lit ":B"]).
Proof.
  split; [|split; [|split; [|split]]].
  - intros infos. unfold SessionPage.recompute.
    rewrite session_recompute. reflexivity.
  - intros infos. unfold GeneratePage.recompute.
    rewrite generate_recompute. reflexivity.
  - intros st i sheets st' H. unfold SessionPage.handleSheetsChange in H.
    destruct (SessionPage.select _ _ _) as [u|]; [|discriminate].
    inversion H; subst; cbn. unfold SessionPage.recompute.
    rewrite session_recompute. reflexivity.
  - intros st i c sheets. unfold GeneratePage.handleSheetsChange.
    destruct (GeneratePage.select _ _ _) as [u|]; [|reflexivity].
    cbn [GeneratePage.fileIds]. unfold GeneratePage.recompute.
    rewrite generate_recompute. reflexivity.
  - intros fileId name names. split; reflexivity.
Qed.

Lemma C4_data_source_ids_witness :
  exists st',
    SessionPage.handleSheetsChange Spec.session0 0 [JS.lit "B"] = Some st'
    /\ SessionPage.dataSourceIds st' = [JS.lit "f1:B"].
Proof.
  eexists. split; [reflexivity|].
  destruct C4_data_source_ids as (_ & _ & H & _).
  rewrite (H Spec.session0 0%nat [JS.lit "B"] _ eq_refl). reflexivity.
Defined.

(** ** C5: a turn in flight rejects another *)

(** C5.  [handleSend] called on a page whose turn is in flight returns
    at once: the state it leaves is the state it found, so no entry is
    appended or changed and no request is sent.  This holds for the
    session page, whose guard reads [isStreaming], and for the generate
    page, whose guard reads [loading]. *)
Theorem C5_in_flight_rejects :
  forall (st : SessionPage.State) (gst : GeneratePage.State)
         (text text' : JS.jsstring) (now_a now_u now_a' now_u' : N)
         (evs : list Turn.StreamEvent) (out : Turn.Outcome),
    SessionPage.rejected st = false ->
    GeneratePage.rejected gst = false ->
    let flying := SessionPage.during st text now_a now_u evs in
    let gflying := GeneratePage.during gst text now_a now_u evs in
    SessionPage.isStreaming flying = true
    /\ SessionPage.handleSend flying text' now_a' now_u' out = flying
    /\ SessionPage.messages
         (SessionPage.handleSend flying text' now_a' now_u' out)
       = SessionPage.messages flying
    /\ SessionPage.requests
         (SessionPage.handleSend flying text' now_a' now_u' out)
       = SessionPage.requests st ++ SessionPage.request st text
    /\ GeneratePage.handleSend gflying text' now_a' now_u' out = gflying
    /\ (forall s : SessionPage.State,
          SessionPage.isStreaming s = true ->
          SessionPage.handleSend s text' now_a' now_u' out = s)
    /\ (forall g : GeneratePage.State,
          GeneratePage.loading g = true ->
          GeneratePage.handleSend g text' now_a' now_u' out = g).
Proof.
  intros st gst text text' na nu na' nu' evs out Hs Hg flying gflying.
  assert (G1 : forall s : SessionPage.State,
             SessionPage.isStreaming s = true ->
             SessionPage.handleSend s text' na' nu' out = s).
  { intros s H. unfold SessionPage.handleSend, SessionPage.rejected.
    rewrite H. destruct (SessionPage.sessionDetail s); [|reflexivity].
    rewrite orb_true_r. reflexivity. }
  assert (G2 : forall g : GeneratePage.State,
             GeneratePage.loading g = true ->
             GeneratePage.handleSend g text' na' nu' out = g).
  { intros g H. unfold GeneratePage.handleSend, GeneratePage.rejected.
    rewrite H, orb_true_r. reflexivity. }
  split; [reflexivity|].
  split; [apply G1; reflexivity|].
  split; [rewrite G1 by reflexivity; reflexivity|].
  split; [rewrite G1 by reflexivity; reflexivity|].
  split; [apply G2; reflexivity|].
  split; assumption.
Qed.

Lemma C5_in_flight_rejects_witness :
  SessionPage.rejected Spec.session0 = false
  /\ GeneratePage.rejected Spec.generate0 = false
  /\ SessionPage.handleSend
       (SessionPage.during Spec.session0 (JS.lit "plot totals") 1000 1000
          [Turn.Chunk (JS.lit "Here")])
       (JS.lit "again") 1001 1001
       {| Turn.events := [Turn.Done JS.Null]; Turn.thrown := None |}
     = SessionPage.during Spec.session0 (JS.lit "plot totals") 1000 1000
         [Turn.Chunk (JS.lit "Here")].
Proof.
  split; [reflexivity|]. split; [reflexivity|].
  exact (proj1 (proj2 (C5_in_flight_rejects Spec.session0 Spec.generate0
                         (JS.lit "plot totals") (JS.lit "again")
                         1000 1000 1001 1001 [Turn.Chunk (JS.lit "Here")]
                         {| Turn.events := [Turn.Done JS.Null];
                            Turn.thrown := None |}
                         eq_refl eq_refl))).
Defined.

(** ** C8: the staggered export *)

Lemma forEach_setTimeout_spec items : forall (i : nat),
  ChatMessageList.forEach_setTimeout (Z.of_nat i) items =
  combine (map (fun k => (300 * Z.of_nat k)%Z) (seq i (List.length items)))
          items.
Proof.
  induction items as [|x r IH]; intros i;
    cbn [ChatMessageList.forEach_setTimeout List.length seq map combine].
  - reflexivity.
  - f_equal; [f_equal; lia|].
    replace (Z.of_nat i + 1)%Z with (Z.of_nat (S i)) by lia. apply IH.
Qed.

Lemma assoc_set_fresh {A} (m : list (JS.jsstring * A)) k r :
  ChatMessageList.has m k = false ->
  ChatMessageList.assoc_set m k r = m ++ [(k, r)].
Proof.
  unfold ChatMessageList.has.
  induction m as [|[k' r'] m IH];
    cbn [ChatMessageList.assoc ChatMessageList.assoc_set app]; auto.
  destruct (JS.eqb k' k); [discriminate|].
  intros H. rewrite IH by exact H. reflexivity.
Qed.

(** C8.  For a registry of [n > 0] records [exportAllCharts] sets [n]
    timers, one per record in the order of the registry, with the delays
    0, 300, ..., 300 (n - 1) ms; for an empty registry it alerts that
    there is no chart to export and sets no timer.  Three charts
    registered one after the other are exported at 0, 300 and 600 ms in
    the order of their registration. *)
Theorem C8_export_staggered :
  forall (m : ChatMessageList.ChartMap) (n : nat),
    List.length m = n ->
    (n = 0%nat ->
     ChatMessageList.exportAllCharts m =
       ChatMessageList.alert (TextDecoder.text "当前没有可导出的图表"))
    /\ ((0 < n)%nat ->
        exists scheduled,
          ChatMessageList.exportAllCharts m =
            ChatMessageList.timers scheduled
          /\ List.length scheduled = n
          /\ map fst scheduled = Spec.offsets n
          /\ map snd scheduled = ChatMessageList.Map_values m)
    /\ (forall k1 k2 k3 h1 h2 h3 c1 c2 c3,
          k1 <> k2 -> k1 <> k3 -> k2 <> k3 ->
          let m1 := fst (ChatMessageList.handleInstanceReady [] k1 h1 c1) in
          let m2 := fst (ChatMessageList.handleInstanceReady m1 k2 h2 c2) in
          let m3 := fst (ChatMessageList.handleInstanceReady m2 k3 h3 c3) in
          ChatMessageList.exportAllCharts m3 =
            ChatMessageList.timers
              [(0%Z, Spec.record k1 h1 c1); (300%Z, Spec.record k2 h2 c2);
               (600%Z, Spec.record k3 h3 c3)]).
Proof.
  intros m n Hn. split; [|split].
  - intros ->. destruct m; [reflexivity | discriminate].
  - intros Hpos. unfold ChatMessageList.exportAllCharts.
    assert (Hl : List.length (ChatMessageList.Map_values m) = n).
    { unfold ChatMessageList.Map_values. rewrite length_map. exact Hn. }
    rewrite Hl. destruct n as [|n']; [lia|]. cbn [Nat.eqb].
    eexists. split; [reflexivity|].
    rewrite (forEach_setTimeout_spec _ 0), Hl.
    assert (Hlen : List.length
              (map (fun k => (300 * Z.of_nat k)%Z) (seq 0 (S n'))) =
              List.length (ChatMessageList.Map_values m)).
    { rewrite length_map, length_seq. symmetry; exact Hl. }
    split; [|split].
    + rewrite length_combine, Hlen, Hl. apply Nat.min_id.
    + unfold Spec.offsets.
      revert Hlen. generalize (map (fun k => (300 * Z.of_nat k)%Z)
                                   (seq 0 (S n'))).
      generalize (ChatMessageList.Map_values m).
      intros l2 l1. revert l2.
      induction l1 as [|a l1 IH]; intros [|b l2] H; try discriminate;
        cbn [combine map fst]; [reflexivity|].
      f_equal. apply IH. cbn in H. lia.
    + revert Hlen. generalize (map (fun k => (300 * Z.of_nat k)%Z)
                                   (seq 0 (S n'))).
      generalize (ChatMessageList.Map_values m).
      intros l2 l1. revert l2.
      induction l1 as [|a l1 IH]; intros [|b l2] H; try discriminate;
        cbn [combine map snd]; [reflexivity|].
      f_equal. apply IH. cbn in H. lia.
  - intros k1 k2 k3 h1 h2 h3 c1 c2 c3 N12 N13 N23.
    apply eqb_neq in N12, N13, N23.
    unfold ChatMessageList.handleInstanceReady, ChatMessageList.Map_set.
    cbn [fst ChatMessageList.assoc_set].
    rewrite N12. cbn [ChatMessageList.assoc_set]. rewrite N13, N23.
    reflexivity.
Qed.

Lemma C8_export_staggered_witness :
  exists scheduled,
    ChatMessageList.exportAllCharts Spec.three_charts =
      ChatMessageList.timers scheduled
    /\ map fst scheduled = [0%Z; 300%Z; 600%Z].
Proof.
  destruct (C8_export_staggered Spec.three_charts 3 eq_refl) as (_ & H & _).
  destruct (H (Nat.lt_0_succ 2)) as (s & E & _ & F & _).
  exists s. split; [exact E | exact F].
Defined.

(** ** C3: the entry a turn fills *)

Lemma replace_last_snoc pre m m' :
  Turn.replace_last (pre ++ [m]) m' = pre ++ [m'].
Proof. unfold Turn.replace_last. rewrite removelast_last. reflexivity. Qed.

Lemma on_event_snoc aid (sc : JS.jsstring) pre m ev :
  exists m',
    Turn.on_event aid (sc, pre ++ [m]) ev =
      (match ev with Turn.Chunk c => sc ++ c | _ => sc end, pre ++ [m'])
    /\ ChatMessageList.id m' = aid
    /\ ChatMessageList.role m' = ChatMessageList.assistant
    /\ (Spec.is_error ev = false ->
        ChatMessageList.content m' =
          match ev with Turn.Chunk c => sc ++ c | _ => sc end).
Proof.
  destruct ev as [c|cfg|e]; cbn [Turn.on_event]; rewrite replace_last_snoc;
    eexists; (split; [reflexivity|]); cbn; auto.
  repeat split; auto. discriminate.
Qed.

(** While the stream is read the transcript is the one before the turn,
    the user entry, and one entry with the id of the turn. *)
Lemma on_events_snoc aid evs : forall (sc : JS.jsstring) pre m,
  ChatMessageList.id m = aid ->
  ChatMessageList.role m = ChatMessageList.assistant ->
  exists sc' m',
    Turn.on_events aid (sc, pre ++ [m]) evs = (sc', pre ++ [m'])
    /\ ChatMessageList.id m' = aid
    /\ ChatMessageList.role m' = ChatMessageList.assistant
    /\ (ChatMessageList.content m = sc ->
        forallb (fun ev => negb (Spec.is_error ev)) evs = true ->
        ChatMessageList.content m' = sc').
Proof.
  unfold Turn.on_events.
  induction evs as [|ev evs IH]; intros sc pre m Hid Hrole; cbn [fold_left].
  - exists sc, m. auto.
  - destruct (on_event_snoc aid sc pre m ev) as (m1 & E & I1 & R1 & C1).
    rewrite E.
    destruct (IH (match ev with Turn.Chunk c => sc ++ c | _ => sc end)
                 pre m1 I1 R1) as (sc' & m' & E' & I' & R' & C').
    exists sc', m'. repeat split; auto.
    intros _ Hall. cbn [forallb] in Hall. apply andb_true_iff in Hall.
    destruct Hall as [H1 H2]. apply negb_true_iff in H1.
    apply C'; auto.
Qed.

Lemma streamed_shape prev text na nu evs :
  exists sc m,
    Turn.streamed prev text na nu evs =
      (sc, prev ++ [ChatMessageList.message (Turn.user_id nu)
                      ChatMessageList.user text; m])
    /\ ChatMessageList.id m = Turn.assistant_id na
    /\ ChatMessageList.role m = ChatMessageList.assistant
    /\ (forallb (fun ev => negb (Spec.is_error ev)) evs = true ->
        ChatMessageList.content m = sc).
Proof.
  unfold Turn.streamed, Turn.opened.
  change (prev ++ [ChatMessageList.message (Turn.user_id nu)
                     ChatMessageList.user text;
                   ChatMessageList.message (Turn.assistant_id na)
                     ChatMessageList.assistant []])
    with (prev ++ [ChatMessageList.message (Turn.user_id nu)
                     ChatMessageList.user text]
               ++ [ChatMessageList.message (Turn.assistant_id na)
                     ChatMessageList.assistant []]).
  rewrite app_assoc.
  destruct (on_events_snoc (Turn.assistant_id na) evs []
              (prev ++ [ChatMessageList.message (Turn.user_id nu)
                          ChatMessageList.user text])
              (ChatMessageList.message (Turn.assistant_id na)
                 ChatMessageList.assistant []) eq_refl eq_refl)
    as (sc & m & E & I & R & C).
  exists sc, m. split; [|repeat split; auto].
  etransitivity; [exact E|]. rewrite <- app_assoc. reflexivity.
Qed.

Lemma chunks_streamed aid chunks : forall (sc : JS.jsstring) pre,
  Turn.on_events aid
    (sc, pre ++ [ChatMessageList.message aid ChatMessageList.assistant sc])
    (map Turn.Chunk chunks) =
  (sc ++ List.concat chunks,
   pre ++ [ChatMessageList.message aid ChatMessageList.assistant
             (sc ++ List.concat chunks)]).
Proof.
  unfold Turn.on_events.
  induction chunks as [|c r IH]; intros sc pre;
    cbn [map fold_left List.concat].
  - rewrite app_nil_r. reflexivity.
  - cbn [Turn.on_event]. rewrite replace_last_snoc, IH, <- app_assoc.
    reflexivity.
Qed.

Lemma on_events_app aid s a b :
  Turn.on_events aid s (a ++ b) = Turn.on_events aid (Turn.on_events aid s a) b.
Proof. unfold Turn.on_events. apply fold_left_app. Qed.

(** ** The session page as the event loop runs it *)

Lemma run_app p a : forall b,
  SessionPage.run p (a ++ b) =
  match SessionPage.run p a with
  | Some p' => SessionPage.run p' b
  | None => None
  end.
Proof.
  revert p. induction a as [|t a IH]; intros p b; cbn [app SessionPage.run].
  - reflexivity.
  - destruct (SessionPage.task p t) as [p1|]; [apply IH | reflexivity].
Qed.

(** What a callback writes, and the text it leaves in [streamContent]. *)
Lemma on_event_written aid sc msgs ev :
  Turn.on_event aid (sc, msgs) ev =
    (sc ++ Spec.text_of [ev],
     Turn.replace_last msgs (Spec.entry_written aid sc ev)).
Proof.
  destruct ev as [c|cfg|e]; cbn [Turn.on_event Spec.text_of flat_map app];
    rewrite ?app_nil_r; reflexivity.
Qed.

Lemma text_of_app a b :
  Spec.text_of (a ++ b) = Spec.text_of a ++ Spec.text_of b.
Proof. unfold Spec.text_of. apply flat_map_app. Qed.

Lemma events_of_app a b :
  Spec.events_of (a ++ b) = Spec.events_of a ++ Spec.events_of b.
Proof. unfold Spec.events_of. apply flat_map_app. Qed.

Lemma events_of_callbacks evs :
  Spec.events_of (map SessionPage.callback evs) = evs.
Proof.
  induction evs as [|ev evs IH]; cbn; [reflexivity|].
  f_equal. exact IH.
Qed.

Lemma text_of_chunks chunks :
  Spec.text_of (map Turn.Chunk chunks) = List.concat chunks.
Proof.
  induction chunks as [|c r IH]; cbn; [reflexivity|].
  f_equal. exact IH.
Qed.

(** One task of a turn in flight: the turn stays in flight with its id,
    its text grows by the chunk, if the task is one, and nothing but
    the messages changes. *)
Lemma in_turn_task p f t p' :
  Spec.in_turn t = true ->
  SessionPage.turn p = Some f ->
  SessionPage.task p t = Some p' ->
  SessionPage.turn p' =
    Some {| SessionPage.assistantMsgId := SessionPage.assistantMsgId f;
            SessionPage.streamContent :=
              SessionPage.streamContent f ++ Spec.text_of (Spec.events_of [t]) |}
  /\ SessionPage.isStreaming (SessionPage.state p')
     = SessionPage.isStreaming (SessionPage.state p)
  /\ SessionPage.requests (SessionPage.state p')
     = SessionPage.requests (SessionPage.state p)
  /\ SessionPage.fileInfos (SessionPage.state p')
     = SessionPage.fileInfos (SessionPage.state p)
  /\ SessionPage.dataSourceIds (SessionPage.state p')
     = SessionPage.dataSourceIds (SessionPage.state p).
Proof.
  intros Ht Hf E. destruct t as [x y z|ev|th|i s|k sel now];
    try discriminate Ht; cbn [SessionPage.task] in E.
  - rewrite Hf, on_event_written in E. injection E as <-.
    cbn. repeat split; reflexivity.
  - destruct (nth_error (SessionPage.awaited p) k); [|discriminate].
    injection E as <-. cbn. rewrite app_nil_r, Hf.
    destruct f; repeat split; reflexivity.
Qed.

Lemma in_turn_run middle : forall p f p',
  forallb Spec.in_turn middle = true ->
  SessionPage.turn p = Some f ->
  SessionPage.run p middle = Some p' ->
  SessionPage.turn p' =
    Some {| SessionPage.assistantMsgId := SessionPage.assistantMsgId f;
            SessionPage.streamContent :=
              SessionPage.streamContent f
              ++ Spec.text_of (Spec.events_of middle) |}
  /\ SessionPage.isStreaming (SessionPage.state p')
     = SessionPage.isStreaming (SessionPage.state p)
  /\ SessionPage.requests (SessionPage.state p')
     = SessionPage.requests (SessionPage.state p)
  /\ SessionPage.fileInfos (SessionPage.state p')
     = SessionPage.fileInfos (SessionPage.state p)
  /\ SessionPage.dataSourceIds (SessionPage.state p')
     = SessionPage.dataSourceIds (SessionPage.state p).
Proof.
  induction middle as [|t r IH]; intros p f p' Hall Hf E;
    cbn [SessionPage.run forallb] in *.
  - injection E as <-. cbn. rewrite app_nil_r, Hf.
    destruct f; repeat split; reflexivity.
  - apply andb_true_iff in Hall. destruct Hall as [Ht Hr].
    destruct (SessionPage.task p t) as [p1|] eqn:E1; [|discriminate].
    destruct (in_turn_task p f t p1 Ht Hf E1) as (T1 & S1 & R1 & F1 & D1).
    destruct (IH p1 _ p' Hr T1 E) as (T & S & R & F & D).
    cbn [SessionPage.assistantMsgId SessionPage.streamContent] in T.
    change (t :: r) with ([t] ++ r).
    rewrite events_of_app, text_of_app, app_assoc.
    repeat split; congruence.
Qed.

(** The entry of the last callback of a turn is in the transcript,
    whatever answers arrived among the callbacks and after them. *)
Lemma last_write middle : forall p f p' earlier ev,
  forallb Spec.in_turn middle = true ->
  SessionPage.turn p = Some f ->
  SessionPage.run p middle = Some p' ->
  Spec.events_of middle = earlier ++ [ev] ->
  In (Spec.entry_written (SessionPage.assistantMsgId f)
        (SessionPage.streamContent f ++ Spec.text_of earlier) ev)
     (SessionPage.messages (SessionPage.state p')).
Proof.
  induction middle as [|t r IH] using rev_ind;
    intros p f p' earlier ev Hall Hf E Hev.
  - destruct earlier; discriminate Hev.
  - rewrite forallb_app in Hall. apply andb_true_iff in Hall.
    destruct Hall as [Hr Ht]. cbn [forallb] in Ht. rewrite andb_true_r in Ht.
    rewrite run_app in E.
    destruct (SessionPage.run p r) as [p1|] eqn:E1; [|discriminate].
    cbn [SessionPage.run] in E.
    destruct (SessionPage.task p1 t) as [p2|] eqn:E2; [|discriminate].
    injection E as <-.
    destruct (in_turn_run r p f p1 Hr Hf E1) as (T1 & _).
    rewrite events_of_app in Hev.
    destruct t as [x y z|ev'|th|i s|k sel now]; try discriminate Ht;
      cbn [SessionPage.task] in E2.
    + cbn [Spec.events_of flat_map app] in Hev.
      apply app_inj_tail in Hev. destruct Hev as [<- <-].
      rewrite T1 in E2. cbn [SessionPage.assistantMsgId
                               SessionPage.streamContent] in E2.
      rewrite on_event_written in E2. injection E2 as <-.
      cbn [SessionPage.state SessionPage.with_messages SessionPage.messages].
      unfold Turn.replace_last. apply in_or_app. right. left. reflexivity.
    + cbn [Spec.events_of flat_map app] in Hev. rewrite app_nil_r in Hev.
      pose proof (IH p f p1 earlier ev Hr Hf E1 Hev) as Hin.
      destruct (nth_error (SessionPage.awaited p1) k); [|discriminate].
      injection E2 as <-.
      cbn [SessionPage.state SessionPage.with_messages SessionPage.messages].
      destruct sel; [exact Hin | apply in_or_app; left; exact Hin].
Qed.

(** The callbacks of a turn one after the other, nothing in between:
    the transcript and the text are those of [Turn.on_events]. *)
Lemma run_callbacks evs : forall p f,
  SessionPage.turn p = Some f ->
  SessionPage.run p (map SessionPage.callback evs) =
  Some {| SessionPage.state :=
            SessionPage.with_messages (SessionPage.state p)
              (snd (Turn.on_events (SessionPage.assistantMsgId f)
                      (SessionPage.streamContent f,
                       SessionPage.messages (SessionPage.state p)) evs))
              (SessionPage.isStreaming (SessionPage.state p))
              (SessionPage.requests (SessionPage.state p));
          SessionPage.turn :=
            Some {| SessionPage.assistantMsgId := SessionPage.assistantMsgId f;
                    SessionPage.streamContent :=
                      fst (Turn.on_events (SessionPage.assistantMsgId f)
                             (SessionPage.streamContent f,
                              SessionPage.messages (SessionPage.state p))
                             evs) |};
          SessionPage.awaited := SessionPage.awaited p |}.
Proof.
  unfold Turn.on_events.
  induction evs as [|ev evs IH]; intros p f Hf;
    cbn [map SessionPage.run fold_left].
  - destruct p as [[] t a]. cbn in *. subst t. destruct f. reflexivity.
  - cbn [SessionPage.task]. rewrite Hf.
    destruct (Turn.on_event (SessionPage.assistantMsgId f)
                (SessionPage.streamContent f,
                 SessionPage.messages (SessionPage.state p)) ev)
      as [sc msgs] eqn:E.
    match goal with
    | |- SessionPage.run ?q _ = _ => rewrite (IH q _ eq_refl)
    end.
    reflexivity.
Qed.

(** A turn during which nothing else runs is [handleSend] run to its
    end, and while its stream is read the page is [during]. *)
Lemma run_turn_alone p text na nu out :
  SessionPage.turn p = None ->
  SessionPage.rejected (SessionPage.state p) = false ->
  SessionPage.run p
    (Spec.turn_tasks text na nu
       (map SessionPage.callback (Turn.events out)) (Turn.thrown out))
  = Some {| SessionPage.state :=
              SessionPage.handleSend (SessionPage.state p) text na nu out;
            SessionPage.turn := None;
            SessionPage.awaited := SessionPage.awaited p |}
  /\ exists f,
       SessionPage.run p
         (SessionPage.send text na nu
          :: map SessionPage.callback (Turn.events out))
       = Some {| SessionPage.state :=
                   SessionPage.during (SessionPage.state p) text na nu
                     (Turn.events out);
                 SessionPage.turn := Some f;
                 SessionPage.awaited := SessionPage.awaited p |}.
Proof.
  intros Hn Hr. unfold Spec.turn_tasks.
  cbn [SessionPage.run SessionPage.task]. rewrite Hr.
  set (p1 := {| SessionPage.state := _ |}).
  pose proof (run_callbacks (Turn.events out) p1 _ eq_refl) as R.
  split.
  - rewrite run_app, R. cbn [SessionPage.run SessionPage.task SessionPage.turn].
    unfold SessionPage.handleSend. rewrite Hr.
    unfold Turn.settled, Turn.streamed.
    cbn [SessionPage.state p1 SessionPage.with_messages SessionPage.messages
           SessionPage.assistantMsgId SessionPage.streamContent
           SessionPage.requests SessionPage.awaited].
    destruct (Turn.on_events _ _ _) as [sc msgs]. cbn [snd].
    destruct (Turn.thrown out); reflexivity.
  - eexists. rewrite R. reflexivity.
Qed.

(** [handleSheetsChange] with nothing between its call and the answer
    is the handler run to its end. *)
Lemma run_change_answered p fileIndex newSheets selected now :
  SessionPage.loading (SessionPage.state p)
  || SessionPage.isStreaming (SessionPage.state p) = false ->
  newSheets <> [] ->
  option_map SessionPage.state
    (SessionPage.run p
       [SessionPage.change fileIndex newSheets;
        SessionPage.answered (List.length (SessionPage.awaited p))
          selected now])
  = SessionPage.handleSheetsChange_awaited (SessionPage.state p) fileIndex
      newSheets selected now.
Proof.
  intros Hg Hs. cbn [SessionPage.run SessionPage.task]. rewrite Hg.
  unfold SessionPage.handleSheetsChange_awaited.
  destruct (SessionPage.handleSheetsChange (SessionPage.state p) fileIndex
              newSheets) as [st1|]; [|reflexivity].
  destruct newSheets as [|s r]; [congruence|].
  cbn [SessionPage.awaited SessionPage.state].
  rewrite nth_error_app2, Nat.sub_diag by lia. cbn [nth_error option_map].
  cbn [SessionPage.state].
  destruct selected as [e|sel]; [|reflexivity].
  destruct st1; reflexivity.
Qed.

(** *** An answer that arrives during the turn *)

(** A task of a turn in flight, and the end of the turn, write the last
    entry or append one: entries that are not last stay. *)
Lemma task_keeps_prefix p t p' pre l :
  Spec.in_turn t = true \/ (exists thrown, t = SessionPage.returned thrown) ->
  SessionPage.messages (SessionPage.state p) = pre ++ l -> l <> [] ->
  SessionPage.task p t = Some p' ->
  exists l', SessionPage.messages (SessionPage.state p') = pre ++ l'
             /\ l' <> [].
Proof.
  intros Ht Hm Hl E.
  assert (R : forall m, exists l',
             Turn.replace_last (pre ++ l) m = pre ++ l' /\ l' <> []).
  { intros m. exists (removelast l ++ [m]). unfold Turn.replace_last.
    rewrite removelast_app, <- app_assoc by exact Hl.
    split; [reflexivity|]. intros H. apply app_eq_nil in H.
    destruct H; discriminate. }
  destruct t as [x y z|ev|th|i s|k sel now]; cbn [SessionPage.task] in E.
  - destruct Ht as [Ht|[th Ht]]; discriminate Ht.
  - destruct (SessionPage.turn p) as [f|]; [|discriminate].
    rewrite on_event_written in E. injection E as <-.
    cbn [SessionPage.state SessionPage.with_messages SessionPage.messages].
    rewrite Hm. apply R.
  - destruct (SessionPage.turn p) as [f|]; [|discriminate].
    injection E as <-.
    cbn [SessionPage.state SessionPage.with_messages SessionPage.messages].
    destruct th as [e|].
    + unfold Turn.on_catch. rewrite Hm. apply R.
    + exists l. split; assumption.
  - destruct Ht as [Ht|[th Ht]]; discriminate Ht.
  - destruct (nth_error (SessionPage.awaited p) k); [|discriminate].
    injection E as <-.
    cbn [SessionPage.state SessionPage.with_messages SessionPage.messages].
    rewrite Hm. destruct sel as [e|sel].
    + exists l. split; [reflexivity | assumption].
    + eexists. rewrite <- app_assoc. split; [reflexivity|].
      intros H. apply app_eq_nil in H. destruct H; discriminate.
Qed.

Lemma turn_keeps_prefix rest : forall p p' thrown pre l,
  forallb Spec.in_turn rest = true ->
  SessionPage.messages (SessionPage.state p) = pre ++ l -> l <> [] ->
  SessionPage.run p (rest ++ [SessionPage.returned thrown]) = Some p' ->
  exists l', SessionPage.messages (SessionPage.state p') = pre ++ l'
             /\ l' <> [].
Proof.
  induction rest as [|t r IH]; intros p p' thrown pre l Hall Hm Hl E;
    cbn [app SessionPage.run forallb] in *.
  - destruct (SessionPage.task p (SessionPage.returned thrown))
      as [p1|] eqn:E1; [|discriminate].
    injection E as <-.
    apply (task_keeps_prefix p (SessionPage.returned thrown) p1 pre l);
      eauto.
  - apply andb_true_iff in Hall. destruct Hall as [Ht Hr].
    destruct (SessionPage.task p t) as [p1|] eqn:E1; [|discriminate].
    destruct (task_keeps_prefix p t p1 pre l (or_introl Ht) Hm Hl E1)
      as (l1 & M1 & N1).
    exact (IH p1 p' thrown pre l1 Hr M1 N1 E).
Qed.

(** C3.  On the session page a question can be sent while a change of
    the selection still awaits its answer, since [handleSheetsChange]
    disables nothing.  When the answer arrives during the turn, its
    entry is appended after the entry the turn fills, which is then no
    longer the last one; the next chunk replaces the entry of the
    answer, not the entry of the turn, so two entries carry the id of
    the turn.  The first stays empty whatever the turn does afterwards,
    and shows the typing indicator for good. *)
Theorem C3_answer_lands_in_turn :
  forall (p : SessionPage.Page) (text : JS.jsstring) (now_a now_u : N)
         (k : nat) (newSheets : list JS.jsstring)
         (selected_sheets : list SessionApi.SheetData) (now : N)
         (c : JS.jsstring),
    SessionPage.turn p = None ->
    SessionPage.rejected (SessionPage.state p) = false ->
    nth_error (SessionPage.awaited p) k = Some newSheets ->
    let before := SessionPage.messages (SessionPage.state p) in
    let u := ChatMessageList.message (Turn.user_id now_u)
               ChatMessageList.user text in
    let a := ChatMessageList.message (Turn.assistant_id now_a)
               ChatMessageList.assistant [] in
    exists p1 p2,
      SessionPage.run p
        [SessionPage.send text now_a now_u;
         SessionPage.answered k (inr selected_sheets) now] = Some p1
      /\ SessionPage.isStreaming (SessionPage.state p1) = true
      /\ SessionPage.messages (SessionPage.state p1) =
         before ++ [u; a;
                    SessionPage.sheet_change_entry newSheets selected_sheets
                      now]
      /\ SessionPage.task p1 (SessionPage.callback (Turn.Chunk c)) = Some p2
      /\ SessionPage.messages (SessionPage.state p2) =
         before ++ [u; a;
                    ChatMessageList.message (Turn.assistant_id now_a)
                      ChatMessageList.assistant c]
      /\ ChatMessageList.showLoading a = true
      /\ (forall rest thrown p3,
            forallb Spec.in_turn rest = true ->
            SessionPage.run p2 (rest ++ [SessionPage.returned thrown])
              = Some p3 ->
            exists later,
              SessionPage.messages (SessionPage.state p3) =
                before ++ [u; a] ++ later
              /\ later <> []).
Proof.
  intros p text na nu k newSheets sel now c Hn Hr Hk before u a.
  cbn [SessionPage.run SessionPage.task]. rewrite Hr.
  cbn [SessionPage.awaited SessionPage.state]. rewrite Hk.
  eexists. eexists. split; [reflexivity|].
  cbn [SessionPage.state SessionPage.with_messages SessionPage.messages
         SessionPage.isStreaming SessionPage.turn SessionPage.assistantMsgId
         SessionPage.streamContent Turn.on_event].
  assert (A : forall x : ChatMessageList.ChatMessage,
             Turn.opened before text na nu ++ [x] = before ++ [u; a; x]).
  { intros x. unfold Turn.opened. rewrite <- app_assoc. reflexivity. }
  assert (B : forall x y : ChatMessageList.ChatMessage,
             Turn.replace_last (before ++ [u; a; x]) y = before ++ [u; a; y]).
  { intros x y.
    change (before ++ [u; a; x]) with (before ++ [u; a] ++ [x]).
    change (before ++ [u; a; y]) with (before ++ [u; a] ++ [y]).
    rewrite !app_assoc. apply replace_last_snoc. }
  split; [reflexivity|]. split; [apply A|].
  split; [reflexivity|].
  cbn [SessionPage.state SessionPage.with_messages SessionPage.messages].
  fold before. rewrite A, B. split; [reflexivity|].
  split; [reflexivity|].
  intros rest thrown p3 Hall E.
  apply (turn_keeps_prefix rest _ p3 thrown (before ++ [u; a])
           [ChatMessageList.message (Turn.assistant_id na)
              ChatMessageList.assistant c]) in E.
  - destruct E as (l' & M & N). exists l'. rewrite M, <- app_assoc.
    split; [reflexivity | exact N].
  - exact Hall.
  - cbn [SessionPage.state SessionPage.with_messages SessionPage.messages].
    rewrite <- app_assoc. reflexivity.
  - discriminate.
Qed.

(** The run of [Spec.late_answer] on a page that holds a workbook. *)
Lemma C3_answer_lands_in_turn_witness :
  SessionPage.run (SessionPage.at_rest Spec.session_two_files)
    [SessionPage.change 0 [JS.lit "A"; JS.lit "B"]]
    = Some Spec.awaiting_answer
  /\ SessionPage.turn Spec.awaiting_answer = None
  /\ SessionPage.rejected (SessionPage.state Spec.awaiting_answer) = false
  /\ nth_error (SessionPage.awaited Spec.awaiting_answer) 0
     = Some [JS.lit "A"; JS.lit "B"]
  /\ (exists p1 p2,
        SessionPage.run Spec.awaiting_answer
          [SessionPage.send (JS.lit "plot totals") 1000 1001;
           SessionPage.answered 0 (inr Spec.two_sheets) 1500] = Some p1
        /\ SessionPage.task p1
             (SessionPage.callback (Turn.Chunk (JS.lit "Here"))) = Some p2
        /\ SessionPage.messages (SessionPage.state p2) =
           [ChatMessageList.message (JS.lit "u-1001") ChatMessageList.user
              (JS.lit "plot totals");
            ChatMessageList.message (JS.lit "a-1000")
              ChatMessageList.assistant [];
            ChatMessageList.message (JS.lit "a-1000")
              ChatMessageList.assistant (JS.lit "Here")])
  /\ option_map (fun q => SessionPage.messages (SessionPage.state q))
       (SessionPage.run (SessionPage.at_rest Spec.session_two_files)
          Spec.late_answer) =
     Some [ChatMessageList.message (JS.lit "u-1001") ChatMessageList.user
             (JS.lit "plot totals");
           ChatMessageList.message (JS.lit "a-1000")
             ChatMessageList.assistant [];
           ChatMessageList.message (JS.lit "a-1000")
             ChatMessageList.assistant (JS.lit "Here")].
Proof.
  split; [reflexivity|]. split; [reflexivity|].
  split; [reflexivity|]. split; [reflexivity|]. split; [|reflexivity].
  destruct (C3_answer_lands_in_turn Spec.awaiting_answer
              (JS.lit "plot totals") 1000 1001 0
              [JS.lit "A"; JS.lit "B"] Spec.two_sheets 1500 (JS.lit "Here")
              eq_refl eq_refl eq_refl)
    as (p1 & p2 & E1 & _ & _ & E2 & M & _).
  exists p1, p2. split; [exact E1|]. split; [exact E2|]. exact M.
Defined.

(** ** C6: how a failed turn ends *)

Lemma startsWith_app p x : JS.startsWith (p ++ x) p = true.
Proof.
  induction p as [|c p IH]; cbn [JS.startsWith app]; [destruct x; reflexivity|].
  rewrite N.eqb_refl. exact IH.
Qed.

Lemma rev_last_event evs (ev : Turn.StreamEvent) r :
  rev evs = ev :: r -> evs = rev r ++ [ev].
Proof.
  intros H. rewrite <- (rev_involutive evs), H. reflexivity.
Qed.

Lemma settled_failure prev text na nu out msg :
  Spec.failure out = Some msg ->
  Turn.settled prev text na nu out =
    prev ++ [ChatMessageList.message (Turn.user_id nu)
               ChatMessageList.user text;
             ChatMessageList.message (Turn.assistant_id na)
               ChatMessageList.assistant
               (TextDecoder.text "生成失败：" ++ msg)].
Proof.
  unfold Spec.failure, Turn.settled. intros H.
  set (u := ChatMessageList.message (Turn.user_id nu)
              ChatMessageList.user text).
  assert (A : forall x, prev ++ [u; x] = (prev ++ [u]) ++ [x])
    by (intros; rewrite <- app_assoc; reflexivity).
  destruct (Turn.thrown out) as [e|].
  - inversion H; subst msg.
    destruct (streamed_shape prev text na nu (Turn.events out))
      as (sc & m & E & _). rewrite E. fold u.
    unfold Turn.on_catch. rewrite !A, replace_last_snoc. reflexivity.
  - destruct (rev (Turn.events out)) as [|[c|cfg|e] r] eqn:R;
      try discriminate.
    inversion H; subst msg. apply rev_last_event in R. rewrite R.
    unfold Turn.streamed. rewrite on_events_app.
    destruct (streamed_shape prev text na nu (rev r)) as (sc & m & E & _).
    unfold Turn.streamed in E. rewrite E. fold u.
    unfold Turn.on_events. cbn [fold_left Turn.on_event].
    rewrite !A, replace_last_snoc. reflexivity.
Qed.








(** ** C7: the registry of chart instances *)

Section Assoc.
Context {A : Type}.
Implicit Types (m : list (JS.jsstring * A)) (k : JS.jsstring) (v : A).

Lemma has_false_not_in m k :
  ChatMessageList.has m k = false <-> ~ In k (map fst m).
Proof.
  unfold ChatMessageList.has.
  induction m as [|[k' v'] m IH]; cbn [ChatMessageList.assoc map fst In].
  - tauto.
  - destruct (JS.eqb k' k) eqn:E.
    + apply eqb_eq in E. split; [discriminate | intros H; exfalso; auto].
    + apply eqb_neq in E. rewrite IH. tauto.
Qed.

Lemma assoc_set_keys m k v :
  map fst (ChatMessageList.assoc_set m k v) =
  if ChatMessageList.has m k then map fst m else map fst m ++ [k].
Proof.
  unfold ChatMessageList.has.
  induction m as [|[k' v'] m IH];
    cbn [ChatMessageList.assoc ChatMessageList.assoc_set map fst app]; auto.
  destruct (JS.eqb k' k); [reflexivity|].
  cbn [map fst]. rewrite IH.
  destruct (ChatMessageList.assoc k m); reflexivity.
Qed.

Lemma assoc_set_same m k v :
  ChatMessageList.assoc k (ChatMessageList.assoc_set m k v) = Some v.
Proof.
  induction m as [|[k' v'] m IH];
    cbn [ChatMessageList.assoc ChatMessageList.assoc_set].
  - rewrite eqb_refl; reflexivity.
  - destruct (JS.eqb k' k) eqn:E; cbn [ChatMessageList.assoc]; rewrite E;
      auto.
Qed.

Lemma assoc_set_NoDup m k v :
  NoDup (map fst m) -> NoDup (map fst (ChatMessageList.assoc_set m k v)).
Proof.
  intros H. rewrite assoc_set_keys.
  destruct (ChatMessageList.has m k) eqn:E; [exact H|].
  apply has_false_not_in in E.
  apply NoDup_rev in H. rewrite <- (rev_involutive (map fst m ++ [k])).
  apply NoDup_rev. rewrite rev_app_distr. cbn [rev app].
  constructor; [rewrite <- in_rev; exact E | exact H].
Qed.

Lemma assoc_remove_absent m k :
  ChatMessageList.has m k = false -> ChatMessageList.assoc_remove m k = m.
Proof.
  unfold ChatMessageList.has.
  induction m as [|[k' v'] m IH];
    cbn [ChatMessageList.assoc ChatMessageList.assoc_remove]; auto.
  destruct (JS.eqb k' k); [discriminate|].
  intros H. rewrite IH by exact H. reflexivity.
Qed.

Lemma assoc_remove_keys m k x :
  In x (map fst (ChatMessageList.assoc_remove m k)) -> In x (map fst m).
Proof.
  induction m as [|[k' v'] m IH];
    cbn [ChatMessageList.assoc_remove map fst In]; auto.
  destruct (JS.eqb k' k); cbn [map fst In]; tauto.
Qed.

Lemma assoc_remove_NoDup m k :
  NoDup (map fst m) -> NoDup (map fst (ChatMessageList.assoc_remove m k)).
Proof.
  induction m as [|[k' v'] m IH];
    cbn [ChatMessageList.assoc_remove map fst]; auto.
  intros H. inversion H as [|? ? Hn Hd]; subst.
  destruct (JS.eqb k' k); [exact Hd|].
  cbn [map fst]. constructor; [|apply IH, Hd].
  intros Hin. apply Hn. eapply assoc_remove_keys, Hin.
Qed.

Lemma assoc_remove_gone m k :
  NoDup (map fst m) ->
  ChatMessageList.has (ChatMessageList.assoc_remove m k) k = false.
Proof.
  induction m as [|[k' v'] m IH];
    cbn [ChatMessageList.assoc_remove map fst]; auto.
  intros H. inversion H as [|? ? Hn Hd]; subst.
  destruct (JS.eqb k' k) eqn:E.
  - apply eqb_eq in E. subst k'. apply has_false_not_in, Hn.
  - unfold ChatMessageList.has in *. cbn [ChatMessageList.assoc].
    rewrite E. apply IH, Hd.
Qed.

Lemma one_binding m k :
  NoDup (map fst m) -> ChatMessageList.has m k = true ->
  List.length (filter (fun kv => JS.eqb (fst kv) k) m) = 1%nat.
Proof.
  unfold ChatMessageList.has.
  induction m as [|[k' v'] m IH];
    cbn [ChatMessageList.assoc filter map fst]; [discriminate|].
  intros H Hk. inversion H as [|? ? Hn Hd]; subst.
  destruct (JS.eqb k' k) eqn:E.
  - apply eqb_eq in E. subst k'. cbn [List.length]. f_equal.
    assert (Z : filter (fun kv : JS.jsstring * A => JS.eqb (fst kv) k) m
                = []).
    { clear -Hn. induction m as [|[k2 v2] m IH]; cbn [filter fst]; auto.
      cbn [map fst In] in Hn.
      destruct (JS.eqb k2 k) eqn:E2.
      - apply eqb_eq in E2. tauto.
      - apply IH. tauto. }
    rewrite Z. reflexivity.
  - apply IH; assumption.
Qed.
End Assoc.

Lemma setOption_last live h x s :
  (forall o, ~ In (h, o) live) ->
  ChatMessageList.setOption (live ++ [(h, x)]) h s = live ++ [(h, Some s)].
Proof.
  induction live as [|[h' o'] live IH]; intros H;
    cbn [ChatMessageList.setOption app].
  - rewrite Nat.eqb_refl. reflexivity.
  - destruct (Nat.eqb_spec h' h) as [->|N].
    + exfalso. apply (H o'). left; reflexivity.
    + rewrite IH; [reflexivity|]. intros o Hin. apply (H o). right; exact Hin.
Qed.

Lemma dispose_last live h x :
  (forall o, ~ In (h, o) live) ->
  ChatMessageList.dispose (live ++ [(h, x)]) h = live.
Proof.
  unfold ChatMessageList.dispose.
  induction live as [|[h' o'] live IH]; intros H; cbn [filter app].
  - rewrite Nat.eqb_refl. reflexivity.
  - destruct (Nat.eqb_spec h' h) as [->|N]; cbn [negb].
    + exfalso. apply (H o'). left; reflexivity.
    + rewrite IH; [reflexivity|]. intros o Hin. apply (H o). right; exact Hin.
Qed.

Lemma wf_empty_view : Spec.wf_view ChatMessageList.empty_view.
Proof. repeat split; cbn; try constructor. intros h o []. Qed.

Lemma wf_mount v k : Spec.wf_view v -> Spec.wf_view (ChatMessageList.mount v k).
Proof.
  intros (H1 & H2 & H3). repeat split; cbn; auto.
  apply assoc_set_NoDup, H2.
Qed.

Lemma no_binding m k :
  ChatMessageList.has m k = false -> Spec.records_for m k = 0%nat.
Proof.
  intros G. apply has_false_not_in in G. unfold Spec.records_for.
  induction m as [|[k' r] m IH]; cbn [filter fst List.length]; auto.
  cbn [map fst In] in G. destruct (JS.eqb k' k) eqn:E.
  - apply eqb_eq in E. tauto.
  - apply IH. tauto.
Qed.

(** C7.  The chart of an entry, mounted, drawn, and rendered again with
    another configuration.  [Map.set] for an id the registry holds
    keeps the keys in their order and stores the new record, and
    [handleInstanceDestroy] for an id it does not hold changes nothing.
    But the component never registers twice in a row: when it renders
    again the cleanup runs first, so the first instance is disposed of
    and its record deleted, [echarts.init] runs a second time, and the
    record of the second instance is added at the end of the registry.
    One instance is live and one record is held afterwards; unmounting
    leaves no record for the entry and no instance, and unmounting
    again changes nothing. *)
Theorem C7_rerender_second_instance :
  forall (v : ChatMessageList.View) (id : JS.jsstring)
         (c1 c2 s1 s2 : JS.jsval),
    Spec.wf_view v ->
    ChatMessageList.assoc id (ChatMessageList.mounted v) = Some None ->
    JS.truthy c1 = true -> JS.truthy c2 = true ->
    ChatMessageList.safeConfig c1 = Some s1 ->
    ChatMessageList.safeConfig c2 = Some s2 ->
    let h := ChatMessageList.created v in
    exists v1 v2,
      ChatMessageList.chart_effect v id c1 = Some v1
      /\ ChatMessageList.rerender v1 id c2 = Some v2
      /\ ChatMessageList.created v1 = S h
      /\ ChatMessageList.live v1 = ChatMessageList.live v ++ [(h, Some s1)]
      /\ ChatMessageList.chartInstances v1 =
         ChatMessageList.Map_set (ChatMessageList.chartInstances v) id
           (Spec.record id h c1)
      /\ ChatMessageList.created v2 = S (S h)
      /\ ChatMessageList.live v2 =
         ChatMessageList.live v ++ [(S h, Some s2)]
      /\ ChatMessageList.chartInstances v2 =
         ChatMessageList.Map_delete (ChatMessageList.chartInstances v1) id
         ++ [(id, Spec.record id (S h) c2)]
      /\ Spec.records_for (ChatMessageList.chartInstances v2) id = 1%nat
      /\ (let v3 := ChatMessageList.unmount v2 id in
          ChatMessageList.Map_has (ChatMessageList.chartInstances v3) id
            = false
          /\ Spec.records_for (ChatMessageList.chartInstances v3) id = 0%nat
          /\ ChatMessageList.live v3 = ChatMessageList.live v
          /\ ChatMessageList.unmount v3 id = v3
          /\ fst (ChatMessageList.handleInstanceDestroy
                    (ChatMessageList.chartInstances v3) id)
             = ChatMessageList.chartInstances v3)
      /\ (forall m k,
            ChatMessageList.Map_has m k = false ->
            fst (ChatMessageList.handleInstanceDestroy m k) = m)
      /\ (forall m k h1 h2 d1 d2,
            let m1 := fst (ChatMessageList.handleInstanceReady m k h1 d1) in
            let m2 := fst (ChatMessageList.handleInstanceReady m1 k h2 d2) in
            map fst m2 = map fst m1
            /\ ChatMessageList.assoc k m2 = Some (Spec.record k h2 d2)).
Proof.
  intros v id c1 c2 s1 s2 (W1 & W2 & W3) Hm T1 T2 S1 S2 h.
  assert (Hh : forall o, ~ In (h, o) (ChatMessageList.live v)).
  { intros o Hin. apply W3 in Hin. unfold h in Hin. lia. }
  assert (Hh' : forall o, ~ In (S h, o) (ChatMessageList.live v)).
  { intros o Hin. apply W3 in Hin. fold h in Hin. lia. }
  set (ci1 := ChatMessageList.assoc_set (ChatMessageList.chartInstances v) id
                (Spec.record id h c1)).
  set (mo1 := ChatMessageList.assoc_set (ChatMessageList.mounted v) id
                (Some h)).
  set (v1 := {| ChatMessageList.created := S h;
                ChatMessageList.live :=
                  ChatMessageList.live v ++ [(h, Some s1)];
                ChatMessageList.mounted := mo1;
                ChatMessageList.chartInstances := ci1;
                ChatMessageList.reported :=
                  Some (List.length (ChatMessageList.Map_values ci1)) |}).
  assert (E1 : ChatMessageList.chart_effect v id c1 = Some v1).
  { unfold ChatMessageList.chart_effect. rewrite Hm, T1. cbn [negb].
    unfold ChatMessageList.handleInstanceReady. rewrite S1.
    cbn [ChatMessageList.created ChatMessageList.live
           ChatMessageList.mounted ChatMessageList.chartInstances
           ChatMessageList.reported].
    fold h. rewrite setOption_last by exact Hh. reflexivity. }
  assert (N1 : NoDup (map fst ci1)) by (apply assoc_set_NoDup, W1).
  assert (G1 : ChatMessageList.has (ChatMessageList.assoc_remove ci1 id) id
               = false) by (apply assoc_remove_gone, N1).
  set (ci2 := ChatMessageList.assoc_set (ChatMessageList.assoc_remove ci1 id)
                id (Spec.record id (S h) c2)).
  set (mo2 := ChatMessageList.assoc_set
                (ChatMessageList.assoc_set mo1 id None) id (Some (S h))).
  set (v2 := {| ChatMessageList.created := S (S h);
                ChatMessageList.live :=
                  ChatMessageList.live v ++ [(S h, Some s2)];
                ChatMessageList.mounted := mo2;
                ChatMessageList.chartInstances := ci2;
                ChatMessageList.reported :=
                  Some (List.length (ChatMessageList.Map_values ci2)) |}).
  assert (E2 : ChatMessageList.rerender v1 id c2 = Some v2).
  { unfold ChatMessageList.rerender, ChatMessageList.cleanup.
    cbn [ChatMessageList.mounted v1]. unfold mo1.
    rewrite assoc_set_same.
    unfold ChatMessageList.handleInstanceDestroy,
      ChatMessageList.Map_delete, ChatMessageList.chart_effect.
    cbn [ChatMessageList.mounted ChatMessageList.live
           ChatMessageList.created ChatMessageList.chartInstances v1].
    rewrite assoc_set_same, T2. cbn [negb].
    unfold ChatMessageList.handleInstanceReady. rewrite S2.
    cbn [ChatMessageList.created ChatMessageList.live
           ChatMessageList.mounted ChatMessageList.chartInstances
           ChatMessageList.reported].
    rewrite dispose_last by exact Hh.
    rewrite setOption_last by exact Hh'. reflexivity. }
  assert (N2 : NoDup (map fst ci2))
    by (apply assoc_set_NoDup, assoc_remove_NoDup, N1).
  assert (M2 : NoDup (map fst mo2))
    by (do 3 apply assoc_set_NoDup; exact W2).
  exists v1, v2. split; [exact E1|]. split; [exact E2|].
  split; [reflexivity|]. split; [reflexivity|]. split; [reflexivity|].
  split; [reflexivity|]. split; [reflexivity|].
  split.
  { cbn [ChatMessageList.chartInstances v2 v1]. unfold ci2.
    apply assoc_set_fresh, G1. }
  split.
  { unfold Spec.records_for. apply one_binding; [exact N2|].
    cbn [ChatMessageList.chartInstances v2].
    unfold ChatMessageList.has, ci2. rewrite assoc_set_same. reflexivity. }
  split.
  { cbn zeta.
    set (v3 := {| ChatMessageList.created := S (S h);
                  ChatMessageList.live := ChatMessageList.live v;
                  ChatMessageList.mounted :=
                    ChatMessageList.assoc_remove mo2 id;
                  ChatMessageList.chartInstances :=
                    ChatMessageList.assoc_remove ci2 id;
                  ChatMessageList.reported :=
                    Some (List.length
                            (ChatMessageList.Map_values
                               (ChatMessageList.assoc_remove ci2 id))) |}).
    assert (E3 : ChatMessageList.unmount v2 id = v3).
    { unfold ChatMessageList.unmount.
      cbn [ChatMessageList.mounted v2]. unfold mo2.
      rewrite assoc_set_same.
      unfold ChatMessageList.handleInstanceDestroy,
        ChatMessageList.Map_delete.
      cbn [ChatMessageList.chartInstances ChatMessageList.live
             ChatMessageList.created v2].
      rewrite dispose_last by exact Hh'. reflexivity. }
    rewrite E3.
    pose proof (assoc_remove_gone ci2 id N2) as G.
    pose proof (assoc_remove_gone mo2 id M2) as G2.
    cbn [ChatMessageList.chartInstances ChatMessageList.live v3].
    split; [exact G|]. split; [apply no_binding, G|].
    split; [reflexivity|].
    split.
    - unfold ChatMessageList.unmount. cbn [ChatMessageList.mounted v3].
      unfold ChatMessageList.has in G2.
      destruct (ChatMessageList.assoc id (ChatMessageList.assoc_remove mo2 id))
        eqn:Q; [discriminate|]. reflexivity.
    - unfold ChatMessageList.handleInstanceDestroy,
        ChatMessageList.Map_delete. cbn [fst].
      apply assoc_remove_absent, G. }
  split.
  { intros m k Hk. unfold ChatMessageList.handleInstanceDestroy,
      ChatMessageList.Map_delete. cbn [fst].
    apply assoc_remove_absent, Hk. }
  intros m k h1 h2 d1 d2.
  unfold ChatMessageList.handleInstanceReady, ChatMessageList.Map_set.
  cbn [fst]. split.
  - rewrite (assoc_set_keys (ChatMessageList.assoc_set m k _) k).
    unfold ChatMessageList.has. rewrite assoc_set_same. reflexivity.
  - apply assoc_set_same.
Qed.

Lemma C7_rerender_second_instance_witness :
  Spec.wf_view Spec.one_mounted
  /\ exists v1 v2,
       ChatMessageList.chart_effect Spec.one_mounted (JS.lit "a-1")
         Spec.bars = Some v1
       /\ ChatMessageList.rerender v1 (JS.lit "a-1") Spec.bars_wide
          = Some v2
       /\ ChatMessageList.created v2 = 2%nat
       /\ map fst (ChatMessageList.live v2) = [1%nat]
       /\ map ChatMessageList.instance
            (ChatMessageList.Map_values (ChatMessageList.chartInstances v2))
          = [1%nat]
       /\ Spec.records_for
            (ChatMessageList.chartInstances
               (ChatMessageList.unmount v2 (JS.lit "a-1"))) (JS.lit "a-1")
          = 0%nat
       /\ ChatMessageList.live (ChatMessageList.unmount v2 (JS.lit "a-1"))
          = []
       /\ map (fun evs =>
                 ChatMessageList.chartConfig
                   (Spec.final
                      (snd (Turn.streamed [] (JS.lit "plot") 1 2 evs))))
            [[Turn.Chunk (JS.lit "Here"); Turn.Done Spec.bars];
             [Turn.Chunk (JS.lit "Here"); Turn.Done Spec.bars;
              Turn.Done Spec.bars_wide]]
          = [Some Spec.bars; Some Spec.bars_wide].
Proof.
  assert (W : Spec.wf_view Spec.one_mounted)
    by (apply wf_mount, wf_empty_view).
  split; [exact W|].
  destruct (C7_rerender_second_instance Spec.one_mounted (JS.lit "a-1")
              Spec.bars Spec.bars_wide _ _ W eq_refl eq_refl eq_refl
              eq_refl eq_refl)
    as (v1 & v2 & E1 & E2 & _ & _ & C1 & C & L & R & _ & (_ & Z & L3 & _) & _).
  exists v1, v2. split; [exact E1|]. split; [exact E2|].
  split; [exact C|]. split; [rewrite L; reflexivity|].
  split; [rewrite R, C1; reflexivity|]. split; [exact Z|].
  split; [exact L3 | reflexivity].
Defined.

(** ** C9: the option handed to the chart *)

Lemma lookup_set_same ps k v : JS.lookup k (JS.set_prop ps k v) = Some v.
Proof.
  induction ps as [|[k' v'] ps IH]; cbn [JS.lookup JS.set_prop].
  - rewrite eqb_refl; reflexivity.
  - destruct (JS.eqb k' k) eqn:E; cbn [JS.lookup]; rewrite E; auto.
Qed.

Lemma lookup_set_other ps k k' v :
  JS.eqb k k' = false -> JS.lookup k' (JS.set_prop ps k v) = JS.lookup k' ps.
Proof.
  intros N.
  induction ps as [|[k2 v2] ps IH]; cbn [JS.lookup JS.set_prop].
  - rewrite N; reflexivity.
  - destruct (JS.eqb k2 k) eqn:E; cbn [JS.lookup].
    + apply eqb_eq in E. subst k2. rewrite N. reflexivity.
    + rewrite IH. reflexivity.
Qed.

Lemma prop_set_same ps k v : ChatMessageList.prop (JS.set_prop ps k v) k = v.
Proof.
  unfold ChatMessageList.prop, JS.get_opt, JS.get.
  rewrite lookup_set_same. reflexivity.
Qed.

Lemma prop_set_other ps k k' v :
  JS.eqb k k' = false ->
  ChatMessageList.prop (JS.set_prop ps k v) k' = ChatMessageList.prop ps k'.
Proof.
  intros N. unfold ChatMessageList.prop, JS.get_opt, JS.get.
  rewrite lookup_set_other by exact N. reflexivity.
Qed.

Lemma num_ltb_irrefl m : JS.num_ltb (JS.of_Z m) (JS.of_Z m) = false.
Proof. unfold JS.num_ltb, JS.of_Z. apply Z.ltb_irrefl. Qed.

Lemma currentTop_set ps m :
  ChatMessageList.currentTop
    (JS.Obj (JS.set_prop ps (JS.lit "top") (JS.Num (JS.of_Z m)))) = JS.of_Z m.
Proof.
  unfold ChatMessageList.currentTop.
  change (JS.get_opt (JS.Obj ?l) ?k) with (ChatMessageList.prop l k).
  rewrite prop_set_same. reflexivity.
Qed.

(** The grid of a chart that is no radar. *)
Lemma grid_top_spec o m :
  let safe := JS.Obj (ChatMessageList.grid_top false o m) in
  let grid := ChatMessageList.prop o (JS.lit "grid") in
  JS.num_ltb (ChatMessageList.currentTop (JS.get_opt safe (JS.lit "grid")))
    (JS.of_Z m) = false
  /\ (JS.truthy grid = false -> Spec.top_of safe = JS.Num (JS.of_Z m))
  /\ (JS.truthy grid = true ->
      JS.num_ltb (ChatMessageList.currentTop grid) (JS.of_Z m) = true ->
      Spec.top_of safe = JS.Num (JS.of_Z m))
  /\ (JS.truthy grid = true ->
      JS.num_ltb (ChatMessageList.currentTop grid) (JS.of_Z m) = false ->
      safe = JS.Obj o).
Proof.
  cbn zeta. unfold ChatMessageList.grid_top, Spec.top_of. cbn [negb].
  change (JS.get_opt (JS.Obj ?l) ?k) with (ChatMessageList.prop l k).
  destruct (JS.truthy (ChatMessageList.prop o (JS.lit "grid"))) eqn:T;
    cbn [negb].
  - destruct (JS.num_ltb
                (ChatMessageList.currentTop
                   (ChatMessageList.prop o (JS.lit "grid"))) (JS.of_Z m))
      eqn:L.
    + rewrite prop_set_same.
      change (JS.get_opt (JS.Obj ?l) ?k) with (ChatMessageList.prop l k).
      rewrite currentTop_set, prop_set_same, num_ltb_irrefl.
      repeat split; auto; discriminate.
    + rewrite L. repeat split; auto; discriminate.
  - rewrite prop_set_same.
    change (JS.get_opt (JS.Obj ?l) ?k) with (ChatMessageList.prop l k).
    assert (C : forall rest,
               ChatMessageList.currentTop
                 (JS.Obj ((JS.lit "top", JS.Num (JS.of_Z m)) :: rest))
               = JS.of_Z m) by reflexivity.
    rewrite C, num_ltb_irrefl. repeat split; auto; discriminate.
Qed.

Lemma minTop_plain title legend o m :
  ChatMessageList.minTop title legend false o = Some m ->
  m = (if legend
       then match ChatMessageList.longer_than (Spec.legend_data o) 4 with
            | Some true => 100
            | _ => if title then 80 else 60
            end
       else 60)%Z.
Proof.
  unfold ChatMessageList.minTop, Spec.legend_data.
  destruct title, legend; cbn [andb negb];
    try destruct (ChatMessageList.longer_than _ 4) as [[|]|];
    intros H; inversion H; reflexivity.
Qed.

(** C9, as the code has it.  For a chart that is no radar the option
    set on the instance has a [grid.top] that is not below the minimum
    for its title and legend: 100 for a legend of more than 4 items,
    else 80 with a title and a legend, else 60; a grid that is absent,
    or whose top is below the minimum, gets the minimum as its top, and
    any other grid is left as it is.  For a radar chart the grid is left
    as it is; when its legend has more than 3 items the legend is laid
    out vertically at left 10 and top 50, and the radar gets the centre
    [60%, 55%] and the radius 55% where it has none of its own. *)
Theorem C9_option_normalised :
  forall (config safe : JS.jsval),
    ChatMessageList.safeConfig config = Some safe ->
    let o := JS.own_props config in
    (ChatMessageList.isRadarChart o = false ->
     exists m,
       ChatMessageList.minTop (ChatMessageList.hasTitle o)
         (ChatMessageList.hasLegend o) false o = Some m
       /\ m = (if ChatMessageList.hasLegend o
               then match ChatMessageList.longer_than (Spec.legend_data o) 4
                    with
                    | Some true => 100
                    | _ => if ChatMessageList.hasTitle o then 80 else 60
                    end
               else 60)%Z
       /\ JS.num_ltb
           (ChatMessageList.currentTop (JS.get_opt safe (JS.lit "grid")))
           (JS.of_Z m) = false
       /\ (JS.truthy (ChatMessageList.prop o (JS.lit "grid")) = false ->
           Spec.top_of safe = JS.Num (JS.of_Z m))
       /\ (JS.truthy (ChatMessageList.prop o (JS.lit "grid")) = true ->
           JS.num_ltb
             (ChatMessageList.currentTop
                (ChatMessageList.prop o (JS.lit "grid"))) (JS.of_Z m) = true ->
           Spec.top_of safe = JS.Num (JS.of_Z m))
       /\ (JS.truthy (ChatMessageList.prop o (JS.lit "grid")) = true ->
           JS.num_ltb
             (ChatMessageList.currentTop
                (ChatMessageList.prop o (JS.lit "grid"))) (JS.of_Z m) = false ->
           safe = JS.Obj o))
    /\ (ChatMessageList.isRadarChart o = true ->
        JS.get_opt safe (JS.lit "grid") = ChatMessageList.prop o (JS.lit "grid")
        /\ (ChatMessageList.hasLegend o = true ->
            ChatMessageList.longer_than (Spec.legend_data o) 3 = Some true ->
            let legend := JS.get_opt safe (JS.lit "legend") in
            let radar := JS.get_opt safe (JS.lit "radar") in
            JS.get_opt legend (JS.lit "orient") = JS.Str (JS.lit "vertical")
            /\ JS.get_opt legend (JS.lit "left") = JS.Num (JS.of_Z 10)
            /\ JS.get_opt legend (JS.lit "top") = JS.Num (JS.of_Z 50)
            /\ JS.get_opt radar (JS.lit "center") =
               JS.or_else
                 (JS.get_opt (ChatMessageList.prop o (JS.lit "radar"))
                    (JS.lit "center"))
                 (JS.Arr [JS.Str (JS.lit "60%"); JS.Str (JS.lit "55%")])
            /\ JS.get_opt radar (JS.lit "radius") =
               JS.or_else
                 (JS.get_opt (ChatMessageList.prop o (JS.lit "radar"))
                    (JS.lit "radius"))
                 (JS.Str (JS.lit "55%")))
        /\ (ChatMessageList.hasLegend o = false
            \/ ChatMessageList.longer_than (Spec.legend_data o) 3
               = Some false ->
            safe = JS.Obj o)).
Proof.
  intros config safe H o. unfold ChatMessageList.safeConfig in H. fold o in H.
  split.
  - intros R. rewrite R in H. unfold ChatMessageList.radar_layout in H.
    cbn [andb] in H.
    destruct (ChatMessageList.minTop (ChatMessageList.hasTitle o)
                (ChatMessageList.hasLegend o) false o) as [m|] eqn:M;
      [|discriminate].
    inversion H; subst safe. exists m. split; [reflexivity|].
    split; [apply minTop_plain, M|]. apply grid_top_spec.
  - intros R. rewrite R in H. unfold ChatMessageList.radar_layout in H.
    cbn [andb] in H. fold (Spec.legend_data o) in H.
    destruct (ChatMessageList.hasLegend o) eqn:L.
    + destruct (ChatMessageList.longer_than (Spec.legend_data o) 3)
        as [[|]|] eqn:Q; [| |discriminate].
      * (* the legend is laid out again *)
        unfold ChatMessageList.minTop in H. cbn [negb andb] in H.
        destruct (ChatMessageList.hasTitle o) in H;
          inversion H; subst safe;
          unfold ChatMessageList.grid_top; cbn [negb];
          change (JS.get_opt (JS.Obj ?l) ?k) with (ChatMessageList.prop l k);
          (split; [|split; [|intros [X|X]; discriminate]]);
          try (rewrite !prop_set_other by reflexivity; reflexivity);
          intros _ _; cbn zeta;
          rewrite prop_set_same;
          rewrite (prop_set_other _ (JS.lit "radar") (JS.lit "legend"))
            by reflexivity;
          rewrite prop_set_same;
          change (JS.get_opt (JS.Obj ?l) ?k) with (ChatMessageList.prop l k);
          rewrite !prop_set_same;
          rewrite !(prop_set_other _ (JS.lit "top")) by reflexivity;
          rewrite !prop_set_same;
          rewrite !(prop_set_other _ (JS.lit "left")) by reflexivity;
          rewrite !(prop_set_other _ (JS.lit "radius")) by reflexivity;
          rewrite !prop_set_same;
          rewrite !(prop_set_other _ (JS.lit "legend") (JS.lit "radar"))
            by reflexivity;
          repeat split; reflexivity.
      * unfold ChatMessageList.minTop in H. cbn [negb andb] in H.
        destruct (ChatMessageList.hasTitle o) in H;
          inversion H; subst safe;
          unfold ChatMessageList.grid_top; cbn [negb];
          (split; [reflexivity|]); (split; [discriminate|]);
          reflexivity.
    + unfold ChatMessageList.minTop in H. cbn [negb andb] in H.
      destruct (ChatMessageList.hasTitle o) in H;
        inversion H; subst safe;
        unfold ChatMessageList.grid_top; cbn [negb];
        (split; [reflexivity|]); (split; [discriminate|]);
        reflexivity.
Qed.

Lemma C9_option_normalised_witness :
  exists safe,
    ChatMessageList.safeConfig Spec.bars = Some safe
    /\ Spec.top_of safe = JS.Num (JS.of_Z 60).
Proof.
  eexists. split; [reflexivity|].
  destruct (C9_option_normalised Spec.bars _ eq_refl) as [H _].
  destruct (H eq_refl) as (m & _ & Em & _ & T & _).
  rewrite (T eq_refl), Em. reflexivity.
Defined.

(** A radar chart with four legend items and a centre of its own keeps
    its centre: the legend is laid out vertically, the plot area is
    where the configuration put it. *)
Lemma C9_counterexample :
  exists safe,
    ChatMessageList.safeConfig Spec.radar_own_centre = Some safe
    /\ ChatMessageList.isRadarChart (JS.own_props Spec.radar_own_centre)
       = true
    /\ ChatMessageList.longer_than
         (Spec.legend_data (JS.own_props Spec.radar_own_centre)) 3
       = Some true
    /\ JS.get_opt (JS.get_opt safe (JS.lit "legend")) (JS.lit "orient")
       = JS.Str (JS.lit "vertical")
    /\ JS.get_opt (JS.get_opt safe (JS.lit "radar")) (JS.lit "center")
       = JS.Arr [JS.Str (JS.lit "50%"); JS.Str (JS.lit "50%")]
    /\ JS.get_opt (JS.get_opt safe (JS.lit "radar")) (JS.lit "center")
       <> JS.Arr [JS.Str (JS.lit "60%"); JS.Str (JS.lit "55%")].
Proof.
  eexists. split; [reflexivity|]. repeat split; discriminate.
Qed.

(** ** The views stay well formed *)

Lemma setOption_handles live h s x o :
  In (x, o) (ChatMessageList.setOption live h s) ->
  exists o', In (x, o') live.
Proof.
  induction live as [|[h' o'] live IH]; cbn [ChatMessageList.setOption In];
    [tauto|].
  destruct (Nat.eqb h' h); cbn [In].
  - intros [E|Hin]; [inversion E; subst; eauto | eauto].
  - intros [E|Hin]; [inversion E; subst; eauto|].
    destruct (IH Hin) as [o2 H2]. eauto.
Qed.

Lemma wf_chart_effect v id config v' :
  Spec.wf_view v ->
  ChatMessageList.chart_effect v id config = Some v' ->
  Spec.wf_view v'.
Proof.
  intros (W1 & W2 & W3). unfold ChatMessageList.chart_effect.
  destruct (ChatMessageList.assoc id (ChatMessageList.mounted v)) as [ref|];
    [|intros H; inversion H; subst; repeat split; auto].
  destruct (JS.truthy config); cbn [negb];
    [|intros H; inversion H; subst; repeat split; auto].
  destruct ref as [h|].
  - destruct (ChatMessageList.safeConfig config); [|discriminate].
    intros H; inversion H; subst. repeat split; cbn; auto.
    intros x o Hin. apply setOption_handles in Hin.
    destruct Hin as [o' Hin]. eapply W3, Hin.
  - unfold ChatMessageList.handleInstanceReady.
    destruct (ChatMessageList.safeConfig config); [|discriminate].
    intros H; inversion H; subst. repeat split; cbn.
    + apply assoc_set_NoDup, W1.
    + apply assoc_set_NoDup, W2.
    + intros x o Hin. apply setOption_handles in Hin.
      destruct Hin as [o' Hin]. apply in_app_or in Hin.
      destruct Hin as [Hin|[E|[]]].
      * apply W3 in Hin. lia.
      * inversion E; subst. lia.
Qed.

Lemma wf_unmount v id : Spec.wf_view v -> Spec.wf_view (ChatMessageList.unmount v id).
Proof.
  intros (W1 & W2 & W3). unfold ChatMessageList.unmount.
  destruct (ChatMessageList.assoc id (ChatMessageList.mounted v)) as [ref|];
    [|repeat split; auto].
  unfold ChatMessageList.handleInstanceDestroy, ChatMessageList.Map_delete.
  repeat split; cbn.
  - apply assoc_remove_NoDup, W1.
  - apply assoc_remove_NoDup, W2.
  - intros x o Hin. destruct ref as [h|]; [|eapply W3, Hin].
    unfold ChatMessageList.dispose in Hin. apply filter_In in Hin.
    eapply W3, (proj1 Hin).
Qed.

(** ** The scenario of a whole turn *)

(** The frames of the scenario, decoded and applied by [handleSend],
    leave the assistant entry with the text of both chunks and the chart
    of the [done] frame. *)
Example scenario_turn :
  option_map
    (fun out =>
       SessionPage.messages
         (SessionPage.handleSend Spec.session0 (JS.lit "plot totals")
            1000 1001 out))
    (Turn.outcome_of (Api.streaming Spec.scenario_chunks))
  = Some
      [ChatMessageList.message (JS.lit "u-1001") ChatMessageList.user
         (JS.lit "plot totals");
       {| ChatMessageList.id := JS.lit "a-1000";
          ChatMessageList.role := ChatMessageList.assistant;
          ChatMessageList.content := JS.lit "Here it is";
          ChatMessageList.chartConfig :=
            Some (JS.Obj [(JS.lit "title",
                           JS.Obj [(JS.lit "text",
                                    JS.Str (JS.lit "Totals"))])]);
          ChatMessageList.isLoading := None |}].
Proof. vm_compute. reflexivity. Qed.

(** ** The host functions on known inputs *)

Example parse_nested :
  Spec.json "{'a':[1,-2.5e3,true,null],'a':{'b':'x'}}" =
  Some (JS.Obj [(JS.lit "a", JS.Obj [(JS.lit "b", JS.Str (JS.lit "x"))])]).
Proof. reflexivity. Qed.

Example parse_rejects :
  map Spec.json ["01"; "[1,]"; "{'a':1,}"; ""; "1 2"; "-"; "nul"; "'a"]%string
  = [None; None; None; None; None; None; None; None].
Proof. reflexivity. Qed.

Example parse_escape :
  JSON.parse (JS.lit "[1e2, 0.50]") =
  Some (JS.Arr [JS.Num (JS.Dec 1 2); JS.Num (JS.Dec 50 (-2))]).
Proof. reflexivity. Qed.

Example parseInt_examples :
  map (fun s => JS.parseInt (JS.lit s))
      ["10%"; "  42px"; "-7"; "0x1F"; "top"; ""]%string
  = [JS.of_Z 10; JS.of_Z 42; JS.of_Z (-7); JS.of_Z 31; JS.NaN; JS.NaN].
Proof. reflexivity. Qed.

Example truthy_numbers :
  map JS.truthy
      [JS.Num (JS.Dec 0 0); JS.Num (JS.Dec 0 5); JS.Num (JS.Dec 5 (-324));
       JS.Num (JS.Dec 2 (-324)); JS.Num JS.NaN; JS.Str []; JS.Arr []]
  = [false; false; true; false; false; false; true].
Proof. vm_compute. reflexivity. Qed.

(** A character of three bytes cut after its first byte decodes as in
    one piece; a byte order mark at the start of the stream is dropped. *)
Example decode_cut_character :
  let bytes := TextDecoder.bytes_of "生成" in
  let '(d1, s1) := TextDecoder.decode TextDecoder.fresh (firstn 1 bytes) in
  let '(_, s2) := TextDecoder.decode d1 (skipn 1 bytes) in
  s1 ++ s2 = [0x751F; 0x6210]%N.
Proof. reflexivity. Qed.

Example decode_bom :
  Spec.decoded ([Byte.xef; Byte.xbb; Byte.xbf] ++ TextDecoder.bytes_of "a")
  = JS.lit "a".
Proof. reflexivity. Qed.

Example decode_invalid :
  Spec.decoded [Byte.xc3; Byte.x28; Byte.xff]
  = [0xFFFD; 0x28; 0xFFFD]%N.
Proof. reflexivity. Qed.

(** ** The option is defined for every legend that is a list *)

Lemma longer_than_defined v k :
  (forall o, v <> JS.Obj o) ->
  exists b, ChatMessageList.longer_than v k = Some b.
Proof.
  intros H. unfold ChatMessageList.longer_than.
  destruct (JS.truthy v) eqn:T; [|eauto].
  destruct v as [| |b|n|s|xs|o]; try discriminate.
  - cbn. eauto.
  - cbn. eauto.
  - unfold JS.get_opt, JS.get. rewrite eqb_refl. cbn. eauto.
  - unfold JS.get_opt, JS.get. rewrite eqb_refl. cbn. eauto.
  - exfalso. exact (H o eq_refl).
Qed.

(** [safeConfig] gives an option whenever [legend.data] is not an object
    with properties of its own: a list, a string, or nothing. *)
Lemma safeConfig_defined config :
  (forall o, Spec.legend_data (JS.own_props config) <> JS.Obj o) ->
  exists safe, ChatMessageList.safeConfig config = Some safe.
Proof.
  intros H. unfold ChatMessageList.safeConfig, ChatMessageList.radar_layout,
    ChatMessageList.minTop.
  destruct (longer_than_defined _ 3 H) as [b3 E3].
  destruct (longer_than_defined _ 4 H) as [b4 E4].
  unfold Spec.legend_data in E3, E4.
  destruct (ChatMessageList.isRadarChart (JS.own_props config));
    destruct (ChatMessageList.hasLegend (JS.own_props config));
    cbn [andb negb]; rewrite ?E3, ?E4;
    destruct b3, b4, (ChatMessageList.hasTitle (JS.own_props config));
    eauto.
Qed.

(* ================================================================== *)
(** * Further properties of the code *)

(** ** The client identifier *)

Lemma hex_pair_byte (b : byte) :
  JS.padStart (JS.hex_string (Byte.to_N b)) 2 0x30 =
  [Spec.hex_digit (Byte.to_N b / 16); Spec.hex_digit (Byte.to_N b mod 16)].
Proof. destruct b; vm_compute; reflexivity. Qed.

Lemma hex_pair (n : N) :
  (n < 256)%N ->
  JS.padStart (JS.hex_string n) 2 0x30 =
  [Spec.hex_digit (n / 16); Spec.hex_digit (n mod 16)].
Proof.
  intros H. destruct (Byte.of_N n) as [b|] eqn:E.
  - apply Byte.to_of_N in E. subst n. apply hex_pair_byte.
  - apply Byte.of_N_None_iff in E. lia.
Qed.

Lemma hex_digit_is_hex d : (d < 16)%N -> Spec.is_hex_digit (Spec.hex_digit d) = true.
Proof.
  intros H. unfold Spec.hex_digit, Spec.is_hex_digit.
  destruct (N.ltb_spec d 10).
  - apply orb_true_iff. left. apply andb_true_iff. split; apply N.leb_le; lia.
  - apply orb_true_iff. right. apply andb_true_iff. split; apply N.leb_le; lia.
Qed.

Lemma hex_digit_inj a b :
  (a < 16)%N -> (b < 16)%N -> Spec.hex_digit a = Spec.hex_digit b -> a = b.
Proof.
  unfold Spec.hex_digit. intros Ha Hb.
  destruct (N.ltb_spec a 10), (N.ltb_spec b 10); lia.
Qed.

Lemma hex_pair_inj a b :
  (a < 256)%N -> (b < 256)%N ->
  Spec.hex_digit (a / 16) = Spec.hex_digit (b / 16) ->
  Spec.hex_digit (a mod 16) = Spec.hex_digit (b mod 16) ->
  a = b.
Proof.
  intros Ha Hb H1 H2.
  apply hex_digit_inj in H1;
    [|apply N.Div0.div_lt_upper_bound; lia|apply N.Div0.div_lt_upper_bound; lia].
  apply hex_digit_inj in H2; [|apply N.mod_lt; lia|apply N.mod_lt; lia].
  rewrite (N.div_mod a 16), (N.div_mod b 16) by lia. congruence.
Qed.

Lemma store_bound array : forall i v,
  Forall (fun x => (x < 256)%N) array -> (v < 256)%N ->
  Forall (fun x => (x < 256)%N) (Api.store array i v).
Proof.
  induction array as [|x r IH]; intros i v H Hv; cbn [Api.store]; [constructor|].
  inversion H; subst. destruct i; constructor; auto.
Qed.

Lemma store_length array : forall i v,
  List.length (Api.store array i v) = List.length array.
Proof.
  induction array as [|x r IH]; intros [|i] v; cbn [Api.store List.length];
    auto.
Qed.

Lemma land_lor_bound x m k :
  (m < 256)%N -> (k < 256)%N -> (N.lor (N.land x m) k < 256)%N.
Proof.
  intros Hm Hk.
  destruct (N.eq_dec (N.lor (N.land x m) k) 0) as [->|Hz]; [lia|].
  apply N.log2_lt_pow2 with (b := 8%N); [lia|].
  rewrite N.log2_lor.
  apply N.max_lub_lt.
  - destruct (N.eq_dec (N.land x m) 0) as [->|Hz2]; [cbn; lia|].
    eapply N.le_lt_trans; [apply N.log2_land|].
    eapply N.le_lt_trans; [apply N.le_min_r|].
    destruct (N.eq_dec m 0) as [->|Hm0]; [cbn; lia|].
    apply N.log2_lt_pow2; lia.
  - destruct (N.eq_dec k 0) as [->|Hk0]; [cbn; lia|].
    apply N.log2_lt_pow2; lia.
Qed.

Lemma stamped_bytes random :
  Forall (fun x => (x < 256)%N) (Api.stamped random)
  /\ List.length (Api.stamped random) = List.length random.
Proof.
  unfold Api.stamped. split.
  - apply store_bound; [apply store_bound|]; try (apply land_lor_bound; lia).
    apply Forall_forall. intros x Hx. apply in_map_iff in Hx.
    destruct Hx as (b & <- & _). pose proof (Byte.to_N_bounded b). lia.
  - rewrite !store_length, length_map. reflexivity.
Qed.

Lemma hex_pair_version (b : byte) :
  JS.padStart (JS.hex_string (N.lor (N.land (Byte.to_N b) 0x0f) 0x40)) 2 0x30
  = [0x34%N; Spec.hex_digit (Byte.to_N b mod 16)].
Proof. destruct b; vm_compute; reflexivity. Qed.

Lemma hex_pair_variant (b : byte) :
  JS.padStart (JS.hex_string (N.lor (N.land (Byte.to_N b) 0x3f) 0x80)) 2 0x30
  = [Spec.hex_digit (8 + (Byte.to_N b / 16) mod 4);
     Spec.hex_digit (Byte.to_N b mod 16)].
Proof. destruct b; vm_compute; reflexivity. Qed.

Lemma hex_high (b : byte) : Spec.is_hex_digit (Spec.hex_digit (Byte.to_N b / 16)) = true.
Proof.
  apply hex_digit_is_hex. pose proof (Byte.to_N_bounded b).
  apply N.Div0.div_lt_upper_bound; lia.
Qed.

Lemma hex_low (n : N) : Spec.is_hex_digit (Spec.hex_digit (n mod 16)) = true.
Proof. apply hex_digit_is_hex, N.mod_lt; lia. Qed.

Lemma hex_variant (n : N) :
  In (Spec.hex_digit (8 + n mod 4)) [0x38; 0x39; 0x61; 0x62]%N.
Proof.
  pose proof (N.mod_lt n 4 ltac:(lia)) as H.
  remember (n mod 4)%N as k eqn:E. clear E.
  assert (C : (k = 0 \/ k = 1 \/ k = 2 \/ k = 3)%N) by lia.
  destruct C as [-> | [-> | [-> | ->]]]; cbn; auto.
Qed.

Ltac sixteen random H :=
  do 16 (destruct random as [|? random]; [discriminate H|]);
  destruct random; [|discriminate H].

(** X1.  The identifier [generateUUID] makes from sixteen bytes has the
    layout 8-4-4-4-12 of a version 4 UUID: 36 code units, hyphens at the
    places 8, 13, 18 and 23 and lower-case hexadecimal digits at the
    others, the digit [4] at place 14 and one of [8], [9], [a], [b] at
    place 19. *)
Theorem generateUUID_layout (random : list byte) :
  List.length random = 16%nat ->
  let id := Api.generateUUID random in
  List.length id = 36%nat
  /\ (forall i, (i < 36)%nat ->
        if Spec.is_hyphen_place i then nth i id 0%N = 0x2D%N
        else Spec.is_hex_digit (nth i id 0%N) = true)
  /\ nth 14 id 0%N = 0x34%N
  /\ In (nth 19 id 0%N) [0x38; 0x39; 0x61; 0x62]%N.
Proof.
  intros H. sixteen random H.
  unfold Api.generateUUID, Api.stamped.
  cbn [map Api.store nth List.concat].
  rewrite !hex_pair_byte, hex_pair_version, hex_pair_variant.
  cbn [app JS.slice_between JS.slice firstn skipn Nat.sub JS.lit
       list_ascii_of_string map N_of_ascii].
  cbv zeta. repeat split.
  - intros i Hi.
    do 36 (destruct i as [|i];
           [cbn [Spec.is_hyphen_place existsb Nat.eqb orb nth];
            first [reflexivity | apply hex_high | apply hex_low
                  | apply hex_digit_is_hex;
                    match goal with
                    | |- (8 + ?x mod 4 < 16)%N =>
                        pose proof (N.mod_lt x 4 ltac:(lia));
                        remember (x mod 4)%N; lia
                    end]|]).
    lia.
  - apply hex_variant.
Qed.

Lemma generateUUID_layout_witness :
  List.length Spec.sample_random = 16%nat
  /\ List.length (Api.generateUUID Spec.sample_random) = 36%nat
  /\ Api.generateUUID Spec.sample_random =
     JS.lit "00112233-4455-4f77-bf99-aabbccddee0f".
Proof.
  split; [reflexivity|].
  split; [exact (proj1 (generateUUID_layout Spec.sample_random eq_refl))|].
  vm_compute. reflexivity.
Defined.

Lemma map_hex_pair l :
  Forall (fun x => (x < 256)%N) l ->
  map (fun b => JS.padStart (JS.hex_string b) 2 0x30) l =
  map (fun n => [Spec.hex_digit (n / 16); Spec.hex_digit (n mod 16)]) l.
Proof.
  induction 1 as [|x l Hx _ IH]; cbn [map]; [reflexivity|].
  rewrite hex_pair, IH by exact Hx. reflexivity.
Qed.

Lemma hex_pairs_inj l1 : forall l2,
  Forall (fun x => (x < 256)%N) l1 -> Forall (fun x => (x < 256)%N) l2 ->
  List.concat
    (map (fun n => [Spec.hex_digit (n / 16); Spec.hex_digit (n mod 16)]) l1) =
  List.concat
    (map (fun n => [Spec.hex_digit (n / 16); Spec.hex_digit (n mod 16)]) l2) ->
  l1 = l2.
Proof.
  induction l1 as [|a l1 IH]; intros [|b l2] H1 H2;
    cbn [map List.concat app]; try discriminate; [reflexivity|].
  intros E. injection E as Eh El E.
  inversion H1; subst. inversion H2; subst.
  f_equal; [apply hex_pair_inj; assumption | apply IH; assumption].
Qed.

Lemma hex_pairs_length l :
  List.length
    (List.concat
       (map (fun n => [Spec.hex_digit (n / 16); Spec.hex_digit (n mod 16)]) l))
  = (2 * List.length l)%nat.
Proof.
  induction l as [|a l IH]; cbn [map List.concat app List.length]; lia.
Qed.

Lemma hyphenated_inj (h h' : list N) :
  List.length h = 32%nat -> List.length h' = 32%nat ->
  JS.slice_between h 0 8 ++ JS.lit "-" ++ JS.slice_between h 8 12
  ++ JS.lit "-" ++ JS.slice_between h 12 16 ++ JS.lit "-"
  ++ JS.slice_between h 16 20 ++ JS.lit "-" ++ JS.slice h 20 =
  JS.slice_between h' 0 8 ++ JS.lit "-" ++ JS.slice_between h' 8 12
  ++ JS.lit "-" ++ JS.slice_between h' 12 16 ++ JS.lit "-"
  ++ JS.slice_between h' 16 20 ++ JS.lit "-" ++ JS.slice h' 20 ->
  h = h'.
Proof.
  intros H H'.
  do 32 (destruct h as [|? h]; [discriminate H|]).
  destruct h; [|discriminate H].
  do 32 (destruct h' as [|? h']; [discriminate H'|]).
  destruct h'; [|discriminate H'].
  cbn [app JS.slice_between JS.slice firstn skipn Nat.sub JS.lit
       list_ascii_of_string map N_of_ascii].
  intros E. injection E. intros. subst. reflexivity.
Qed.

(** X2.  Two arrays of sixteen random bytes give the same identifier only
    when they agree after the version and the variant are set: the
    hexadecimal text loses none of the other 122 bits. *)
Theorem generateUUID_keeps_random_bits (random random' : list byte) :
  List.length random = 16%nat -> List.length random' = 16%nat ->
  (Api.generateUUID random = Api.generateUUID random'
   <-> Api.stamped random = Api.stamped random').
Proof.
  intros H H'. unfold Api.generateUUID. split; [|intros ->; reflexivity].
  destruct (stamped_bytes random) as [B L].
  destruct (stamped_bytes random') as [B' L'].
  cbv zeta. rewrite !map_hex_pair by assumption. intros E.
  apply hyphenated_inj in E;
    [|rewrite hex_pairs_length; lia|rewrite hex_pairs_length; lia].
  apply hex_pairs_inj in E; assumption.
Qed.

Lemma generateUUID_keeps_random_bits_witness :
  List.length Spec.sample_random = 16%nat
  /\ List.length Spec.other_random = 16%nat
  /\ Spec.sample_random <> Spec.other_random
  /\ Api.generateUUID Spec.sample_random = Api.generateUUID Spec.other_random.
Proof.
  split; [reflexivity|]. split; [reflexivity|]. split; [discriminate|].
  apply (generateUUID_keeps_random_bits Spec.sample_random Spec.other_random
           eq_refl eq_refl).
  reflexivity.
Defined.

Lemma generateUUID_not_empty random :
  exists c s, Api.generateUUID random = c :: s.
Proof.
  unfold Api.generateUUID. cbv zeta.
  match goal with
  | |- exists c s, ?a ++ ?r = _ => destruct a; cbn; eauto
  end.
Qed.

Lemma getClientId_again stored random random' :
  Api.getClientId (snd (Api.getClientId stored random)) random' =
  Api.getClientId stored random.
Proof.
  unfold Api.getClientId. destruct stored as [[|c s]|]; cbn [snd];
    try reflexivity;
    destruct (generateUUID_not_empty random) as (c & s & ->); reflexivity.
Qed.

(** X3.  Successive calls of [getClientId] all return the identifier of the
    first call, whatever random bytes each has at hand: a generated
    identifier is never empty, so the stored one is found again and none
    is generated a second time.  On an empty storage the first call
    returns the identifier generated from its random bytes. *)
Theorem getClientId_stable (stored : option JS.jsstring)
  (random : list byte) (later : list (list byte)) :
  Spec.client_ids stored (random :: later) =
    repeat (fst (Api.getClientId stored random)) (S (List.length later))
  /\ (stored = None ->
      fst (Api.getClientId stored random) = Api.generateUUID random).
Proof.
  split; [|intros ->; reflexivity].
  cbn [Spec.client_ids repeat].
  destruct (Api.getClientId stored random) as [clientId stored'] eqn:E.
  cbn [fst]. f_equal.
  assert (G : forall r, Api.getClientId stored' r = (clientId, stored')).
  { intros r. pose proof (getClientId_again stored random r) as A.
    rewrite E in A. exact A. }
  clear E. induction later as [|r later IH]; cbn [Spec.client_ids repeat List.length];
    [reflexivity|].
  rewrite G, IH. reflexivity.
Qed.

(** ** The lines of a stream *)

Lemma join_cons sep x y r :
  JS.join sep (x :: y :: r) = x ++ sep ++ JS.join sep (y :: r).
Proof. reflexivity. Qed.

Lemma join_split t : JS.join [Api.newline] (JS.split Api.newline t) = t.
Proof.
  induction t as [|c t IH]; [reflexivity|].
  cbn [JS.split].
  pose proof (split_not_nil Api.newline t) as Hn.
  destruct (JS.split Api.newline t) as [|l ls] eqn:S; [congruence|].
  destruct (N.eqb c Api.newline) eqn:E.
  - apply N.eqb_eq in E. subst c. rewrite join_cons, IH. reflexivity.
  - destruct ls as [|l2 ls].
    + cbn [JS.join] in *. rewrite IH. reflexivity.
    + rewrite join_cons in *. rewrite <- IH. reflexivity.
Qed.

Lemma complete_lines_no_newline t :
  Forall (fun l => ~ In Api.newline l) (Spec.complete_lines t).
Proof.
  induction t as [|c t IH]; [constructor|].
  rewrite complete_lines_cons. destruct (N.eqb c Api.newline) eqn:E.
  - constructor; [intros []|exact IH].
  - destruct (Spec.complete_lines t) as [|l ls]; [constructor|].
    inversion IH; subst. constructor; [|assumption].
    intros [H|H]; [|contradiction]. apply N.eqb_neq in E. congruence.
Qed.

Lemma complete_lines_count t :
  List.length (Spec.complete_lines t) = Spec.newlines t.
Proof.
  unfold Spec.newlines. induction t as [|c t IH]; [reflexivity|].
  rewrite complete_lines_cons. cbn [filter].
  rewrite (N.eqb_sym Api.newline c).
  destruct (N.eqb c Api.newline); cbn [List.length]; [rewrite IH; reflexivity|].
  destruct (Spec.complete_lines t); exact IH.
Qed.

Lemma lines_loop_spec cs : forall st,
  ~ In Api.newline (Api.buffer st) ->
  Api.lines_loop st cs =
    ({| Api.decoder := fst (TextDecoder.decode (Api.decoder st) (List.concat cs));
        Api.buffer :=
          Spec.rest (Api.buffer st ++
                     snd (TextDecoder.decode (Api.decoder st) (List.concat cs))) |},
     Spec.complete_lines
       (Api.buffer st ++
        snd (TextDecoder.decode (Api.decoder st) (List.concat cs)))).
Proof.
  induction cs as [|c cs IH]; intros [d0 buf] Hbuf;
    cbn [List.concat Api.lines_loop Api.decoder Api.buffer] in *.
  - cbn [TextDecoder.decode fst snd]. rewrite app_nil_r.
    destruct (no_newline_no_line buf Hbuf) as [-> ->]. reflexivity.
  - unfold Api.lines_read. cbn [Api.decoder Api.buffer].
    rewrite decode_app.
    destruct (TextDecoder.decode d0 c) as [d1 s1].
    rewrite IH by apply rest_no_newline.
    cbn [Api.decoder Api.buffer].
    destruct (TextDecoder.decode d1 (List.concat cs)) as [d2 s2].
    cbn [fst snd].
    destruct (lines_app (buf ++ s1) s2) as [L R].
    rewrite app_assoc, L, R. reflexivity.
Qed.

Lemma read_loop_lines cs : forall st,
  Api.read_loop st cs =
  (fst (Api.lines_loop st cs),
   flat_map Api.process_line (snd (Api.lines_loop st cs))).
Proof.
  induction cs as [|c cs IH]; intros st; cbn [Api.read_loop Api.lines_loop];
    [reflexivity|].
  unfold Api.on_read, Api.lines_read.
  destruct (TextDecoder.decode (Api.decoder st) c) as [d1 s1].
  rewrite IH.
  destruct (Api.lines_loop _ cs) as [st2 l2]. cbn [fst snd].
  rewrite flat_map_app. reflexivity.
Qed.

(** X4.  The read loop loses no text and repeats none: however the stream is
    cut into chunks, the lines it has handled, followed by what is left
    in [buffer], are the text of the whole stream cut at its newlines.
    No line and no buffer holds a newline, and the callbacks made are
    those of the lines, in order. *)
Theorem read_loop_keeps_text (cs : list (list byte)) :
  let st := fst (Api.lines_loop Api.initial cs) in
  let lines := snd (Api.lines_loop Api.initial cs) in
  JS.join [Api.newline] (lines ++ [Api.buffer st])
    = Spec.decoded (List.concat cs)
  /\ lines ++ [Api.buffer st]
     = JS.split Api.newline (Spec.decoded (List.concat cs))
  /\ Forall (fun l => ~ In Api.newline l) lines
  /\ ~ In Api.newline (Api.buffer st)
  /\ Api.decoder st
     = fst (TextDecoder.decode TextDecoder.fresh (List.concat cs))
  /\ Api.read_loop Api.initial cs = (st, flat_map Api.process_line lines).
Proof.
  cbv zeta. rewrite read_loop_lines.
  rewrite lines_loop_spec by (intros []).
  cbn [fst snd Api.initial Api.buffer Api.decoder app].
  fold (Spec.decoded (List.concat cs)).
  rewrite <- split_lines_rest. rewrite join_split.
  repeat split.
  - apply complete_lines_no_newline.
  - apply rest_no_newline.
Qed.

(** *** A line for each newline byte *)

Lemma lead_continuing d n :
  Spec.continuing d -> Spec.continuing (fst (TextDecoder.lead d n)).
Proof.
  unfold Spec.continuing, TextDecoder.lead. intros H.
  repeat match goal with
  | |- context [if ?c then _ else _] => destruct c
  end; cbn [fst TextDecoder.lower_boundary]; lia.
Qed.

Lemma handler_continuing d n :
  Spec.continuing d -> Spec.continuing (fst (TextDecoder.handler d n)).
Proof.
  intros H. unfold TextDecoder.handler.
  destruct (TextDecoder.bytes_needed d =? 0)%N; [apply lead_continuing, H|].
  destruct (negb (TextDecoder.between _ n _)).
  - pose proof (lead_continuing (TextDecoder.reset d) n) as L.
    destruct (TextDecoder.lead (TextDecoder.reset d) n) as [d' out].
    cbn [fst] in *. apply L. unfold Spec.continuing. cbn. lia.
  - destruct (negb _); unfold Spec.continuing; cbn; lia.
Qed.

Lemma count_no_newline t :
  ~ In Api.newline t -> Spec.newlines t = 0%nat.
Proof.
  unfold Spec.newlines. induction t as [|c t IH]; [reflexivity|].
  intros H. cbn [filter]. destruct (N.eqb Api.newline c) eqn:E.
  - apply N.eqb_eq in E. exfalso. apply H. left. auto.
  - apply IH. intros X. apply H. right. exact X.
Qed.

Lemma newlines_app a b :
  Spec.newlines (a ++ b) = (Spec.newlines a + Spec.newlines b)%nat.
Proof. unfold Spec.newlines. rewrite filter_app, length_app. reflexivity. Qed.

Lemma decode_byte_newline d :
  Spec.continuing d ->
  Spec.newlines (snd (TextDecoder.decode_byte d Spec.x0a)) = 1%nat.
Proof.
  intros H. unfold TextDecoder.decode_byte, TextDecoder.handler.
  change (Byte.to_N Spec.x0a) with 10%N.
  destruct (TextDecoder.bytes_needed d =? 0)%N.
  - cbn. destruct (TextDecoder.bom_seen d); reflexivity.
  - assert (B : TextDecoder.between (TextDecoder.lower_boundary d) 10
                  (TextDecoder.upper_boundary d) = false).
    { unfold TextDecoder.between. apply andb_false_iff. left.
      apply N.leb_gt. unfold Spec.continuing in H. lia. }
    rewrite B. cbn. destruct (TextDecoder.bom_seen d); reflexivity.
Qed.

Lemma decode_byte_continuing d b :
  Spec.continuing d -> Spec.continuing (fst (TextDecoder.decode_byte d b)).
Proof.
  intros H. unfold TextDecoder.decode_byte.
  pose proof (handler_continuing d (Byte.to_N b) H) as C.
  destruct (TextDecoder.handler d (Byte.to_N b)) as [d' cps].
  destruct (TextDecoder.serialize (TextDecoder.bom_seen d') cps).
  exact C.
Qed.

Lemma decode_newlines bytes : forall d,
  started d -> Spec.continuing d ->
  Spec.newlines (snd (TextDecoder.decode d bytes)) = Spec.newline_bytes bytes.
Proof.
  unfold Spec.newline_bytes.
  induction bytes as [|b r IH]; intros d Hs Hc; [reflexivity|].
  cbn [TextDecoder.decode filter].
  destruct (decode_byte_started d b Hs) as [S1 S2].
  pose proof (decode_byte_continuing d b Hc) as C1.
  pose proof (decode_byte_newline d Hc) as N1.
  destruct (Byte.eqb Spec.x0a b) eqn:E.
  - apply Byte.byte_dec_bl in E. subst b.
    destruct (TextDecoder.decode_byte d Spec.x0a) as [d1 s1].
    cbn [fst snd] in *. specialize (IH d1 S1 C1).
    destruct (TextDecoder.decode d1 r) as [d2 s2]. cbn [fst snd] in *.
    rewrite newlines_app, N1, IH. reflexivity.
  - assert (Hb : b <> Spec.x0a).
    { intros ->. discriminate E. }
    clear N1.
    destruct (TextDecoder.decode_byte d b) as [d1 s1].
    cbn [fst snd] in *. specialize (IH d1 S1 C1).
    destruct (TextDecoder.decode d1 r) as [d2 s2]. cbn [fst snd] in *.
    rewrite newlines_app, IH, (count_no_newline s1 (S2 Hb)). reflexivity.
Qed.

(** X5.  The loop handles one line for each newline byte of the stream,
    whatever the other bytes are: no sequence of bytes decodes to a
    newline unless it holds the byte, and a newline byte inside a
    character cut short still ends a line. *)
Theorem one_line_per_newline_byte (cs : list (list byte)) :
  List.length (snd (Api.lines_loop Api.initial cs))
    = Spec.newline_bytes (List.concat cs)
  /\ snd (Api.lines_loop Api.initial [Spec.cut_short])
     = [[0xFFFD%N] ++ Spec.line_text "data: {'type':'done'}"]
  /\ Api.calls_of [Spec.cut_short] = [].
Proof.
  split; [|split; vm_compute; reflexivity].
  rewrite lines_loop_spec by (intros []).
  cbn [snd Api.initial Api.buffer Api.decoder app].
  rewrite complete_lines_count.
  apply decode_newlines; [apply started_fresh|].
  unfold Spec.continuing. cbn. lia.
Qed.

(** ** White space at the ends of a text *)

Lemma trimStart_spec s :
  exists a, s = a ++ JS.trimStart s
            /\ Spec.blank a = true
            /\ match JS.trimStart s with
               | c :: _ => JS.is_whitespace c = false
               | [] => True
               end.
Proof.
  induction s as [|c r (a & E & B & H)];
    [exists []; repeat split; reflexivity|].
  cbn [JS.trimStart]. destruct (JS.is_whitespace c) eqn:W.
  - exists (c :: a). cbn [app Spec.blank forallb]. rewrite W.
    split; [f_equal; exact E|]. split; [exact B | exact H].
  - exists []. repeat split; auto.
Qed.

Lemma blank_app a b : Spec.blank (a ++ b) = Spec.blank a && Spec.blank b.
Proof. apply forallb_app. Qed.

Lemma blank_rev a : Spec.blank (rev a) = Spec.blank a.
Proof.
  induction a as [|c a IH]; [reflexivity|].
  cbn [rev]. rewrite blank_app, IH. cbn [Spec.blank forallb].
  rewrite andb_true_r. apply andb_comm.
Qed.

Lemma trimStart_blank s : Spec.blank s = true -> JS.trimStart s = [].
Proof.
  induction s as [|c r IH]; [reflexivity|]. cbn [Spec.blank forallb JS.trimStart].
  intros H. apply andb_true_iff in H. destruct H as [-> H]. auto.
Qed.

Lemma trimStart_fixed c r :
  JS.is_whitespace c = false -> JS.trimStart (c :: r) = c :: r.
Proof. intros H. cbn [JS.trimStart]. rewrite H. reflexivity. Qed.

(** [trim] cuts a text to what lies between its first and its last code
    unit that is no white space. *)
Lemma trim_spec s :
  exists a b,
    s = a ++ JS.trim s ++ b
    /\ Spec.blank a = true /\ Spec.blank b = true
    /\ match JS.trim s with
       | c :: r =>
           JS.is_whitespace c = false
           /\ JS.is_whitespace (last (c :: r) c) = false
       | [] => True
       end.
Proof.
  unfold JS.trim, JS.trimEnd.
  destruct (trimStart_spec s) as (a & Ea & Ba & Ha).
  destruct (trimStart_spec (rev (JS.trimStart s))) as (b & Eb & Bb & Hb).
  exists a, (rev b).
  assert (E2 : JS.trimStart s =
               rev (JS.trimStart (rev (JS.trimStart s))) ++ rev b).
  { rewrite <- rev_app_distr, <- Eb, rev_involutive. reflexivity. }
  split; [rewrite <- E2; exact Ea|].
  split; [exact Ba|]. split; [rewrite blank_rev; exact Bb|].
  destruct (JS.trimStart (rev (JS.trimStart s))) as [|z t] eqn:T;
    [exact I|].
  cbn [rev] in *.
  assert (L : forall d, last (rev t ++ [z]) d = z)
    by (intros; apply last_last).
  destruct (rev t ++ [z]) as [|c r] eqn:R;
    [destruct (rev t); discriminate|].
  split; [|rewrite L; exact Hb].
  destruct (JS.trimStart s) as [|c' r'] eqn:S;
    [destruct b; discriminate|].
  assert (c' = c).
  { rewrite <- app_comm_cons in E2. injection E2; auto. }
  subst c'. exact Ha.
Qed.

Lemma trim_blank s : JS.trim s = [] <-> Spec.blank s = true.
Proof.
  split.
  - intros H. apply trim_nil in H. apply forallb_forall.
    rewrite Forall_forall in H. exact H.
  - intros H. unfold JS.trim, JS.trimEnd.
    rewrite (trimStart_blank s H). reflexivity.
Qed.

Lemma trim_fixed c r :
  JS.is_whitespace c = false ->
  JS.is_whitespace (last (c :: r) c) = false ->
  JS.trim (c :: r) = c :: r.
Proof.
  intros Hc Hl. unfold JS.trim, JS.trimEnd.
  rewrite trimStart_fixed by exact Hc.
  destruct (rev (c :: r)) as [|z t] eqn:R.
  { apply (f_equal (@List.length N)) in R. rewrite length_rev in R.
    discriminate. }
  assert (Z : z = last (c :: r) c).
  { rewrite <- (rev_involutive (c :: r)), R. cbn [rev].
    rewrite last_last. reflexivity. }
  rewrite trimStart_fixed by (rewrite Z; exact Hl).
  rewrite <- R. apply rev_involutive.
Qed.

Lemma trim_idempotent s : JS.trim (JS.trim s) = JS.trim s.
Proof.
  destruct (trim_spec s) as (a & b & _ & _ & _ & H).
  destruct (JS.trim s) as [|c r]; [reflexivity|].
  destruct H. apply trim_fixed; assumption.
Qed.

(** ** [ChatInput]: what is sent *)

Lemma handleSend_trimmed (disabled : bool) (value : JS.jsstring) :
  (disabled = true \/ Spec.blank value = true ->
   ChatInput.handleSend disabled value = (None, value))
  /\ (disabled = false -> Spec.blank value = false ->
      exists c r a b,
        ChatInput.handleSend disabled value = (Some (c :: r), [])
        /\ c :: r = JS.trim value
        /\ value = a ++ (c :: r) ++ b
        /\ Spec.blank a = true /\ Spec.blank b = true
        /\ JS.is_whitespace c = false
        /\ JS.is_whitespace (last (c :: r) c) = false
        /\ JS.trim (c :: r) = c :: r).
Proof.
  unfold ChatInput.handleSend. split.
  - intros [-> | H]; [reflexivity|].
    apply trim_blank in H. rewrite H. destruct disabled; reflexivity.
  - intros -> H.
    destruct (trim_spec value) as (a & b & E & Ba & Bb & Hc).
    destruct (JS.trim value) as [|c r] eqn:T.
    + apply trim_blank in T. congruence.
    + destruct Hc as [Hc Hl]. exists c, r, a, b. cbn [JS.truthy negb].
      repeat split; auto. rewrite <- T. apply trim_idempotent.
Qed.

(** X6.  [ChatInput] hands [onSend] nothing when it is disabled or its value
    is white space only, and the value stays; otherwise it hands over
    the value without the white space at its ends, a text that is not
    empty and neither starts nor ends with white space, and empties the
    input. *)
Theorem ChatInput_sends_trimmed (disabled : bool) (value : JS.jsstring) :
  (disabled = true \/ Spec.blank value = true ->
   ChatInput.handleSend disabled value = (None, value))
  /\ (disabled = false -> Spec.blank value = false ->
      exists c r a b,
        ChatInput.handleSend disabled value = (Some (c :: r), [])
        /\ c :: r = JS.trim value
        /\ value = a ++ (c :: r) ++ b
        /\ Spec.blank a = true /\ Spec.blank b = true
        /\ JS.is_whitespace c = false
        /\ JS.is_whitespace (last (c :: r) c) = false
        /\ JS.trim (c :: r) = c :: r).
Proof. exact (handleSend_trimmed disabled value). Qed.

Lemma ChatInput_sends_trimmed_witness :
  Spec.blank (JS.lit "  plot totals ") = false
  /\ exists a b,
       ChatInput.handleSend false (JS.lit "  plot totals ")
         = (Some (JS.lit "plot totals"), [])
       /\ JS.lit "  plot totals " = a ++ JS.lit "plot totals" ++ b.
Proof.
  split; [reflexivity|].
  destruct (ChatInput_sends_trimmed false (JS.lit "  plot totals "))
    as [_ S].
  destruct (S eq_refl eq_refl) as (c & r & a & b & E & T & V & _).
  exists a, b. vm_compute in T. injection T as -> ->.
  split; [exact E | exact V].
Defined.

(** X7.  On the session page a value that is blank changes nothing, and
    no value does while the page is loading or streaming.  A value that
    is not blank, entered otherwise, empties the input.  When the
    session is loaded, [handleSend] has, before it first awaits,
    appended the user entry with the trimmed text and an empty
    assistant entry, made one request with the trimmed text and turned
    [isStreaming] on; when the session could not be loaded the text is
    dropped without any entry or request. *)
Theorem session_input_sends (p : SessionPage.Page) (value : JS.jsstring)
  (now_a now_u : N) :
  let st := SessionPage.state p in
  (Spec.blank value = true
   \/ SessionPage.loading st = true \/ SessionPage.isStreaming st = true ->
   Spec.session_enter p value now_a now_u = (Some p, value))
  /\ (Spec.blank value = false ->
      SessionPage.loading st = false -> SessionPage.isStreaming st = false ->
      match SessionPage.sessionDetail st with
      | None => Spec.session_enter p value now_a now_u = (Some p, [])
      | Some d =>
          exists p',
            Spec.session_enter p value now_a now_u = (Some p', [])
            /\ SessionPage.requests (SessionPage.state p') =
               SessionPage.requests st
               ++ [{| SessionPage.session_id := SessionPage.sessionId st;
                      SessionPage.message_text := JS.trim value;
                      SessionPage.payload_file_ids :=
                        SessionPage.fileIdsToUse st d |}]
            /\ SessionPage.messages (SessionPage.state p') =
               SessionPage.messages st
               ++ [ChatMessageList.message (Turn.user_id now_u)
                     ChatMessageList.user (JS.trim value);
                   ChatMessageList.message (Turn.assistant_id now_a)
                     ChatMessageList.assistant []]
            /\ SessionPage.isStreaming (SessionPage.state p') = true
            /\ SessionPage.turn p' =
               Some {| SessionPage.assistantMsgId := Turn.assistant_id now_a;
                       SessionPage.streamContent := [] |}
            /\ SessionPage.awaited p' = SessionPage.awaited p
            /\ SessionPage.fileInfos (SessionPage.state p')
               = SessionPage.fileInfos st
            /\ SessionPage.dataSourceIds (SessionPage.state p')
               = SessionPage.dataSourceIds st
      end).
Proof.
  intros st. unfold Spec.session_enter. fold st. split.
  - intros H.
    destruct (handleSend_trimmed
                (SessionPage.loading st || SessionPage.isStreaming st) value)
      as [B _].
    rewrite B; [reflexivity|].
    destruct H as [H|[H|H]]; [right; exact H | left | left]; rewrite H;
      [reflexivity | apply orb_true_r].
  - intros Hb Hl Hs. rewrite Hl, Hs. cbn [orb].
    destruct (handleSend_trimmed false value) as [_ S].
    destruct (S eq_refl Hb) as (c & r & a & b & E & T & _).
    rewrite E, <- T. cbn [SessionPage.task]. fold st.
    unfold SessionPage.rejected.
    destruct (SessionPage.sessionDetail st) as [d|] eqn:D; [|reflexivity].
    rewrite Hl, Hs. cbn [orb]. eexists. split; [reflexivity|].
    unfold SessionPage.with_messages, SessionPage.request.
    cbn [SessionPage.state SessionPage.requests SessionPage.isStreaming
           SessionPage.messages SessionPage.turn SessionPage.awaited
           SessionPage.fileInfos SessionPage.dataSourceIds].
    rewrite D. repeat split.
Qed.

Lemma session_input_sends_witness :
  Spec.blank (JS.lit " plot ") = false
  /\ SessionPage.loading (SessionPage.state Spec.awaiting_answer) = false
  /\ SessionPage.isStreaming (SessionPage.state Spec.awaiting_answer) = false
  /\ exists p',
       Spec.session_enter Spec.awaiting_answer (JS.lit " plot ") 1000 1001
         = (Some p', [])
       /\ SessionPage.requests (SessionPage.state p') =
          [{| SessionPage.session_id := JS.lit "s1";
              SessionPage.message_text := JS.lit "plot";
              SessionPage.payload_file_ids :=
                [JS.lit "f1:A"; JS.lit "f1:B"; JS.lit "f2"] |}]
       /\ SessionPage.messages (SessionPage.state p') =
          [ChatMessageList.message (JS.lit "u-1001") ChatMessageList.user
             (JS.lit "plot");
           ChatMessageList.message (JS.lit "a-1000")
             ChatMessageList.assistant []].
Proof.
  split; [reflexivity|]. split; [reflexivity|]. split; [reflexivity|].
  destruct (session_input_sends Spec.awaiting_answer (JS.lit " plot ")
              1000 1001) as [_ S].
  destruct (S eq_refl eq_refl eq_refl) as (p' & E & R & M & _).
  exists p'. split; [exact E|]. split; [exact R | exact M].
Defined.

(** ** The typing indicator *)

Lemma not_truthy_trim s :
  negb (JS.truthy (JS.Str (JS.trim s))) = Spec.blank s.
Proof.
  destruct (JS.trim s) as [|c r] eqn:T; cbn [JS.truthy negb].
  - symmetry. apply trim_blank, T.
  - destruct (Spec.blank s) eqn:B; [|reflexivity].
    apply trim_blank in B. congruence.
Qed.

Lemma showLoading_entry i c cfg :
  ChatMessageList.showLoading
    {| ChatMessageList.id := i; ChatMessageList.role := ChatMessageList.assistant;
       ChatMessageList.content := c; ChatMessageList.chartConfig := cfg;
       ChatMessageList.isLoading := None |} = Spec.blank c.
Proof. unfold ChatMessageList.showLoading. cbn. apply not_truthy_trim. Qed.

Lemma final_snoc l m : Spec.final (l ++ [m]) = m.
Proof. unfold Spec.final. apply last_last. Qed.

Lemma final_two l u m : Spec.final (l ++ [u; m]) = m.
Proof.
  change (l ++ [u; m]) with (l ++ [u] ++ [m]). rewrite app_assoc.
  apply final_snoc.
Qed.

Lemma streamed_chunks prev text na nu chunks :
  Turn.streamed prev text na nu (map Turn.Chunk chunks) =
  (List.concat chunks,
   prev ++ [ChatMessageList.message (Turn.user_id nu) ChatMessageList.user text;
            ChatMessageList.message (Turn.assistant_id na)
              ChatMessageList.assistant (List.concat chunks)]).
Proof.
  unfold Turn.streamed, Turn.opened.
  change (prev ++ [ChatMessageList.message (Turn.user_id nu)
                     ChatMessageList.user text;
                   ChatMessageList.message (Turn.assistant_id na)
                     ChatMessageList.assistant []])
    with (prev ++ [ChatMessageList.message (Turn.user_id nu)
                     ChatMessageList.user text]
               ++ [ChatMessageList.message (Turn.assistant_id na)
                     ChatMessageList.assistant []]).
  rewrite app_assoc, chunks_streamed. cbn [app].
  rewrite <- app_assoc. reflexivity.
Qed.

(** X8.  The typing indicator is shown for an assistant entry that is marked
    as loading or whose text is white space only, and for no other
    entry.  So in a turn it is shown on the entry being filled until the
    chunks received hold something else than white space; an answer
    that ends with no text, with or without a chart, keeps it after the
    turn has ended; a failed turn does not show it. *)
Theorem typing_indicator :
  (forall m,
      ChatMessageList.showLoading m = true <->
      ChatMessageList.role m = ChatMessageList.assistant
      /\ (ChatMessageList.isLoading m = Some true
          \/ Spec.blank (ChatMessageList.content m) = true))
  /\ (forall prev text now_a now_u chunks,
        ChatMessageList.showLoading
          (Spec.final
             (snd (Turn.streamed prev text now_a now_u
                     (map Turn.Chunk chunks))))
        = Spec.blank (List.concat chunks))
  /\ (forall prev text now_a now_u chunks chartConfig,
        ChatMessageList.showLoading
          (Spec.final
             (Turn.settled prev text now_a now_u
                {| Turn.events :=
                     map Turn.Chunk chunks ++ [Turn.Done chartConfig];
                   Turn.thrown := None |}))
        = Spec.blank (List.concat chunks))
  /\ (forall prev text now_a now_u out msg,
        Spec.failure out = Some msg ->
        ChatMessageList.showLoading
          (Spec.final (Turn.settled prev text now_a now_u out)) = false).
Proof.
  split; [|split; [|split]].
  - intros m. unfold ChatMessageList.showLoading.
    destruct (ChatMessageList.role m).
    + split; [discriminate | intros [H _]; discriminate].
    + destruct (ChatMessageList.isLoading m) as [[|]|];
        rewrite ?not_truthy_trim; split; auto;
        try (intros [_ [H|H]]; [discriminate H | exact H]).
  - intros. rewrite streamed_chunks. cbn [snd]. rewrite final_two.
    apply showLoading_entry.
  - intros. unfold Turn.settled. cbn [Turn.events Turn.thrown].
    unfold Turn.streamed. rewrite on_events_app.
    fold (Turn.streamed prev text now_a now_u (map Turn.Chunk chunks)).
    rewrite streamed_chunks.
    unfold Turn.on_events. cbn [fold_left Turn.on_event].
    unfold Turn.replace_last.
    change (prev ++ [ChatMessageList.message (Turn.user_id now_u)
                       ChatMessageList.user text;
                     ChatMessageList.message (Turn.assistant_id now_a)
                       ChatMessageList.assistant (List.concat chunks)])
      with (prev ++ [ChatMessageList.message (Turn.user_id now_u)
                       ChatMessageList.user text]
                 ++ [ChatMessageList.message (Turn.assistant_id now_a)
                       ChatMessageList.assistant (List.concat chunks)]).
    rewrite app_assoc, removelast_last, final_snoc.
    apply showLoading_entry.
  - intros prev text now_a now_u out msg H.
    rewrite (settled_failure _ _ _ _ _ _ H), final_two.
    unfold ChatMessageList.message. rewrite showLoading_entry.
    reflexivity.
Qed.

Lemma typing_indicator_witness :
  Spec.failure Spec.error_event = Some (JS.lit "boom")
  /\ ChatMessageList.showLoading
       (Spec.final
          (Turn.settled [] (JS.lit "plot") 1000 1001 Spec.error_event))
     = false
  /\ ChatMessageList.showLoading
       (Spec.final
          (Turn.settled [] (JS.lit "plot") 1000 1001
             {| Turn.events := map Turn.Chunk [] ++ [Turn.Done Spec.bars];
                Turn.thrown := None |}))
     = true.
Proof.
  destruct typing_indicator as (_ & _ & D & F).
  split; [reflexivity|]. split.
  - exact (F [] (JS.lit "plot") 1000%N 1001%N Spec.error_event
             (JS.lit "boom") eq_refl).
  - exact (D [] (JS.lit "plot") 1000%N 1001%N [] Spec.bars).
Defined.

(** ** [removeJsonCodeBlock] *)

Lemma replace_plain t rest :
  Spec.plain t ->
  ChatMessageList.replace_json_blocks 0 (t ++ rest) =
  t ++ ChatMessageList.replace_json_blocks 0 rest.
Proof.
  unfold Spec.plain. induction t as [|c t IH]; intros H; [reflexivity|].
  cbn [app ChatMessageList.replace_json_blocks].
  assert (Hc : c <> 0x60%N) by (intros ->; apply H; left; reflexivity).
  assert (S : JS.startsWith (c :: t ++ rest) (JS.lit "```json") = false).
  { cbn. apply N.eqb_neq in Hc. rewrite Hc. reflexivity. }
  rewrite S, IH; [reflexivity|]. intros X. apply H. right. exact X.
Qed.

Lemma replace_skip a : forall rest,
  ChatMessageList.replace_json_blocks (List.length a) (a ++ rest) =
  ChatMessageList.replace_json_blocks 0 rest.
Proof.
  induction a as [|c a IH]; intros rest; [reflexivity|].
  cbn [List.length app ChatMessageList.replace_json_blocks]. apply IH.
Qed.

Lemma closing_fence_plain body rest :
  Spec.plain body ->
  ChatMessageList.closing_fence (body ++ JS.lit "```" ++ rest) =
  Some (List.length body).
Proof.
  unfold Spec.plain. induction body as [|c t IH]; intros H.
  - cbn [app]. destruct rest; reflexivity.
  - cbn [app ChatMessageList.closing_fence List.length].
    assert (Hc : c <> 0x60%N) by (intros ->; apply H; left; reflexivity).
    assert (S : JS.startsWith (c :: t ++ JS.lit "```" ++ rest) (JS.lit "```")
                = false).
    { cbn. apply N.eqb_neq in Hc. rewrite Hc. reflexivity. }
    rewrite S, IH; [reflexivity|]. intros X. apply H. right. exact X.
Qed.

Lemma closing_fence_none t :
  Spec.plain t -> ChatMessageList.closing_fence t = None.
Proof.
  unfold Spec.plain. induction t as [|c t IH]; intros H; [reflexivity|].
  cbn [ChatMessageList.closing_fence].
  assert (Hc : c <> 0x60%N) by (intros ->; apply H; left; reflexivity).
  assert (S : JS.startsWith (c :: t) (JS.lit "```") = false).
  { cbn. apply N.eqb_neq in Hc. rewrite Hc. reflexivity. }
  rewrite S, IH; [reflexivity|]. intros X. apply H. right. exact X.
Qed.

Lemma replace_fenced body rest :
  Spec.plain body ->
  ChatMessageList.replace_json_blocks 0 (Spec.fenced body ++ rest) =
  ChatMessageList.replace_json_blocks 0 rest.
Proof.
  intros H. unfold Spec.fenced. rewrite <- !app_assoc.
  change (JS.lit "```json") with (0x60%N :: JS.lit "``json").
  cbn [app ChatMessageList.replace_json_blocks].
  change (0x60%N :: JS.lit "``json" ++ body ++ JS.lit "```" ++ rest)
    with (JS.lit "```json" ++ body ++ JS.lit "```" ++ rest).
  rewrite startsWith_app.
  change (JS.slice (JS.lit "```json" ++ body ++ JS.lit "```" ++ rest) 7)
    with (body ++ JS.lit "```" ++ rest).
  rewrite closing_fence_plain by exact H.
  replace (6 + List.length body + 3)%nat
    with (List.length (JS.lit "``json" ++ body ++ JS.lit "```"))
    by (rewrite !length_app; cbn; lia).
  rewrite <- replace_skip with (a := JS.lit "``json" ++ body ++ JS.lit "```").
  rewrite <- !app_assoc. reflexivity.
Qed.

Lemma replace_with_blocks blocks rest : forall t0,
  Spec.plain t0 ->
  Forall (fun bt => Spec.plain (fst bt) /\ Spec.plain (snd bt)) blocks ->
  ChatMessageList.replace_json_blocks 0 (Spec.with_blocks t0 blocks ++ rest) =
  t0 ++ List.concat (map snd blocks)
  ++ ChatMessageList.replace_json_blocks 0 rest.
Proof.
  unfold Spec.with_blocks.
  induction blocks as [|[b t] blocks IH]; intros t0 H0 H;
    cbn [map List.concat fst snd].
  - rewrite app_nil_r. cbn [app]. apply replace_plain, H0.
  - inversion H as [|? ? [Hb Ht] Hr]; subst. cbn [fst snd] in *.
    rewrite <- !app_assoc. rewrite replace_plain by exact H0.
    rewrite replace_fenced by exact Hb.
    specialize (IH t Ht Hr). rewrite <- app_assoc in IH. rewrite IH.
    reflexivity.
Qed.

Lemma replace_step c r :
  JS.startsWith (c :: r) (JS.lit "```json") = false ->
  ChatMessageList.replace_json_blocks 0 (c :: r) =
  c :: ChatMessageList.replace_json_blocks 0 r.
Proof.
  intros H. cbn [ChatMessageList.replace_json_blocks]. rewrite H.
  reflexivity.
Qed.

Lemma replace_all_plain s :
  Spec.plain s -> ChatMessageList.replace_json_blocks 0 s = s.
Proof.
  intros Hs. rewrite <- (app_nil_r s) at 1.
  rewrite replace_plain by exact Hs. cbn. apply app_nil_r.
Qed.

Lemma replace_open c r :
  JS.startsWith (c :: r) (JS.lit "```json") = true ->
  ChatMessageList.closing_fence (JS.slice (c :: r) 7) = None ->
  ChatMessageList.replace_json_blocks 0 (c :: r) =
  c :: ChatMessageList.replace_json_blocks 0 r.
Proof.
  intros H1 H2. cbn [ChatMessageList.replace_json_blocks].
  rewrite H1, H2. reflexivity.
Qed.

Lemma replace_unclosed body :
  Spec.plain body ->
  ChatMessageList.replace_json_blocks 0 (JS.lit "```json" ++ body) =
  JS.lit "```json" ++ body.
Proof.
  intros Hb.
  change (JS.lit "```json" ++ body)
    with (0x60%N :: 0x60%N :: 0x60%N :: JS.lit "json" ++ body).
  rewrite replace_open;
    [|apply (startsWith_app (JS.lit "```json") body)
     |apply closing_fence_none, Hb].
  rewrite !replace_step by reflexivity.
  rewrite replace_all_plain; [reflexivity|].
  unfold Spec.plain in *. intros X. apply in_app_or in X.
  destruct X as [X|X]; [|exact (Hb X)].
  cbn in X. repeat (destruct X as [X|X]; [discriminate X|]). exact X.
Qed.

(** X9.  [removeJsonCodeBlock] cuts every block [```json ... ```] out of a
    text and trims what is left: for a text made of pieces without a
    backtick with such blocks between them, the bodies of the blocks
    holding no backtick either, the result is the pieces put together,
    trimmed.  A text without a backtick is only trimmed,
    and a block that is not closed stays in the text. *)
Theorem removeJsonCodeBlock_cuts_blocks
  (t0 : JS.jsstring) (blocks : list (JS.jsstring * JS.jsstring))
  (body : JS.jsstring) :
  Spec.plain t0 ->
  Forall (fun bt => Spec.plain (fst bt) /\ Spec.plain (snd bt)) blocks ->
  Spec.plain body ->
  ChatMessageList.removeJsonCodeBlock (Spec.with_blocks t0 blocks)
    = JS.trim (t0 ++ List.concat (map snd blocks))
  /\ ChatMessageList.removeJsonCodeBlock t0 = JS.trim t0
  /\ ChatMessageList.removeJsonCodeBlock
       (Spec.with_blocks t0 blocks ++ JS.lit "```json" ++ body)
     = JS.trim (t0 ++ List.concat (map snd blocks)
                ++ JS.lit "```json" ++ body).
Proof.
  intros H0 H Hb. unfold ChatMessageList.removeJsonCodeBlock.
  split; [|split].
  - rewrite <- (app_nil_r (Spec.with_blocks t0 blocks)).
    rewrite replace_with_blocks by assumption.
    cbn [ChatMessageList.replace_json_blocks]. rewrite app_nil_r.
    reflexivity.
  - rewrite replace_all_plain by exact H0. reflexivity.
  - rewrite replace_with_blocks by assumption.
    rewrite replace_unclosed by exact Hb. reflexivity.
Qed.

Lemma removeJsonCodeBlock_cuts_blocks_witness :
  Spec.plain (JS.lit "Totals by month. ")
  /\ Forall (fun bt => Spec.plain (fst bt) /\ Spec.plain (snd bt))
       [(Spec.line_text "{'series':[1,2]}", JS.lit " Done.")]
  /\ Spec.plain (JS.lit "{")
  /\ ChatMessageList.removeJsonCodeBlock Spec.answer_with_block
     = JS.lit "Totals by month.  Done.".
Proof.
  assert (P : forall s, forallb (fun c => negb (N.eqb c 0x60)) s = true ->
                        Spec.plain s).
  { intros s Hs X. rewrite forallb_forall in Hs. specialize (Hs _ X).
    discriminate Hs. }
  assert (H0 : Spec.plain (JS.lit "Totals by month. "))
    by (apply P; reflexivity).
  assert (H1 : Forall (fun bt => Spec.plain (fst bt) /\ Spec.plain (snd bt))
                 [(Spec.line_text "{'series':[1,2]}", JS.lit " Done.")]).
  { constructor; [|constructor]. split; apply P; reflexivity. }
  assert (H2 : Spec.plain (JS.lit "{")) by (apply P; reflexivity).
  split; [exact H0|]. split; [exact H1|]. split; [exact H2|].
  destruct (removeJsonCodeBlock_cuts_blocks _ _ _ H0 H1 H2) as [E _].
  unfold Spec.answer_with_block. rewrite E. reflexivity.
Defined.

(** ** The text of a frame reaches the consumer as it is *)

Lemma lex_unescaped s : forall acc rest,
  forallb Spec.unescaped s = true ->
  JSON.lex (JSON.LStr acc) (s ++ 0x22%N :: rest) =
  match JSON.lex JSON.LStart rest with
  | Some ts => Some (JSON.TStr (rev acc ++ s) :: ts)
  | None => None
  end.
Proof.
  induction s as [|c s IH]; intros acc rest H.
  - cbn [app JSON.lex JSON.lstep]. cbn [N.eqb Pos.eqb]. rewrite app_nil_r.
    destruct (JSON.lex JSON.LStart rest); reflexivity.
  - cbn [forallb] in H. apply andb_true_iff in H. destruct H as [Hc Hs].
    unfold Spec.unescaped in Hc.
    apply andb_true_iff in Hc. destruct Hc as [Hc H3].
    apply andb_true_iff in Hc. destruct Hc as [H1 H2].
    apply negb_true_iff in H2, H3. apply N.leb_le in H1.
    cbn [app JSON.lex JSON.lstep]. rewrite H2, H3.
    rewrite (proj2 (N.ltb_ge c 0x20) H1).
    rewrite IH by exact Hs. cbn [rev]. rewrite <- app_assoc.
    destruct (JSON.lex JSON.LStart rest); reflexivity.
Qed.

Lemma frame_parsed kind field s :
  forallb Spec.unescaped kind = true ->
  forallb Spec.unescaped field = true ->
  forallb Spec.unescaped s = true ->
  JSON.parse (JS.slice (Spec.frame_line kind field s) 6)
  = Some (JS.Obj (JS.set_prop [(JS.lit "type", JS.Str kind)] field (JS.Str s))).
Proof.
  intros Hk Hf Hs. unfold JSON.parse, Spec.frame_line.
  change (JS.slice (Spec.line_text "data: {'type':'" ++ ?t) 6)
    with ([0x7B%N; 0x22%N] ++ JS.lit "type" ++ [0x22%N; 0x3A%N; 0x22%N] ++ t).
  change (Spec.line_text "','") with [0x22%N; 0x2C%N; 0x22%N].
  change (Spec.line_text "':'") with [0x22%N; 0x3A%N; 0x22%N].
  change (Spec.line_text "'}") with [0x22%N; 0x7D%N].
  cbn [app]. cbn [JSON.lex JSON.lstep JSON.lstart existsb N.eqb Pos.eqb orb].
  rewrite (lex_unescaped (JS.lit "type")) by reflexivity.
  cbn [JSON.lex JSON.lstep JSON.lstart existsb N.eqb Pos.eqb orb].
  rewrite lex_unescaped by exact Hk.
  cbn [JSON.lex JSON.lstep JSON.lstart existsb N.eqb Pos.eqb orb].
  rewrite lex_unescaped by exact Hf.
  cbn [JSON.lex JSON.lstep JSON.lstart existsb N.eqb Pos.eqb orb].
  rewrite lex_unescaped by exact Hs.
  cbn [JSON.lex JSON.lstep JSON.lstart existsb N.eqb Pos.eqb orb
       JSON.lfinish app rev].
  reflexivity.
Qed.

Lemma frame_line_handled kind field s :
  forallb Spec.unescaped kind = true ->
  forallb Spec.unescaped field = true ->
  forallb Spec.unescaped s = true ->
  Api.process_line (Spec.frame_line kind field s)
  = Api.dispatch
      (JS.Obj (JS.set_prop [(JS.lit "type", JS.Str kind)] field (JS.Str s))).
Proof.
  intros Hk Hf Hs. unfold Api.process_line.
  rewrite frame_parsed by assumption.
  assert (S : JS.startsWith (Spec.frame_line kind field s) (JS.lit "data: ")
              = true) by reflexivity.
  rewrite S.
  assert (T : JS.truthy (JS.Str (JS.trim (JS.slice
                (Spec.frame_line kind field s) 6))) = true).
  { apply negb_false_iff. rewrite not_truthy_trim. reflexivity. }
  rewrite T. reflexivity.
Qed.

Lemma chunk_line_handled s :
  Spec.chunk_text s ->
  Api.process_line (Spec.chunk_line s) = [Api.onChunk (JS.Str s)].
Proof.
  intros [Hn Hs]. unfold Spec.chunk_line.
  rewrite frame_line_handled by (try reflexivity; exact Hs).
  destruct s as [|c s]; [congruence | reflexivity].
Qed.

(** X10.  A chunk frame whose text needs no escape makes the consumer call
    [onChunk] with that very text, or nothing when the text is empty; an
    error frame makes it call [onError] with its message, or with the
    default when the message is empty.  So after frames for the chunks
    of an answer and a [done] frame, the turn has written an entry that
    holds the chunks put together, in order: it is in the transcript
    whatever answers to earlier selections arrived meanwhile, and when
    none did the transcript is the earlier entries, the user entry and
    that entry. *)
Theorem frame_text_delivered
  (p : SessionPage.Page) (text : JS.jsstring) (now_a now_u : N)
  (s : JS.jsstring) (chunks : list JS.jsstring) :
  forallb Spec.unescaped s = true ->
  Forall Spec.chunk_text chunks ->
  SessionPage.turn p = None ->
  SessionPage.rejected (SessionPage.state p) = false ->
  let answer := ChatMessageList.message (Turn.assistant_id now_a)
                  ChatMessageList.assistant (List.concat chunks) in
  Api.process_line (Spec.chunk_line s)
    = match s with [] => [] | _ :: _ => [Api.onChunk (JS.Str s)] end
  /\ Api.process_line (Spec.error_line s)
     = [Api.onError (match s with
                     | [] => Spec.unknown_error
                     | _ :: _ => JS.Str s
                     end)]
  /\ Turn.typed_all
       (flat_map Api.process_line
          (map Spec.chunk_line chunks ++ [Spec.done_line]))
     = Some (Turn.events (Spec.delivered chunks))
  /\ (forall middle p',
        forallb Spec.in_turn middle = true ->
        Spec.events_of middle = Turn.events (Spec.delivered chunks) ->
        SessionPage.run p (Spec.turn_tasks text now_a now_u middle None)
          = Some p' ->
        In answer (SessionPage.messages (SessionPage.state p')))
  /\ (exists p',
        SessionPage.run p
          (Spec.turn_tasks text now_a now_u
             (map SessionPage.callback (Turn.events (Spec.delivered chunks)))
             None) = Some p'
        /\ SessionPage.messages (SessionPage.state p')
           = SessionPage.messages (SessionPage.state p)
             ++ [ChatMessageList.message (Turn.user_id now_u)
                   ChatMessageList.user text; answer]).
Proof.
  intros Hs Hc Hn Hr answer. split; [|split; [|split; [|split]]].
  - unfold Spec.chunk_line.
    rewrite frame_line_handled by (try reflexivity; exact Hs).
    destruct s; reflexivity.
  - unfold Spec.error_line.
    rewrite frame_line_handled by (try reflexivity; exact Hs).
    destruct s; reflexivity.
  - rewrite flat_map_app. cbn [flat_map]. rewrite app_nil_r.
    change (Api.process_line Spec.done_line) with [Api.onDone JS.Null].
    unfold Spec.delivered. cbn [Turn.events].
    induction Hc as [|c chunks Hc0 _ IH]; [reflexivity|].
    cbn [map flat_map app]. rewrite chunk_line_handled by exact Hc0.
    cbn [app Turn.typed_all Turn.typed]. rewrite IH. reflexivity.
  - intros middle p' Hall Hev E. unfold Spec.turn_tasks in E.
    cbn [SessionPage.run SessionPage.task] in E. rewrite Hr in E.
    rewrite run_app in E.
    match type of E with
    | match SessionPage.run ?q _ with _ => _ end = _ => set (p1 := q) in E
    end.
    destruct (SessionPage.run p1 middle) as [p2|] eqn:E2; [|discriminate].
    destruct (in_turn_run middle p1 _ p2 Hall eq_refl E2) as (T2 & _).
    cbn [SessionPage.run SessionPage.task] in E. rewrite T2 in E.
    injection E as <-.
    cbn [SessionPage.state SessionPage.with_messages SessionPage.messages].
    pose proof (last_write middle p1 _ p2 (map Turn.Chunk chunks)
                  (Turn.Done JS.Null) Hall eq_refl E2 Hev) as W.
    cbn [SessionPage.assistantMsgId SessionPage.streamContent app] in W.
    rewrite text_of_chunks in W. exact W.
  - destruct (run_turn_alone p text now_a now_u (Spec.delivered chunks) Hn Hr)
      as [R _].
    eexists. split; [exact R|]. cbn [SessionPage.state].
    unfold SessionPage.handleSend. rewrite Hr.
    unfold SessionPage.with_messages. cbn [SessionPage.messages].
    unfold Turn.settled, Spec.delivered. cbn [Turn.events Turn.thrown].
    unfold Turn.streamed. rewrite on_events_app.
    fold (Turn.streamed (SessionPage.messages (SessionPage.state p)) text
            now_a now_u (map Turn.Chunk chunks)).
    rewrite streamed_chunks.
    unfold Turn.on_events. cbn [fold_left Turn.on_event].
    set (msgs := SessionPage.messages (SessionPage.state p)).
    set (u := ChatMessageList.message (Turn.user_id now_u)
                ChatMessageList.user text).
    assert (A : forall x : ChatMessageList.ChatMessage,
               msgs ++ [u; x] = (msgs ++ [u]) ++ [x])
      by (intros; rewrite <- app_assoc; reflexivity).
    rewrite !A, replace_last_snoc. reflexivity.
Qed.

Lemma frame_text_delivered_witness :
  forallb Spec.unescaped (JS.lit "boom") = true
  /\ Forall Spec.chunk_text [JS.lit "Here"; JS.lit " it is"]
  /\ SessionPage.turn Spec.awaiting_answer = None
  /\ SessionPage.rejected (SessionPage.state Spec.awaiting_answer) = false
  /\ Api.process_line (Spec.error_line (JS.lit "boom"))
     = [Api.onError (JS.Str (JS.lit "boom"))]
  /\ exists p',
       SessionPage.run Spec.awaiting_answer
         (Spec.turn_tasks (JS.lit "plot") 1000 1001
            [SessionPage.callback (Turn.Chunk (JS.lit "Here"));
             SessionPage.answered 0 (inr Spec.two_sheets) 1500;
             SessionPage.callback (Turn.Chunk (JS.lit " it is"));
             SessionPage.callback (Turn.Done JS.Null)] None) = Some p'
       /\ In (ChatMessageList.message (JS.lit "a-1000")
                ChatMessageList.assistant (JS.lit "Here it is"))
             (SessionPage.messages (SessionPage.state p')).
Proof.
  assert (H1 : forallb Spec.unescaped (JS.lit "boom") = true) by reflexivity.
  assert (H2 : Forall Spec.chunk_text [JS.lit "Here"; JS.lit " it is"]).
  { constructor; [split; [discriminate | reflexivity]|].
    constructor; [split; [discriminate | reflexivity]|constructor]. }
  destruct (frame_text_delivered Spec.awaiting_answer (JS.lit "plot")
              1000 1001 (JS.lit "boom") [JS.lit "Here"; JS.lit " it is"]
              H1 H2 eq_refl eq_refl)
    as (_ & E & _ & M & _).
  split; [exact H1|]. split; [exact H2|]. split; [reflexivity|].
  split; [reflexivity|]. split; [exact E|].
  eexists. split; [reflexivity|].
  exact (M [SessionPage.callback (Turn.Chunk (JS.lit "Here"));
            SessionPage.answered 0 (inr Spec.two_sheets) 1500;
            SessionPage.callback (Turn.Chunk (JS.lit " it is"));
            SessionPage.callback (Turn.Done JS.Null)] _
           eq_refl eq_refl eq_refl).
Defined.

(** ** The registry in every view the list reaches *)

Section AssocIn.
Context {A : Type}.
Implicit Types (m : list (JS.jsstring * A)) (k : JS.jsstring) (v : A).

Lemma assoc_set_in m k v k' x :
  In (k', x) (ChatMessageList.assoc_set m k v) ->
  (k' = k /\ x = v) \/ In (k', x) m.
Proof.
  induction m as [|[k0 v0] m IH]; cbn [ChatMessageList.assoc_set In].
  - intros [E|[]]. inversion E; auto.
  - destruct (JS.eqb k0 k) eqn:E; cbn [In].
    + apply eqb_eq in E. subst k0. intros [H|H]; [inversion H|]; auto.
    + intros [H|H]; auto. destruct (IH H); auto.
Qed.

Lemma assoc_set_in_same m k v : In (k, v) (ChatMessageList.assoc_set m k v).
Proof.
  induction m as [|[k0 v0] m IH]; cbn [ChatMessageList.assoc_set In]; auto.
  destruct (JS.eqb k0 k) eqn:E; cbn [In]; auto.
  apply eqb_eq in E. subst. auto.
Qed.

Lemma assoc_set_in_other m k v k' x :
  k' <> k -> In (k', x) m -> In (k', x) (ChatMessageList.assoc_set m k v).
Proof.
  intros Hk. induction m as [|[k0 v0] m IH];
    cbn [ChatMessageList.assoc_set In]; [tauto|].
  destruct (JS.eqb k0 k) eqn:E; cbn [In].
  - apply eqb_eq in E. subst k0. intros [H|H]; auto.
    inversion H; subst. congruence.
  - intros [H|H]; auto.
Qed.

Lemma assoc_set_lookup m k v k' :
  ChatMessageList.assoc k' (ChatMessageList.assoc_set m k v) =
  if JS.eqb k k' then Some v else ChatMessageList.assoc k' m.
Proof.
  induction m as [|[k0 v0] m IH];
    cbn [ChatMessageList.assoc_set ChatMessageList.assoc]; [reflexivity|].
  destruct (JS.eqb k0 k) eqn:E; cbn [ChatMessageList.assoc].
  - apply eqb_eq in E. subst k0. destruct (JS.eqb k k'); reflexivity.
  - rewrite IH. destruct (JS.eqb k0 k') eqn:E2; [|reflexivity].
    apply eqb_eq in E2. subst k0. apply eqb_neq in E.
    rewrite (proj2 (eqb_neq k k')) by congruence. reflexivity.
Qed.

Lemma assoc_remove_in m k k' x :
  In (k', x) (ChatMessageList.assoc_remove m k) -> In (k', x) m.
Proof.
  induction m as [|[k0 v0] m IH]; cbn [ChatMessageList.assoc_remove In];
    [tauto|].
  destruct (JS.eqb k0 k); cbn [In]; [auto|]. intros [H|H]; auto.
Qed.

Lemma assoc_remove_in_other m k k' x :
  k' <> k -> In (k', x) m -> In (k', x) (ChatMessageList.assoc_remove m k).
Proof.
  intros Hk. induction m as [|[k0 v0] m IH];
    cbn [ChatMessageList.assoc_remove In]; [tauto|].
  destruct (JS.eqb k0 k) eqn:E; cbn [In].
  - apply eqb_eq in E. subst k0. intros [H|H]; auto.
    inversion H; subst. congruence.
  - intros [H|H]; auto.
Qed.

Lemma assoc_remove_lookup m k k' :
  k' <> k ->
  ChatMessageList.assoc k' (ChatMessageList.assoc_remove m k) =
  ChatMessageList.assoc k' m.
Proof.
  intros Hk. induction m as [|[k0 v0] m IH];
    cbn [ChatMessageList.assoc_remove ChatMessageList.assoc]; [reflexivity|].
  destruct (JS.eqb k0 k) eqn:E; cbn [ChatMessageList.assoc].
  - apply eqb_eq in E. subst k0.
    rewrite (proj2 (eqb_neq k k')) by congruence. reflexivity.
  - rewrite IH. reflexivity.
Qed.

Lemma assoc_remove_no_key m k x :
  NoDup (map fst m) -> ~ In (k, x) (ChatMessageList.assoc_remove m k).
Proof.
  intros Hn Hin. pose proof (assoc_remove_gone m k Hn) as G.
  apply has_false_not_in in G. apply G.
  apply in_map_iff. exists (k, x). auto.
Qed.

Lemma assoc_remove_lookup_same m k :
  NoDup (map fst m) ->
  ChatMessageList.assoc k (ChatMessageList.assoc_remove m k) = None.
Proof.
  intros Hn. pose proof (assoc_remove_gone m k Hn) as G.
  unfold ChatMessageList.has in G.
  destruct (ChatMessageList.assoc k (ChatMessageList.assoc_remove m k));
    [discriminate | reflexivity].
Qed.

Variable B : Type.
Variable g : JS.jsstring * A -> B.
Hypothesis g_value : forall k k' v, g (k, v) = g (k', v).

Lemma assoc_set_image m k v :
  NoDup (map g m) -> ~ In (g (k, v)) (map g m) ->
  NoDup (map g (ChatMessageList.assoc_set m k v)).
Proof.
  induction m as [|[k0 v0] m IH]; cbn [ChatMessageList.assoc_set map];
    intros Hn Hf.
  - constructor; [intros []|constructor].
  - inversion Hn as [|? ? H1 H2]; subst.
    destruct (JS.eqb k0 k); cbn [map].
    + constructor; [|exact H2]. rewrite (g_value k0 k v).
      intros X. apply Hf. right. exact X.
    + constructor.
      * intros X. apply in_map_iff in X. destruct X as ([k1 v1] & E1 & I1).
        apply assoc_set_in in I1. destruct I1 as [[-> ->]|I1].
        -- apply Hf. left. congruence.
        -- apply H1. rewrite <- E1. apply in_map. exact I1.
      * apply IH; [exact H2|]. intros X. apply Hf. right. exact X.
Qed.

Lemma assoc_remove_image m k :
  NoDup (map g m) -> NoDup (map g (ChatMessageList.assoc_remove m k)).
Proof.
  induction m as [|[k0 v0] m IH]; cbn [ChatMessageList.assoc_remove map];
    intros Hn; [constructor|].
  inversion Hn as [|? ? H1 H2]; subst.
  destruct (JS.eqb k0 k); cbn [map]; [exact H2|].
  constructor; [|apply IH, H2].
  intros X. apply in_map_iff in X. destruct X as ([k1 v1] & E1 & I1).
  apply assoc_remove_in in I1. apply H1. rewrite <- E1.
  apply in_map. exact I1.
Qed.

Lemma image_inj m x y :
  NoDup (map g m) -> In x m -> In y m -> g x = g y -> x = y.
Proof.
  induction m as [|z m IH]; cbn [map In]; [tauto|].
  intros Hn Hx Hy E. inversion Hn as [|? ? H1 H2]; subst.
  destruct Hx as [->|Hx], Hy as [->|Hy]; auto.
  - exfalso. apply H1. rewrite E. apply in_map, Hy.
  - exfalso. apply H1. rewrite <- E. apply in_map, Hx.
Qed.

End AssocIn.

Lemma setOption_keeps live h s x o :
  In (x, o) live -> exists o', In (x, o') (ChatMessageList.setOption live h s).
Proof.
  induction live as [|[h' o'] live IH]; cbn [ChatMessageList.setOption In];
    [tauto|].
  destruct (Nat.eqb h' h); cbn [In].
  - intros [E|Hin]; [inversion E; subst; eauto | eauto].
  - intros [E|Hin]; [inversion E; subst; eauto|].
    destruct (IH Hin) as [o2 H2]. eauto.
Qed.

Lemma dispose_keeps live h x o :
  x <> h -> In (x, o) live -> In (x, o) (ChatMessageList.dispose live h).
Proof.
  intros Hx Hin. unfold ChatMessageList.dispose. apply filter_In.
  split; [exact Hin|]. apply negb_true_iff, Nat.eqb_neq. exact Hx.
Qed.

Lemma wf_cleanup v id :
  Spec.wf_view v -> Spec.wf_view (ChatMessageList.cleanup v id).
Proof.
  intros (W1 & W2 & W3). unfold ChatMessageList.cleanup.
  destruct (ChatMessageList.assoc id (ChatMessageList.mounted v)) as [ref|];
    [|repeat split; auto].
  unfold ChatMessageList.handleInstanceDestroy, ChatMessageList.Map_delete.
  repeat split; cbn.
  - apply assoc_remove_NoDup, W1.
  - apply assoc_set_NoDup, W2.
  - intros x o Hin. destruct ref as [h|]; [|eapply W3, Hin].
    unfold ChatMessageList.dispose in Hin. apply filter_In in Hin.
    eapply W3, (proj1 Hin).
Qed.

Lemma handle_value (k k' : JS.jsstring) r : Spec.handle (k, r) = Spec.handle (k', r).
Proof. reflexivity. Qed.

Lemma sound_empty : Spec.sound ChatMessageList.empty_view.
Proof.
  split; [apply wf_empty_view|]. cbn. repeat split; try tauto.
  - constructor.
  - discriminate.
Qed.

Lemma sound_mount v k : Spec.sound v -> Spec.sound (ChatMessageList.mount v k).
Proof.
  intros (W & A & B & C & D). split; [apply wf_mount, W|].
  split; [exact A|]. split; [exact B|]. split; [|exact D].
  intros k' h. unfold ChatMessageList.mount.
  cbn [ChatMessageList.mounted ChatMessageList.chartInstances].
  rewrite assoc_set_lookup.
  destruct (JS.eqb k k'); [discriminate | apply C].
Qed.

(** Destroying the record of a chart and disposing of its instance. *)
Lemma sound_destroy v k ref mounted' :
  Spec.sound v ->
  ChatMessageList.assoc k (ChatMessageList.mounted v) = Some ref ->
  (forall k' h, ChatMessageList.assoc k' mounted' = Some (Some h) ->
                k' <> k
                /\ ChatMessageList.assoc k' (ChatMessageList.mounted v)
                   = Some (Some h)) ->
  let v' :=
    {| ChatMessageList.created := ChatMessageList.created v;
       ChatMessageList.live :=
         match ref with
         | Some h => ChatMessageList.dispose (ChatMessageList.live v) h
         | None => ChatMessageList.live v
         end;
       ChatMessageList.mounted := mounted';
       ChatMessageList.chartInstances :=
         ChatMessageList.assoc_remove (ChatMessageList.chartInstances v) k;
       ChatMessageList.reported :=
         Some (List.length
                 (ChatMessageList.Map_values
                    (ChatMessageList.assoc_remove
                       (ChatMessageList.chartInstances v) k))) |} in
  (forall k' r, In (k', r) (ChatMessageList.chartInstances v') ->
        ChatMessageList.messageId r = k'
        /\ exists o, In (ChatMessageList.instance r, o) (ChatMessageList.live v'))
  /\ NoDup (map Spec.handle (ChatMessageList.chartInstances v'))
  /\ (forall k' h,
        ChatMessageList.assoc k' (ChatMessageList.mounted v') = Some (Some h) ->
        exists r, In (k', r) (ChatMessageList.chartInstances v')
                  /\ ChatMessageList.instance r = h)
  /\ Spec.chartCount v' = List.length (ChatMessageList.chartInstances v').
Proof.
  intros ((W1 & W2 & W3) & A & B & C & D) Hm Hmounted. cbn.
  split; [|split; [|split]].
  - intros k' r Hin. pose proof (assoc_remove_in _ _ _ _ Hin) as Hin0.
    destruct (A _ _ Hin0) as [Hid [o Ho]]. split; [exact Hid|].
    destruct ref as [h|]; [|eauto].
    exists o. apply dispose_keeps; [|exact Ho]. intros Eh.
    destruct (C _ _ Hm) as (rk & Hk & Ek).
    assert (X : (k', r) = (k, rk)).
    { apply (image_inj _ Spec.handle _ _ _ B Hin0 Hk).
      unfold Spec.handle. cbn. congruence. }
    inversion X; subst.
    exact (assoc_remove_no_key _ _ _ W1 Hin).
  - apply assoc_remove_image, B.
  - intros k' h Hk. destruct (Hmounted _ _ Hk) as [Hne Hold].
    destruct (C _ _ Hold) as (r & Hin & Hr). exists r. split; [|exact Hr].
    apply assoc_remove_in_other; assumption.
  - unfold Spec.chartCount, ChatMessageList.Map_values. cbn.
    apply length_map.
Qed.

Lemma sound_unmount v k :
  Spec.sound v -> Spec.sound (ChatMessageList.unmount v k).
Proof.
  intros S. split; [apply wf_unmount, S|].
  unfold ChatMessageList.unmount.
  destruct (ChatMessageList.assoc k (ChatMessageList.mounted v)) as [ref|] eqn:M;
    [|apply S].
  unfold ChatMessageList.handleInstanceDestroy, ChatMessageList.Map_delete.
  apply (sound_destroy v k ref _ S M).
  intros k' h Hk. destruct S as ((_ & W2 & _) & _).
  destruct (JS.eqb k' k) eqn:E.
  - apply eqb_eq in E. subst k'.
    rewrite assoc_remove_lookup_same in Hk by exact W2. discriminate.
  - apply eqb_neq in E. rewrite assoc_remove_lookup in Hk by exact E. auto.
Qed.

Lemma sound_cleanup v k :
  Spec.sound v -> Spec.sound (ChatMessageList.cleanup v k).
Proof.
  intros S. split; [apply wf_cleanup, S|].
  unfold ChatMessageList.cleanup.
  destruct (ChatMessageList.assoc k (ChatMessageList.mounted v)) as [ref|] eqn:M;
    [|apply S].
  unfold ChatMessageList.handleInstanceDestroy, ChatMessageList.Map_delete.
  apply (sound_destroy v k ref _ S M).
  intros k' h. rewrite assoc_set_lookup.
  destruct (JS.eqb k k') eqn:E; [discriminate|].
  apply eqb_neq in E. auto.
Qed.

Lemma sound_effect v k config v' :
  Spec.sound v -> ChatMessageList.chart_effect v k config = Some v' ->
  Spec.sound v'.
Proof.
  intros S He. split; [eapply wf_chart_effect; [apply S | exact He]|].
  destruct S as ((W1 & W2 & W3) & A & B & C & D).
  revert He. unfold ChatMessageList.chart_effect.
  destruct (ChatMessageList.assoc k (ChatMessageList.mounted v)) as [ref|] eqn:M;
    [|intros H; inversion H; subst; auto].
  destruct (JS.truthy config); cbn [negb];
    [|intros H; inversion H; subst; auto].
  destruct ref as [h|].
  - destruct (ChatMessageList.safeConfig config) as [safe|]; [|discriminate].
    intros H; inversion H; subst; clear H. cbn. repeat split; auto.
    + apply A. assumption.
    + destruct (A _ _ H) as [_ [o Ho]].
      apply setOption_keeps with (o := o). exact Ho.
  - unfold ChatMessageList.handleInstanceReady, ChatMessageList.Map_set.
    destruct (ChatMessageList.safeConfig config) as [safe|]; [|discriminate].
    intros H; inversion H; subst; clear H. cbn.
    split; [|split; [|split]].
    + intros k' r Hin. apply assoc_set_in in Hin.
      destruct Hin as [[-> ->]|Hin]; cbn.
      * split; [reflexivity|].
        apply setOption_keeps with (o := None).
        apply in_or_app. right. left. reflexivity.
      * destruct (A _ _ Hin) as [Hid [o Ho]]. split; [exact Hid|].
        apply setOption_keeps with (o := o). apply in_or_app. left. exact Ho.
    + apply assoc_set_image; [intros; reflexivity | exact B |].
      intros X. apply in_map_iff in X. destruct X as ([k1 r1] & E1 & I1).
      destruct (A _ _ I1) as [_ [o Ho]]. apply W3 in Ho.
      unfold Spec.handle in E1. cbn in E1. lia.
    + intros k' h. rewrite assoc_set_lookup.
      destruct (JS.eqb k k') eqn:E.
      * apply eqb_eq in E. subst k'. intros X. inversion X; subst.
        eexists. split; [apply assoc_set_in_same | reflexivity].
      * apply eqb_neq in E. intros X. destruct (C _ _ X) as (r & Hin & Hr).
        exists r. split; [|exact Hr].
        apply assoc_set_in_other; [congruence | exact Hin].
    + unfold Spec.chartCount, ChatMessageList.Map_values. cbn.
      apply length_map.
Qed.

Lemma sound_run ops : forall v v',
  Spec.sound v -> Spec.view_run v ops = Some v' -> Spec.sound v'.
Proof.
  induction ops as [|op ops IH]; intros v v' S; cbn [Spec.view_run].
  - intros H; inversion H; subst; exact S.
  - destruct (Spec.view_step v op) as [v1|] eqn:E; [|discriminate].
    apply IH. destruct op; cbn [Spec.view_step] in E.
    + inversion E; subst. apply sound_mount, S.
    + eapply sound_effect; [exact S | exact E].
    + inversion E; subst. apply sound_cleanup, S.
    + inversion E; subst. apply sound_unmount, S.
Qed.

Lemma forEach_setTimeout_items items : forall i,
  map snd (ChatMessageList.forEach_setTimeout i items) = items.
Proof.
  induction items as [|x r IH]; intros i;
    cbn [ChatMessageList.forEach_setTimeout map snd]; [reflexivity|].
  rewrite IH. reflexivity.
Qed.

(** X11.  Whatever charts mount, draw, run their cleanup and unmount, in any
    order: every record of the registry names an instance that is not
    disposed of, under the id of its entry; no instance is named by two
    records; the count handed to the page is the number of records.  So
    [exportAllCharts] sets one timer per chart counted, each for a live
    instance, and alerts only when the count is 0. *)
Theorem registry_names_live_instances
  (ops : list Spec.Op) (v : ChatMessageList.View) :
  Spec.view_run ChatMessageList.empty_view ops = Some v ->
  let records := ChatMessageList.Map_values (ChatMessageList.chartInstances v) in
  (forall r, In r records ->
     exists o, In (ChatMessageList.instance r, o) (ChatMessageList.live v))
  /\ NoDup (map ChatMessageList.instance records)
  /\ NoDup (map ChatMessageList.messageId records)
  /\ Spec.chartCount v = List.length records
  /\ match ChatMessageList.exportAllCharts (ChatMessageList.chartInstances v) with
     | ChatMessageList.timers scheduled =>
         List.length scheduled = Spec.chartCount v
         /\ (0 < Spec.chartCount v)%nat
         /\ map snd scheduled = records
     | ChatMessageList.alert _ => Spec.chartCount v = 0%nat
     end.
Proof.
  intros R. apply (sound_run ops _ _ sound_empty) in R.
  destruct R as ((W1 & _ & _) & A & B & _ & D). cbv zeta.
  unfold ChatMessageList.Map_values.
  split; [|split; [|split; [|split]]].
  - intros r Hin. apply in_map_iff in Hin. destruct Hin as ([k r'] & <- & Hin).
    apply (A _ _ Hin).
  - rewrite map_map. exact B.
  - rewrite map_map.
    replace (map (fun x => ChatMessageList.messageId (snd x))
               (ChatMessageList.chartInstances v))
      with (map fst (ChatMessageList.chartInstances v)); [exact W1|].
    apply map_ext_in. intros [k r] Hin. cbn. symmetry. apply (A _ _ Hin).
  - rewrite length_map. exact D.
  - unfold ChatMessageList.exportAllCharts, ChatMessageList.Map_values.
    rewrite length_map, D.
    destruct (ChatMessageList.chartInstances v) as [|kr m] eqn:E;
      cbn [List.length Nat.eqb]; [reflexivity|].
    split; [|split; [lia | apply forEach_setTimeout_items]].
    rewrite <- (length_map snd), forEach_setTimeout_items, length_map.
    reflexivity.
Qed.

Lemma registry_names_live_instances_witness :
  exists v,
    Spec.view_run ChatMessageList.empty_view Spec.two_charts = Some v
    /\ map ChatMessageList.instance
         (ChatMessageList.Map_values (ChatMessageList.chartInstances v))
       = [2%nat]
    /\ map fst (ChatMessageList.live v) = [2%nat]
    /\ Spec.chartCount v = 1%nat.
Proof.
  destruct (Spec.view_run ChatMessageList.empty_view Spec.two_charts) as [v|] eqn:R;
    [|discriminate R].
  exists v.
  destruct (registry_names_live_instances Spec.two_charts v R)
    as (_ & _ & _ & C & _).
  vm_compute in R. injection R as <-.
  split; [reflexivity|]. split; [reflexivity|]. split; [reflexivity|].
  exact C.
Defined.

(** ** What the normalisation leaves alone *)

Lemma set_prop_keys ps k v :
  map fst (JS.set_prop ps k v) =
  match JS.lookup k ps with
  | Some _ => map fst ps
  | None => map fst ps ++ [k]
  end.
Proof.
  induction ps as [|[k0 v0] ps IH]; cbn [JS.set_prop JS.lookup map app];
    [reflexivity|].
  destruct (JS.eqb k0 k); cbn [map fst]; [reflexivity|].
  rewrite IH. destruct (JS.lookup k ps); reflexivity.
Qed.

Lemma set_prop_keys_present ps k v :
  JS.truthy (ChatMessageList.prop ps k) = true ->
  map fst (JS.set_prop ps k v) = map fst ps.
Proof.
  rewrite set_prop_keys. unfold ChatMessageList.prop, JS.get_opt, JS.get.
  destruct (JS.lookup k ps); [reflexivity | discriminate].
Qed.

Lemma lookup_own_props v k :
  JS.eqb k (JS.lit "length") = false ->
  JS.get_opt (JS.Obj (JS.own_props v)) k = JS.get_opt v k.
Proof.
  intros H. unfold JS.get_opt, JS.get.
  destruct v; cbn [JS.own_props JS.lookup]; rewrite ?H; reflexivity.
Qed.

Lemma radar_layout_other ir hl o o' k :
  ChatMessageList.radar_layout ir hl o = Some o' ->
  JS.eqb (JS.lit "legend") k = false -> JS.eqb (JS.lit "radar") k = false ->
  ChatMessageList.prop o' k = ChatMessageList.prop o k.
Proof.
  unfold ChatMessageList.radar_layout. intros H Hl Hr.
  destruct (ir && hl); [|inversion H; reflexivity].
  destruct (ChatMessageList.longer_than _ 3) as [[|]|];
    inversion H; subst; [|reflexivity].
  rewrite !prop_set_other by assumption. reflexivity.
Qed.

Lemma radar_layout_legend_data ir hl o o' :
  ChatMessageList.radar_layout ir hl o = Some o' ->
  Spec.legend_data o' = Spec.legend_data o.
Proof.
  unfold ChatMessageList.radar_layout, Spec.legend_data. intros H.
  destruct (ir && hl); [|inversion H; reflexivity].
  destruct (ChatMessageList.longer_than _ 3) as [[|]|];
    inversion H; subst; [|reflexivity].
  rewrite prop_set_other by reflexivity. rewrite prop_set_same.
  unfold JS.get_opt at 1, JS.get.
  rewrite !lookup_set_other by reflexivity.
  change (match JS.lookup (JS.lit "data")
                  (JS.own_props (ChatMessageList.prop o (JS.lit "legend")))
          with Some x => x | None => JS.Undefined end)
    with (JS.get_opt
            (JS.Obj (JS.own_props (ChatMessageList.prop o (JS.lit "legend"))))
            (JS.lit "data")).
  apply lookup_own_props. reflexivity.
Qed.

Lemma radar_layout_keys o o' :
  ChatMessageList.radar_layout (ChatMessageList.isRadarChart o)
    (ChatMessageList.hasLegend o) o = Some o' ->
  map fst o' = map fst o.
Proof.
  unfold ChatMessageList.radar_layout. intros H.
  destruct (ChatMessageList.isRadarChart o) eqn:R; cbn [andb] in H;
    [|inversion H; reflexivity].
  destruct (ChatMessageList.hasLegend o) eqn:L; [|inversion H; reflexivity].
  destruct (ChatMessageList.longer_than _ 3) as [[|]|];
    inversion H; subst; [|reflexivity].
  assert (TL : JS.truthy (ChatMessageList.prop o (JS.lit "legend")) = true).
  { unfold ChatMessageList.hasLegend in L.
    destruct (ChatMessageList.prop o (JS.lit "legend")) as [| |b|n|s|xs|ps];
      try discriminate L; try reflexivity.
    destruct s; [discriminate L | reflexivity]. }
  rewrite set_prop_keys_present.
  - apply set_prop_keys_present, TL.
  - rewrite prop_set_other by reflexivity. exact R.
Qed.

Lemma grid_top_other ir o m k :
  JS.eqb (JS.lit "grid") k = false ->
  ChatMessageList.prop (ChatMessageList.grid_top ir o m) k
  = ChatMessageList.prop o k.
Proof.
  intros H. unfold ChatMessageList.grid_top.
  destruct (negb ir); [|reflexivity].
  destruct (negb (JS.truthy (ChatMessageList.prop o (JS.lit "grid")))).
  - apply prop_set_other, H.
  - destruct (JS.num_ltb _ _); [apply prop_set_other, H | reflexivity].
Qed.

Lemma grid_top_keys ir o m :
  map fst (ChatMessageList.grid_top ir o m) =
  if negb ir then
    match JS.lookup (JS.lit "grid") o with
    | Some _ => map fst o
    | None => map fst o ++ [JS.lit "grid"]
    end
  else map fst o.
Proof.
  unfold ChatMessageList.grid_top. destruct (negb ir); [|reflexivity].
  destruct (negb (JS.truthy (ChatMessageList.prop o (JS.lit "grid")))) eqn:T.
  - apply set_prop_keys.
  - apply negb_false_iff in T.
    assert (exists g, JS.lookup (JS.lit "grid") o = Some g) as [g G].
    { unfold ChatMessageList.prop, JS.get_opt, JS.get in T.
      destruct (JS.lookup (JS.lit "grid") o); [eauto | discriminate]. }
    rewrite G. destruct (JS.num_ltb _ _); [|reflexivity].
    rewrite set_prop_keys, G. reflexivity.
Qed.

(** X12.  The normalisation touches [grid], [legend] and [radar] only: every
    other key of the configuration (the title, the series, the axes)
    reaches the chart as it came; the items of the legend are kept; no
    key is removed and none is added but [grid], at the end, for a chart
    that is no radar and has none. *)
Theorem safeConfig_keeps_the_rest (config safe : JS.jsval) :
  ChatMessageList.safeConfig config = Some safe ->
  let o := JS.own_props config in
  (forall k,
     k <> JS.lit "grid" -> k <> JS.lit "legend" -> k <> JS.lit "radar" ->
     JS.get_opt safe k = ChatMessageList.prop o k)
  /\ JS.get_opt (JS.get_opt safe (JS.lit "legend")) (JS.lit "data")
     = Spec.legend_data o
  /\ Spec.keys safe =
     if ChatMessageList.isRadarChart o then map fst o
     else match JS.lookup (JS.lit "grid") o with
          | Some _ => map fst o
          | None => map fst o ++ [JS.lit "grid"]
          end.
Proof.
  unfold ChatMessageList.safeConfig. cbv zeta. intros H.
  destruct (ChatMessageList.radar_layout _ _ (JS.own_props config))
    as [o1|] eqn:R; [|discriminate].
  destruct (ChatMessageList.minTop _ _ _ o1) as [m|]; [|discriminate].
  inversion H; subst; clear H.
  change (JS.get_opt (JS.Obj ?ps) ?k) with (ChatMessageList.prop ps k).
  split; [|split].
  - intros k Hg Hl Hr.
    rewrite grid_top_other by (apply eqb_neq; congruence).
    apply (radar_layout_other _ _ _ _ _ R); apply eqb_neq; congruence.
  - rewrite grid_top_other by reflexivity.
    apply (radar_layout_legend_data _ _ _ _ R).
  - unfold Spec.keys. cbn [JS.own_props]. rewrite grid_top_keys.
    pose proof (radar_layout_keys _ _ R) as K. rewrite K.
    destruct (ChatMessageList.isRadarChart (JS.own_props config)) eqn:IR;
      cbn [negb]; [reflexivity|].
    replace (JS.lookup (JS.lit "grid") o1)
      with (JS.lookup (JS.lit "grid") (JS.own_props config));
      [reflexivity|].
    unfold ChatMessageList.radar_layout in R. cbn [andb] in R.
    inversion R; reflexivity.
Qed.

Lemma safeConfig_keeps_the_rest_witness :
  exists safe,
    ChatMessageList.safeConfig Spec.radar_five = Some safe
    /\ JS.get_opt safe (JS.lit "series")
       = JS.Arr [JS.Num (JS.of_Z 1); JS.Num (JS.of_Z 2)]
    /\ Spec.keys safe = [JS.lit "series"; JS.lit "radar"; JS.lit "legend"].
Proof.
  destruct (ChatMessageList.safeConfig Spec.radar_five) as [safe|] eqn:E;
    [|discriminate E].
  exists safe. split; [reflexivity|].
  destruct (safeConfig_keeps_the_rest Spec.radar_five safe E) as (A & _ & K).
  split.
  - rewrite A by discriminate. reflexivity.
  - rewrite K. reflexivity.
Defined.

(** ** The session page from its first render *)

Lemma lit_inj a b : JS.lit a = JS.lit b -> a = b.
Proof.
  unfold JS.lit. intros H.
  assert (R : forall l, map ascii_of_N (map N_of_ascii l) = l).
  { induction l as [|c l IH]; cbn [map]; [reflexivity|].
    rewrite ascii_N_embedding, IH. reflexivity. }
  apply (f_equal (map ascii_of_N)) in H. rewrite !R in H.
  apply (f_equal string_of_list_ascii) in H.
  rewrite !string_of_list_ascii_of_string in H. exact H.
Qed.

Lemma dec_string_inj a b : JS.dec_string a = JS.dec_string b -> a = b.
Proof.
  unfold JS.dec_string. intros H. apply lit_inj in H.
  assert (N : forall n, N.to_uint n <> Decimal.Nil).
  { intros [|p]; cbn; [discriminate|].
    apply DecimalPos.Unsigned.to_uint_nonnil. }
  apply (f_equal DecimalString.NilZero.uint_of_string) in H.
  rewrite !DecimalString.NilZero.usu in H by apply N.
  inversion H as [E]. apply DecimalN.Unsigned.to_uint_inj, E.
Qed.

Lemma file_info_ids fms : forall index m,
  In m (SessionPage.file_info_messages index fms) ->
  exists i, (index <= i)%N
            /\ ChatMessageList.id m = JS.lit "file-info-" ++ JS.dec_string i.
Proof.
  induction fms as [|fm r IH]; intros index m;
    cbn [SessionPage.file_info_messages In]; [tauto|].
  intros [<-|H].
  - exists index. split; [lia | reflexivity].
  - destruct (IH _ _ H) as (i & Hi & E). exists i. split; [lia | exact E].
Qed.

Lemma file_info_ids_distinct fms : forall index,
  NoDup (map ChatMessageList.id (SessionPage.file_info_messages index fms)).
Proof.
  induction fms as [|fm r IH]; intros index;
    cbn [SessionPage.file_info_messages map]; constructor; [|apply IH].
  intros H. apply in_map_iff in H. destruct H as (m & E & Hin).
  destruct (file_info_ids _ _ _ Hin) as (i & Hi & Ei).
  rewrite Ei in E. cbn [ChatMessageList.message ChatMessageList.id] in E.
  apply app_inv_head in E. apply dec_string_inj in E. lia.
Qed.

Lemma chat_ids history m :
  In m (SessionPage.chatMessages history) ->
  exists msg, In msg history
              /\ ChatMessageList.id m
                 = JS.lit "msg-" ++ JS.dec_string (SessionApi.id msg).
Proof.
  unfold SessionPage.chatMessages. intros H. apply in_map_iff in H.
  destruct H as (msg & <- & Hin). exists msg. split; [exact Hin | reflexivity].
Qed.

Lemma chat_ids_distinct history :
  NoDup (map SessionApi.id history) ->
  NoDup (map ChatMessageList.id (SessionPage.chatMessages history)).
Proof.
  unfold SessionPage.chatMessages. rewrite map_map.
  cbn [ChatMessageList.id].
  induction history as [|msg r IH]; cbn [map]; intros H; [constructor|].
  inversion H as [|? ? H1 H2]; subst. constructor; [|apply IH, H2].
  intros X. apply in_map_iff in X. destruct X as (msg' & E & Hin).
  apply app_inv_head in E. apply dec_string_inj in E.
  apply H1. rewrite <- E. apply in_map, Hin.
Qed.

(** The ids of the entries of a loaded transcript. *)
Lemma loaded_ids file_metadata history m :
  In m (SessionPage.fileMessages file_metadata
        ++ SessionPage.chatMessages history) ->
  ChatMessageList.id m = JS.lit "file-count"
  \/ (exists i, ChatMessageList.id m = JS.lit "file-info-" ++ JS.dec_string i)
  \/ (exists i, ChatMessageList.id m = JS.lit "msg-" ++ JS.dec_string i).
Proof.
  intros H. apply in_app_or in H. destruct H as [H|H].
  - unfold SessionPage.fileMessages in H.
    destruct file_metadata as [[|fm r]|]; try contradiction.
    destruct H as [<-|H]; [left; reflexivity|].
    right. left. destruct (file_info_ids _ _ _ H) as (i & _ & E). eauto.
  - right. right. destruct (chat_ids _ _ H) as (msg & _ & E). eauto.
Qed.

Ltac differ n :=
  let E := fresh "E" in
  intros E; apply (f_equal (fun l => nth n l 0%N)) in E;
  vm_compute in E; discriminate E.

Lemma file_messages_distinct file_metadata :
  NoDup (map ChatMessageList.id (SessionPage.fileMessages file_metadata)).
Proof.
  unfold SessionPage.fileMessages.
  destruct file_metadata as [[|fm r]|]; try constructor.
  - intros H. apply in_map_iff in H. destruct H as (m & E & Hin).
    destruct (file_info_ids _ _ _ Hin) as (i & _ & Ei).
    rewrite Ei in E. revert E. differ 5%nat.
  - apply file_info_ids_distinct.
Qed.

(** X13.  The entries of a loaded transcript have ids that differ from one
    another when the stored messages have, so the keys of the list are
    distinct; and none has an id a later turn gives its two entries.
    The stored messages follow the entries for the files, in their
    order and with their texts. *)
Theorem loaded_transcript_ids (st : SessionPage.State)
  (detail : SessionApi.SessionDetail) :
  NoDup (map SessionApi.id (SessionApi.messages detail)) ->
  let loaded := SessionPage.loadSession st false (inr detail) in
  NoDup (map ChatMessageList.id (SessionPage.messages loaded))
  /\ (forall m now,
        In m (SessionPage.messages loaded) ->
        ChatMessageList.id m <> Turn.assistant_id now
        /\ ChatMessageList.id m <> Turn.user_id now)
  /\ exists files history,
       SessionPage.messages loaded = files ++ history
       /\ List.length files =
          match SessionApi.file_metadata detail with
          | Some (fm :: r) => S (S (List.length r))
          | _ => 0%nat
          end
       /\ map ChatMessageList.content history
          = map SessionApi.content (SessionApi.messages detail)
       /\ map ChatMessageList.role history
          = map SessionApi.role (SessionApi.messages detail).
Proof.
  intros Hn. cbv zeta. cbn [SessionPage.loadSession SessionPage.messages].
  split; [|split].
  - rewrite map_app. apply NoDup_app.
    + apply file_messages_distinct.
    + apply chat_ids_distinct, Hn.
    + intros a Ha Hb. apply in_map_iff in Ha, Hb.
      destruct Ha as (m1 & <- & H1). destruct Hb as (m2 & E & H2).
      destruct (chat_ids _ _ H2) as (msg & _ & E2). rewrite E2 in E.
      destruct (loaded_ids (SessionApi.file_metadata detail) [] m1) as [I|[[i I]|[i I]]].
      * rewrite app_nil_r. exact H1.
      * rewrite I in E. revert E. differ 0%nat.
      * rewrite I in E. revert E. differ 0%nat.
      * unfold SessionPage.fileMessages in H1.
        destruct (SessionApi.file_metadata detail) as [[|fm r]|];
          try contradiction.
        destruct H1 as [<-|H1]; [discriminate I|].
        destruct (file_info_ids _ _ _ H1) as (j & _ & Ej).
        rewrite Ej in I. revert I. differ 0%nat.
  - intros m now Hin. unfold Turn.assistant_id, Turn.user_id.
    destruct (loaded_ids _ _ _ Hin) as [I|[[i I]|[i I]]]; rewrite I;
      split; differ 0%nat.
  - exists (SessionPage.fileMessages (SessionApi.file_metadata detail)),
           (SessionPage.chatMessages (SessionApi.messages detail)).
    split; [reflexivity|]. split; [|split].
    + unfold SessionPage.fileMessages.
      destruct (SessionApi.file_metadata detail) as [[|fm r]|];
        try reflexivity.
      cbn [List.length]. f_equal.
      assert (L : forall l i,
                 List.length (SessionPage.file_info_messages i l)
                 = List.length l).
      { induction l as [|x l IH]; intros i;
          cbn [SessionPage.file_info_messages List.length]; auto. }
      rewrite L. reflexivity.
    + unfold SessionPage.chatMessages. rewrite map_map. reflexivity.
    + unfold SessionPage.chatMessages. rewrite map_map. reflexivity.
Qed.

Lemma loaded_transcript_ids_witness :
  NoDup (map SessionApi.id (SessionApi.messages Spec.stored_session))
  /\ map ChatMessageList.id
       (SessionPage.messages
          (SessionPage.loadSession (SessionPage.first_render (JS.lit "s1"))
             false (inr Spec.stored_session)))
     = [JS.lit "file-count"; JS.lit "file-info-0"; JS.lit "msg-7";
        JS.lit "msg-8"]
  /\ NoDup [JS.lit "file-count"; JS.lit "file-info-0"; JS.lit "msg-7";
            JS.lit "msg-8"].
Proof.
  assert (H : NoDup (map SessionApi.id
                       (SessionApi.messages Spec.stored_session))).
  { cbn. constructor; [intros [E|[]]; discriminate E|].
    constructor; [intros []|constructor]. }
  split; [exact H|].
  assert (E : map ChatMessageList.id
                (SessionPage.messages
                   (SessionPage.loadSession
                      (SessionPage.first_render (JS.lit "s1"))
                      false (inr Spec.stored_session)))
              = [JS.lit "file-count"; JS.lit "file-info-0"; JS.lit "msg-7";
                 JS.lit "msg-8"]) by (vm_compute; reflexivity).
  split; [exact E|]. rewrite <- E.
  exact (proj1 (loaded_transcript_ids
                  (SessionPage.first_render (JS.lit "s1"))
                  Spec.stored_session H)).
Defined.

Lemma session_recomputed infos :
  SessionPage.recompute infos =
  flat_map (fun info => Spec.per_file (SessionPage.file_id info)
                          (SessionPage.selectedSheets info)) infos.
Proof. unfold SessionPage.recompute. apply session_recompute. Qed.

Lemma some_inj {A} (a b : A) : Some a = Some b -> a = b.
Proof. intros H. inversion H. reflexivity. Qed.

Ltac session_fields :=
  cbn [SessionPage.dataSourceIds SessionPage.fileInfos SessionPage.sessionId
       SessionPage.isStreaming SessionPage.requests].

Lemma at_rest_step sid st ev st' :
  Spec.session_at_rest sid st -> Spec.session_step st ev = Some st' ->
  Spec.session_at_rest sid st'.
Proof.
  unfold Spec.session_at_rest, Spec.session_tokens, Spec.tokens_of.
  intros (D & S & I & R) H. destruct ev as [c f|i sheets f now|text na nu out];
    cbn [Spec.session_step] in H.
  - inversion H; subst; clear H. unfold SessionPage.loadSession.
    destruct f as [e|detail]; [session_fields; auto|].
    destruct c; [session_fields; auto|].
    destruct (SessionApi.file_metadata detail) as [[|fm r]|];
      session_fields; auto.
    repeat split; auto. apply session_recomputed.
  - unfold SessionPage.handleSheetsChange_awaited,
      SessionPage.handleSheetsChange in H.
    destruct (SessionPage.select _ _ _) as [infos|]; [|discriminate].
    assert (G : SessionPage.recompute infos =
                flat_map (fun info => Spec.per_file (SessionPage.file_id info)
                                        (SessionPage.selectedSheets info))
                         infos) by apply session_recomputed.
    destruct sheets as [|c sheets]; [|destruct f as [e|selected]];
      apply some_inj in H; subst st'; unfold SessionPage.with_messages;
      session_fields; (split; [exact G|]); (split; [exact S|]);
      (split; [exact I | exact R]).
  - inversion H; subst; clear H. unfold SessionPage.handleSend.
    destruct (SessionPage.rejected st); [auto|].
    unfold SessionPage.with_messages, SessionPage.request. session_fields.
    repeat split; auto. apply Forall_app. split; [exact R|].
    destruct (SessionPage.sessionDetail st); constructor;
      [reflexivity|constructor].
Qed.

Lemma at_rest_run sid evs : forall st st',
  Spec.session_at_rest sid st -> Spec.session_run st evs = Some st' ->
  Spec.session_at_rest sid st'.
Proof.
  induction evs as [|ev evs IH]; intros st st' S; cbn [Spec.session_run].
  - intros H; inversion H; subst; exact S.
  - destruct (Spec.session_step st ev) as [st1|] eqn:E; [|discriminate].
    apply IH. eapply at_rest_step; [exact S | exact E].
Qed.

Lemma per_file_not_empty f sheets : Spec.per_file f sheets <> [].
Proof. destruct sheets; discriminate. Qed.

(** X14.  Whatever was loaded, selected and sent on a session page since its
    first render: the data source ids are the tokens of the files the
    page holds, so a send that is accepted makes one request, for the
    session of the page, with the text and with these tokens, or, when
    the page holds no file, with the file ids of the session; and every
    request made so far names the session of the page. *)
Theorem session_requests_carry_selection
  (sessionId : JS.jsstring) (evs : list Spec.SessionEvent)
  (st : SessionPage.State) :
  Spec.session_run (SessionPage.first_render sessionId) evs = Some st ->
  SessionPage.dataSourceIds st = Spec.session_tokens st
  /\ Forall (fun r => SessionPage.session_id r = sessionId)
            (SessionPage.requests st)
  /\ (forall text now_a now_u out,
        SessionPage.rejected st = false ->
        exists d,
          SessionPage.sessionDetail st = Some d
          /\ SessionPage.requests
               (SessionPage.handleSend st text now_a now_u out)
             = SessionPage.requests st
               ++ [{| SessionPage.session_id := sessionId;
                      SessionPage.message_text := text;
                      SessionPage.payload_file_ids :=
                        match SessionPage.fileInfos st with
                        | [] =>
                            match SessionPage.file_ids d with
                            | Some ids => ids
                            | None => []
                            end
                        | _ :: _ => Spec.session_tokens st
                        end |}]).
Proof.
  intros R.
  assert (S0 : Spec.session_at_rest sessionId
                 (SessionPage.first_render sessionId)).
  { unfold Spec.session_at_rest. cbn. auto. }
  destruct (at_rest_run _ _ _ _ S0 R) as (D & S & I & Q).
  split; [exact D|]. split; [exact Q|].
  intros text now_a now_u out Hr. unfold SessionPage.handleSend.
  rewrite Hr. unfold SessionPage.rejected in Hr.
  destruct (SessionPage.sessionDetail st) as [d|] eqn:Ed; [|discriminate].
  exists d. split; [reflexivity|].
  unfold SessionPage.with_messages, SessionPage.request.
  cbn [SessionPage.requests]. rewrite Ed, S. do 3 f_equal.
  unfold SessionPage.fileIdsToUse. rewrite D.
  unfold Spec.session_tokens, Spec.tokens_of.
  destruct (SessionPage.fileInfos st) as [|info r]; [reflexivity|].
  cbn [flat_map].
  destruct (Spec.per_file (SessionPage.file_id info)
              (SessionPage.selectedSheets info)) as [|t ts] eqn:P;
    [exfalso; exact (per_file_not_empty _ _ P)|].
  reflexivity.
Qed.

Lemma session_requests_carry_selection_witness :
  exists st,
    Spec.session_run (SessionPage.first_render (JS.lit "s1"))
      Spec.session_story = Some st
    /\ SessionPage.dataSourceIds st = [JS.lit "f1:B"; JS.lit "f1:A"]
    /\ map SessionPage.payload_file_ids (SessionPage.requests st)
       = [[JS.lit "f1:B"; JS.lit "f1:A"]]
    /\ Forall (fun r => SessionPage.session_id r = JS.lit "s1")
              (SessionPage.requests st).
Proof.
  destruct (Spec.session_run (SessionPage.first_render (JS.lit "s1"))
              Spec.session_story) as [st|] eqn:R; [|discriminate R].
  exists st.
  destruct (session_requests_carry_selection (JS.lit "s1")
              Spec.session_story st R) as (_ & Q & _).
  split; [reflexivity|].
  vm_compute in R. injection R as <-.
  split; [reflexivity|]. split; [reflexivity|]. exact Q.
Defined.

(** X15.  On a page whose session could not be loaded nothing can be sent: the
    transcript is the one entry that tells the failure, the input is
    enabled, and every text entered is dropped, the page staying as it
    is. *)
Theorem failed_load_drops_every_send
  (sessionId : JS.jsstring) (error : Api.Thrown)
  (sends : list Spec.SessionEvent) (value : JS.jsstring)
  (now_a now_u : N) (out : Turn.Outcome) :
  forallb Spec.is_sent sends = true ->
  Spec.blank value = false ->
  let st :=
    SessionPage.loadSession (SessionPage.first_render sessionId) false
      (inl error) in
  SessionPage.messages st =
    [ChatMessageList.message (JS.lit "error") ChatMessageList.assistant
       (TextDecoder.text "加载会话失败：" ++ Turn.error_message error)]
  /\ SessionPage.loading st || SessionPage.isStreaming st = false
  /\ Spec.session_run st sends = Some st
  /\ Spec.session_input st value now_a now_u out = (st, []).
Proof.
  intros Hs Hb. cbv zeta. split; [reflexivity|]. split; [reflexivity|].
  split.
  - induction sends as [|ev r IH]; [reflexivity|].
    cbn [forallb] in Hs. apply andb_true_iff in Hs. destruct Hs as [H1 H2].
    destruct ev; try discriminate H1. cbn [Spec.session_run Spec.session_step].
    apply IH, H2.
  - unfold Spec.session_input. cbn [SessionPage.loadSession
      SessionPage.loading SessionPage.isStreaming SessionPage.first_render orb].
    destruct (handleSend_trimmed false value) as [_ S].
    destruct (S eq_refl Hb) as (c & r & a & b & E & _). rewrite E.
    reflexivity.
Qed.

Lemma failed_load_drops_every_send_witness :
  forallb Spec.is_sent [Spec.Sent (JS.lit "plot") 1000 1001 Spec.totals] = true
  /\ Spec.blank (JS.lit "plot") = false
  /\ Spec.session_input
       (SessionPage.loadSession (SessionPage.first_render (JS.lit "s1"))
          false (inl Api.NotAnError))
       (JS.lit "plot") 1000 1001 Spec.totals
     = (SessionPage.loadSession (SessionPage.first_render (JS.lit "s1"))
          false (inl Api.NotAnError), []).
Proof.
  split; [reflexivity|]. split; [reflexivity|].
  exact (proj2 (proj2 (proj2
    (failed_load_drops_every_send (JS.lit "s1") Api.NotAnError
       [Spec.Sent (JS.lit "plot") 1000 1001 Spec.totals] (JS.lit "plot")
       1000 1001 Spec.totals eq_refl eq_refl)))).
Defined.

(** ** The generate page from its first render *)

Lemma init_ids_recomputed uploadResults : forall acc,
  fold_left
    (fun dataSourceIds res =>
       match GeneratePage.selected_sheet res with
       | Some (c :: sheet) =>
           dataSourceIds ++ [GeneratePage.file_id res ++ JS.lit ":" ++ c :: sheet]
       | _ => dataSourceIds ++ [GeneratePage.file_id res]
       end) uploadResults acc
  = fold_left GeneratePage.push_ids (GeneratePage.init_infos uploadResults) acc.
Proof.
  induction uploadResults as [|res r IH]; intros acc; [reflexivity|].
  cbn [fold_left GeneratePage.init_infos map]. rewrite IH. f_equal.
  unfold GeneratePage.push_ids.
  cbn [GeneratePage.selectedSheets GeneratePage.uploadResult].
  destruct (GeneratePage.selected_sheet res) as [[|c sheet]|]; reflexivity.
Qed.

Lemma generate_recomputed infos :
  GeneratePage.recompute infos =
  flat_map
    (fun fi => Spec.per_file
                 (GeneratePage.file_id (GeneratePage.uploadResult fi))
                 (GeneratePage.selectedSheets fi)) infos.
Proof. unfold GeneratePage.recompute. apply generate_recompute. Qed.

Ltac generate_fields :=
  cbn [GeneratePage.fileIds GeneratePage.fileInfos GeneratePage.sessionId
       GeneratePage.loading GeneratePage.requests GeneratePage.messages].

Lemma first_turn_fields st session prompt ids alive out :
  let st' := GeneratePage.first_turn st session prompt ids alive out in
  GeneratePage.fileIds st' = GeneratePage.fileIds st
  /\ GeneratePage.fileInfos st' = GeneratePage.fileInfos st
  /\ GeneratePage.sessionId st' = GeneratePage.sessionId st
  /\ (alive = None -> GeneratePage.loading st' = false).
Proof.
  cbv zeta. unfold GeneratePage.first_turn.
  destruct prompt as [|c p].
  - unfold GeneratePage.with_messages. generate_fields.
    repeat split; auto. intros ->. reflexivity.
  - destruct (GeneratePage.on_events alive _ _) as [sc msgs].
    destruct alive as [n|], (Turn.thrown out) as [e|];
      unfold GeneratePage.with_messages; generate_fields;
      repeat split; auto; discriminate.
Qed.

Lemma init_fields files prompt uploaded created cancel out :
  let st := GeneratePage.init GeneratePage.first_render files prompt uploaded
              created cancel out in
  GeneratePage.fileIds st = GeneratePage.recompute (GeneratePage.fileInfos st)
  /\ (cancel = None -> GeneratePage.loading st = false)
  /\ (cancel = None ->
      match uploaded, created with
      | inr uploads, inr session =>
          GeneratePage.sessionId st = Some session
          /\ GeneratePage.fileInfos st
             = GeneratePage.init_infos (map GeneratePage.res uploads)
      | inr uploads, inl _ =>
          GeneratePage.sessionId st = None
          /\ GeneratePage.fileInfos st
             = GeneratePage.init_infos (map GeneratePage.res uploads)
      | inl _, _ =>
          GeneratePage.sessionId st = None /\ GeneratePage.fileInfos st = []
      end).
Proof.
  cbv zeta. unfold GeneratePage.init.
  destruct uploaded as [e|uploads].
  - destruct cancel as [[| |n]|]; unfold GeneratePage.with_messages;
      generate_fields; repeat split; auto; discriminate.
  - assert (R : GeneratePage.init_ids (map GeneratePage.res uploads) =
                GeneratePage.recompute
                  (GeneratePage.init_infos (map GeneratePage.res uploads))).
    { unfold GeneratePage.init_ids, GeneratePage.recompute.
      apply init_ids_recomputed. }
    destruct created as [e|session].
    + destruct cancel as [[| |n]|]; unfold GeneratePage.with_messages;
        generate_fields; repeat split; auto; discriminate.
    + destruct cancel as [[| |n]|]; unfold GeneratePage.with_messages;
        generate_fields; try (repeat split; auto; discriminate).
      * match goal with
        | |- context [GeneratePage.first_turn ?s ?a ?b ?c ?d ?e] =>
            destruct (first_turn_fields s a b c d e) as (F1 & F2 & F3 & F4)
        end.
        rewrite F1, F2. generate_fields. repeat split; auto. discriminate.
      * match goal with
        | |- context [GeneratePage.first_turn ?s ?a ?b ?c ?d ?e] =>
            destruct (first_turn_fields s a b c d e) as (F1 & F2 & F3 & F4)
        end.
        rewrite F1, F2, F3. generate_fields. repeat split; auto.
Qed.

Lemma generate_step_ids st ev :
  GeneratePage.fileIds st = GeneratePage.recompute (GeneratePage.fileInfos st) ->
  GeneratePage.fileIds (Spec.generate_step st ev)
  = GeneratePage.recompute (GeneratePage.fileInfos (Spec.generate_step st ev)).
Proof.
  intros H. destruct ev as [i sheets selected now|text na nu out];
    cbn [Spec.generate_step].
  - unfold GeneratePage.handleSheetsChange_awaited.
    destruct sheets as [|c sheets]; [exact H|].
    destruct (GeneratePage.select _ _ _) as [infos|]; [|exact H].
    destruct selected; unfold GeneratePage.with_messages; generate_fields;
      auto.
  - unfold GeneratePage.handleSend.
    destruct (GeneratePage.rejected st); [exact H|].
    unfold GeneratePage.with_messages. generate_fields. exact H.
Qed.

Lemma generate_run_ids evs : forall st,
  GeneratePage.fileIds st = GeneratePage.recompute (GeneratePage.fileInfos st) ->
  GeneratePage.fileIds (Spec.generate_run st evs)
  = GeneratePage.recompute (GeneratePage.fileInfos (Spec.generate_run st evs)).
Proof.
  unfold Spec.generate_run.
  induction evs as [|ev evs IH]; intros st H; cbn [fold_left]; [exact H|].
  apply IH, generate_step_ids, H.
Qed.

(** X16.  On the generate page the ids sent with a request are always the
    tokens of the files the page holds with their selected sheets: the
    effect that uploads the files computes them from the sheet each
    upload selected, every change of a selection recomputes them, and
    nothing else sets them.  An accepted send makes one request with
    the text and these tokens. *)
Theorem generate_requests_carry_selection
  (files : list JS.jsstring) (initialPrompt : JS.jsstring)
  (uploaded : Api.Thrown + list GeneratePage.Uploaded)
  (created : Api.Thrown + JS.jsstring)
  (cancel : option GeneratePage.Cancellation) (out : Turn.Outcome)
  (evs : list Spec.GenerateEvent) :
  let st :=
    Spec.generate_run
      (GeneratePage.init GeneratePage.first_render files initialPrompt
         uploaded created cancel out) evs in
  GeneratePage.fileIds st = Spec.generate_tokens st
  /\ (forall text now_a now_u out',
        GeneratePage.rejected st = false ->
        exists session,
          GeneratePage.sessionId st = Some session
          /\ GeneratePage.requests
               (GeneratePage.handleSend st text now_a now_u out')
             = GeneratePage.requests st
               ++ [{| GeneratePage.session_id := session;
                      GeneratePage.message_text := text;
                      GeneratePage.payload_file_ids :=
                        Spec.generate_tokens st |}]).
Proof.
  cbv zeta.
  destruct (init_fields files initialPrompt uploaded created cancel out)
    as (I & _).
  pose proof (generate_run_ids evs _ I) as H.
  rewrite generate_recomputed in H. fold (Spec.generate_tokens
    (Spec.generate_run
       (GeneratePage.init GeneratePage.first_render files initialPrompt
          uploaded created cancel out) evs)) in H.
  split; [exact H|].
  intros text now_a now_u out' Hr. unfold GeneratePage.handleSend.
  rewrite Hr. unfold GeneratePage.rejected in Hr.
  apply orb_false_iff in Hr. destruct Hr as [Hr _].
  apply orb_false_iff in Hr. destruct Hr as [_ Hr].
  destruct (GeneratePage.sessionId _) as [[|c s]|] eqn:Es; try discriminate.
  exists (c :: s). split; [reflexivity|].
  unfold GeneratePage.with_messages, GeneratePage.request.
  generate_fields. rewrite Es, H. reflexivity.
Qed.

Lemma generate_requests_carry_selection_witness :
  GeneratePage.rejected Spec.generated = false
  /\ GeneratePage.fileIds Spec.generated = [JS.lit "f1:A"; JS.lit "f2"]
  /\ GeneratePage.requests
       (GeneratePage.handleSend Spec.generated (JS.lit "plot") 1000 1001
          Spec.totals)
     = [{| GeneratePage.session_id := JS.lit "s1";
           GeneratePage.message_text := JS.lit "plot";
           GeneratePage.payload_file_ids := [JS.lit "f1:A"; JS.lit "f2"] |}].
Proof.
  assert (R : GeneratePage.rejected Spec.generated = false) by reflexivity.
  split; [exact R|]. split; [reflexivity|].
  destruct (generate_requests_carry_selection
              [JS.lit "book.xlsx"; JS.lit "data.csv"] []
              (inr Spec.two_uploads) (inr (JS.lit "s1")) None
              Spec.failed_fetch []) as [_ S].
  destruct (S (JS.lit "plot") 1000%N 1001%N Spec.totals R) as (s & Es & E).
  vm_compute in Es. injection Es as <-.
  etransitivity; [exact E|]. vm_compute. reflexivity.
Defined.

Lemma init_ids_length uploadResults :
  List.length (GeneratePage.init_ids uploadResults)
  = List.length uploadResults.
Proof.
  unfold GeneratePage.init_ids.
  assert (G : forall l acc,
             List.length
               (fold_left
                  (fun dataSourceIds res =>
                     match GeneratePage.selected_sheet res with
                     | Some (c :: sheet) =>
                         dataSourceIds
                         ++ [GeneratePage.file_id res ++ JS.lit ":" ++ c :: sheet]
                     | _ => dataSourceIds ++ [GeneratePage.file_id res]
                     end) l acc)
             = (List.length acc + List.length l)%nat).
  { induction l as [|res l IH]; intros acc; cbn [fold_left List.length];
      [lia|].
    rewrite IH.
    destruct (GeneratePage.selected_sheet res) as [[|c sheet]|];
      rewrite length_app; cbn [List.length]; lia. }
  rewrite G. reflexivity.
Qed.

(** X17.  The effect of the generate page, when it is not cancelled, always
    ends with [loading] off, whatever failed.  After it the page takes a
    text exactly when at least one file was uploaded and a session with
    an id was created; otherwise every send is ignored.  When the
    uploads failed the transcript is the entry that announces the upload,
    still showing its typing indicator, and the entry that tells the
    error. *)
Theorem init_settles
  (files : list JS.jsstring) (initialPrompt : JS.jsstring)
  (uploaded : Api.Thrown + list GeneratePage.Uploaded)
  (created : Api.Thrown + JS.jsstring) (out : Turn.Outcome) :
  let st :=
    GeneratePage.init GeneratePage.first_render files initialPrompt
      uploaded created None out in
  GeneratePage.loading st = false
  /\ GeneratePage.rejected st =
     match uploaded, created with
     | inr (_ :: _), inr (_ :: _) => false
     | _, _ => true
     end
  /\ (forall text now_a now_u out',
        GeneratePage.rejected st = true ->
        GeneratePage.handleSend st text now_a now_u out' = st)
  /\ (forall error,
        uploaded = inl error ->
        exists m1,
          GeneratePage.messages st =
            [m1;
             ChatMessageList.message (JS.lit "error") ChatMessageList.assistant
               (TextDecoder.text "错误：" ++ Turn.error_message error)]
          /\ ChatMessageList.id m1 = JS.lit "m1"
          /\ ChatMessageList.showLoading m1 = true).
Proof.
  cbv zeta.
  destruct (init_fields files initialPrompt uploaded created None out)
    as (_ & L & _). specialize (L eq_refl).
  split; [exact L|]. split; [|split].
  - unfold GeneratePage.rejected. rewrite L, orb_false_r.
    unfold GeneratePage.init.
    destruct uploaded as [e|uploads]; [reflexivity|].
    destruct created as [e|session].
    + unfold GeneratePage.with_messages. generate_fields.
      cbn [GeneratePage.first_render GeneratePage.sessionId].
      rewrite orb_true_r. destruct uploads; reflexivity.
    + match goal with
      | |- context [GeneratePage.first_turn ?s ?a ?b ?c ?d ?e] =>
          destruct (first_turn_fields s a b c d e) as (F1 & F2 & F3 & F4)
      end.
      rewrite F1, F3. generate_fields.
      rewrite init_ids_length, length_map.
      destruct uploads as [|u us], session as [|c s]; reflexivity.
  - intros text now_a now_u out' Hr. unfold GeneratePage.handleSend.
    rewrite Hr. reflexivity.
  - intros error ->. cbn. eexists. split; [reflexivity|].
    split; reflexivity.
Qed.

Lemma init_settles_witness :
  GeneratePage.rejected
    (GeneratePage.init GeneratePage.first_render [JS.lit "book.xlsx"] []
       (inl Api.NotAnError) (inr (JS.lit "s1")) None Spec.failed_fetch)
  = true
  /\ GeneratePage.handleSend
       (GeneratePage.init GeneratePage.first_render [JS.lit "book.xlsx"] []
          (inl Api.NotAnError) (inr (JS.lit "s1")) None Spec.failed_fetch)
       (JS.lit "plot") 1000 1001 Spec.totals
     = GeneratePage.init GeneratePage.first_render [JS.lit "book.xlsx"] []
         (inl Api.NotAnError) (inr (JS.lit "s1")) None Spec.failed_fetch.
Proof.
  destruct (init_settles [JS.lit "book.xlsx"] [] (inl Api.NotAnError)
              (inr (JS.lit "s1")) Spec.failed_fetch) as (_ & R & S & _).
  split; [exact R|].
  apply S. exact R.
Defined.

(** ** A change of selection touches one file *)

Lemma select_spec infos : forall fileIndex sheets infos',
  SessionPage.select infos fileIndex sheets = Some infos' ->
  exists info,
    nth_error infos fileIndex = Some info
    /\ infos' = firstn fileIndex infos ++ Spec.reselected info sheets
                :: skipn (S fileIndex) infos.
Proof.
  induction infos as [|x r IH]; intros [|i] sheets infos';
    cbn [SessionPage.select]; try discriminate.
  - intros H. inversion H; subst. exists x. split; reflexivity.
  - destruct (SessionPage.select r i sheets) as [r'|] eqn:E; [|discriminate].
    intros H. inversion H; subst. destruct (IH _ _ _ E) as (info & N & ->).
    exists info. split; [exact N | reflexivity].
Qed.

Lemma select_defined infos : forall fileIndex sheets,
  (fileIndex < List.length infos)%nat ->
  exists infos', SessionPage.select infos fileIndex sheets = Some infos'.
Proof.
  induction infos as [|x r IH]; intros [|i] sheets H;
    cbn [List.length SessionPage.select] in *; try lia; [eauto|].
  destruct (IH i sheets ltac:(lia)) as (r' & ->). eauto.
Qed.

Lemma tokens_app a b :
  Spec.tokens_of (a ++ b) = Spec.tokens_of a ++ Spec.tokens_of b.
Proof. unfold Spec.tokens_of. apply flat_map_app. Qed.

Lemma handleSheetsChange_spec
  (st : SessionPage.State) (fileIndex : nat) (newSheets : list JS.jsstring) :
  (fileIndex < List.length (SessionPage.fileInfos st))%nat ->
  exists info st',
    nth_error (SessionPage.fileInfos st) fileIndex = Some info
    /\ SessionPage.handleSheetsChange st fileIndex newSheets = Some st'
    /\ SessionPage.fileInfos st' =
       firstn fileIndex (SessionPage.fileInfos st)
       ++ Spec.reselected info newSheets
       :: skipn (S fileIndex) (SessionPage.fileInfos st)
    /\ SessionPage.dataSourceIds st' =
       Spec.tokens_of (firstn fileIndex (SessionPage.fileInfos st))
       ++ Spec.per_file (SessionPage.file_id info) newSheets
       ++ Spec.tokens_of (skipn (S fileIndex) (SessionPage.fileInfos st))
    /\ SessionPage.messages st' = SessionPage.messages st
    /\ SessionPage.requests st' = SessionPage.requests st
    /\ SessionPage.rejected st' = SessionPage.rejected st
    /\ SessionPage.handleSheetsChange st' fileIndex newSheets = Some st'.
Proof.
  intros H. destruct (select_defined _ _ newSheets H) as (infos' & E).
  destruct (select_spec _ _ _ _ E) as (info & N & I).
  unfold SessionPage.handleSheetsChange. rewrite E.
  exists info. eexists. split; [exact N|]. split; [reflexivity|].
  cbn [SessionPage.fileInfos SessionPage.dataSourceIds SessionPage.messages
       SessionPage.requests].
  split; [exact I|]. split; [|split; [reflexivity|split; [reflexivity|split;
    [reflexivity|]]]].
  - rewrite session_recomputed. fold (Spec.tokens_of infos'). rewrite I.
    rewrite tokens_app. reflexivity.
  - assert (E2 : SessionPage.select infos' fileIndex newSheets = Some infos').
    { clear -E. revert fileIndex infos' E.
      induction (SessionPage.fileInfos st) as [|x r IH]; intros [|i] infos';
        cbn [SessionPage.select]; try discriminate.
      - intros H. inversion H; subst. reflexivity.
      - destruct (SessionPage.select r i newSheets) as [r'|] eqn:E;
          [|discriminate].
        intros H. inversion H; subst. cbn [SessionPage.select].
        rewrite (IH _ _ E). reflexivity. }
    rewrite E2. reflexivity.
Qed.

(** X18.  On the session page a change of the selection of a file that the
    page holds, made while its selectors are enabled, replaces the
    selection of that file and nothing else of the file infos; the data
    source ids keep the tokens of the files before and after it and
    get, in between, the tokens of the new selection; messages,
    requests and the flags stay, and a selection that is not empty
    awaits the answer of the server.  Whenever that answer arrives it
    appends one entry to the transcript as it is then, or nothing when
    the server refused, and changes nothing else.  Making the same
    change again leaves the file infos and the ids as they are. *)
Theorem sheets_change_touches_one_file
  (p : SessionPage.Page) (fileIndex : nat) (newSheets : list JS.jsstring) :
  let st := SessionPage.state p in
  (fileIndex < List.length (SessionPage.fileInfos st))%nat ->
  SessionPage.loading st || SessionPage.isStreaming st = false ->
  exists info p1,
    nth_error (SessionPage.fileInfos st) fileIndex = Some info
    /\ SessionPage.task p (SessionPage.change fileIndex newSheets) = Some p1
    /\ SessionPage.fileInfos (SessionPage.state p1) =
       firstn fileIndex (SessionPage.fileInfos st)
       ++ Spec.reselected info newSheets
       :: skipn (S fileIndex) (SessionPage.fileInfos st)
    /\ SessionPage.dataSourceIds (SessionPage.state p1) =
       Spec.tokens_of (firstn fileIndex (SessionPage.fileInfos st))
       ++ Spec.per_file (SessionPage.file_id info) newSheets
       ++ Spec.tokens_of (skipn (S fileIndex) (SessionPage.fileInfos st))
    /\ SessionPage.messages (SessionPage.state p1) = SessionPage.messages st
    /\ SessionPage.requests (SessionPage.state p1) = SessionPage.requests st
    /\ SessionPage.rejected (SessionPage.state p1) = SessionPage.rejected st
    /\ SessionPage.turn p1 = SessionPage.turn p
    /\ SessionPage.awaited p1 =
       SessionPage.awaited p
       ++ match newSheets with [] => [] | _ :: _ => [newSheets] end
    /\ (forall q k selected now,
          nth_error (SessionPage.awaited q) k = Some newSheets ->
          exists q',
            SessionPage.task q (SessionPage.answered k selected now) = Some q'
            /\ SessionPage.messages (SessionPage.state q') =
               SessionPage.messages (SessionPage.state q)
               ++ match selected with
                  | inr selected_sheets =>
                      [SessionPage.sheet_change_entry newSheets
                         selected_sheets now]
                  | inl _ => []
                  end
            /\ SessionPage.fileInfos (SessionPage.state q')
               = SessionPage.fileInfos (SessionPage.state q)
            /\ SessionPage.dataSourceIds (SessionPage.state q')
               = SessionPage.dataSourceIds (SessionPage.state q)
            /\ SessionPage.requests (SessionPage.state q')
               = SessionPage.requests (SessionPage.state q)
            /\ SessionPage.rejected (SessionPage.state q')
               = SessionPage.rejected (SessionPage.state q)
            /\ SessionPage.turn q' = SessionPage.turn q
            /\ S (List.length (SessionPage.awaited q'))
               = List.length (SessionPage.awaited q))
    /\ (exists p2,
          SessionPage.task p1 (SessionPage.change fileIndex newSheets)
            = Some p2
          /\ SessionPage.state p2 = SessionPage.state p1).
Proof.
  intros st H Hg.
  destruct (handleSheetsChange_spec st fileIndex newSheets H)
    as (info & st1 & N & E & F & D & M & R & J & Again).
  assert (G1 : SessionPage.loading st1 || SessionPage.isStreaming st1 = false).
  { unfold SessionPage.handleSheetsChange in E.
    destruct (SessionPage.select _ _ _); [|discriminate].
    injection E as <-. exact Hg. }
  exists info. eexists. split; [exact N|].
  cbn [SessionPage.task]. fold st. rewrite Hg, E.
  split; [reflexivity|]. cbn [SessionPage.state SessionPage.turn
                                SessionPage.awaited].
  split; [exact F|]. split; [exact D|]. split; [exact M|].
  split; [exact R|]. split; [exact J|]. split; [reflexivity|].
  split; [destruct newSheets; [rewrite app_nil_r|]; reflexivity|].
  split.
  - intros q k selected now Hk. cbn [SessionPage.task]. rewrite Hk.
    eexists. split; [reflexivity|].
    cbn [SessionPage.state SessionPage.with_messages SessionPage.messages
           SessionPage.fileInfos SessionPage.dataSourceIds
           SessionPage.requests SessionPage.turn SessionPage.awaited].
    split; [destruct selected; [rewrite app_nil_r|]; reflexivity|].
    split; [reflexivity|]. split; [reflexivity|]. split; [reflexivity|].
    split; [reflexivity|]. split; [reflexivity|].
    assert (L : (k < List.length (SessionPage.awaited q))%nat)
      by (apply nth_error_Some; congruence).
    rewrite length_app, length_firstn, length_skipn. lia.
  - rewrite G1, Again. eexists. split; reflexivity.
Qed.

Lemma sheets_change_touches_one_file_witness :
  (0 < List.length (SessionPage.fileInfos Spec.session_two_files))%nat
  /\ SessionPage.loading Spec.session_two_files
     || SessionPage.isStreaming Spec.session_two_files = false
  /\ exists p1 p2,
       SessionPage.task (SessionPage.at_rest Spec.session_two_files)
         (SessionPage.change 0 [JS.lit "A"; JS.lit "B"]) = Some p1
       /\ SessionPage.dataSourceIds (SessionPage.state p1)
          = [JS.lit "f1:A"; JS.lit "f1:B"; JS.lit "f2"]
       /\ SessionPage.task p1
            (SessionPage.answered 0 (inr Spec.two_sheets) 1500) = Some p2
       /\ SessionPage.messages (SessionPage.state p2) =
          [SessionPage.sheet_change_entry [JS.lit "A"; JS.lit "B"]
             Spec.two_sheets 1500].
Proof.
  assert (H : (0 < List.length
                      (SessionPage.fileInfos Spec.session_two_files))%nat)
    by (cbn; lia).
  split; [exact H|]. split; [reflexivity|].
  destruct (sheets_change_touches_one_file
              (SessionPage.at_rest Spec.session_two_files) 0
              [JS.lit "A"; JS.lit "B"] H eq_refl)
    as (info & p1 & N & E & _ & D & M & _ & _ & _ & A & Ans & _).
  cbn in N. injection N as <-.
  destruct (Ans p1 0%nat (inr Spec.two_sheets) 1500%N) as (p2 & E2 & M2 & _).
  { rewrite A. reflexivity. }
  exists p1, p2. split; [exact E|]. split; [rewrite D; reflexivity|].
  split; [exact E2|]. rewrite M2, M. reflexivity.
Defined.

(** X19.  When the server refuses a selection, the two pages differ.  The
    generate page asks first: it keeps its file infos and its ids, adds
    an entry that tells the failure, and takes input again.  The session
    page changes its file infos and its ids before it asks and keeps the
    change, adding no entry: its next request carries the tokens of a
    selection the server refused. *)
Theorem refused_selection
  (st : SessionPage.State) (gst : GeneratePage.State) (fileIndex : nat)
  (sheet : JS.jsstring) (sheets : list JS.jsstring)
  (error : Api.Thrown) (now : N) :
  (fileIndex < List.length (SessionPage.fileInfos st))%nat ->
  (fileIndex < List.length (GeneratePage.fileInfos gst))%nat ->
  let gst' :=
    GeneratePage.handleSheetsChange_awaited gst fileIndex (sheet :: sheets)
      (inl error) now in
  GeneratePage.fileInfos gst' = GeneratePage.fileInfos gst
  /\ GeneratePage.fileIds gst' = GeneratePage.fileIds gst
  /\ GeneratePage.loading gst' = false
  /\ GeneratePage.messages gst' =
     GeneratePage.messages gst
     ++ [ChatMessageList.message
           (JS.lit "sheet-error-" ++ JS.dec_string now)
           ChatMessageList.assistant
           (TextDecoder.text "选择 Sheet 失败：" ++ Turn.error_message error)]
  /\ exists info st',
       nth_error (SessionPage.fileInfos st) fileIndex = Some info
       /\ SessionPage.handleSheetsChange_awaited st fileIndex (sheet :: sheets)
            (inl error) now = Some st'
       /\ SessionPage.messages st' = SessionPage.messages st
       /\ nth_error (SessionPage.fileInfos st') fileIndex
          = Some (Spec.reselected info (sheet :: sheets))
       /\ SessionPage.dataSourceIds st' =
          Spec.tokens_of (firstn fileIndex (SessionPage.fileInfos st))
          ++ map (fun s => SessionPage.file_id info ++ JS.lit ":" ++ s)
                 (sheet :: sheets)
          ++ Spec.tokens_of (skipn (S fileIndex) (SessionPage.fileInfos st))
       /\ (forall text,
             SessionPage.rejected st = false ->
             map SessionPage.payload_file_ids
               (SessionPage.request st' text)
             = [SessionPage.dataSourceIds st']).
Proof.
  intros H G. cbv zeta.
  unfold GeneratePage.handleSheetsChange_awaited.
  assert (exists infos, GeneratePage.select (GeneratePage.fileInfos gst)
                          fileIndex (sheet :: sheets) = Some infos)
    as [ginfos ->].
  { clear -G. revert fileIndex G.
    induction (GeneratePage.fileInfos gst) as [|x r IH]; intros [|i] G;
      cbn [List.length GeneratePage.select] in *; try lia; [eauto|].
    destruct (IH i ltac:(lia)) as (r' & ->). eauto. }
  unfold GeneratePage.with_messages.
  cbn [GeneratePage.fileInfos GeneratePage.fileIds GeneratePage.loading
       GeneratePage.messages].
  do 4 (split; [reflexivity|]).
  destruct (handleSheetsChange_spec st fileIndex (sheet :: sheets) H)
    as (info & st' & N & E & I & D & M & _).
  exists info, st'. split; [exact N|].
  unfold SessionPage.handleSheetsChange_awaited. rewrite E.
  split; [reflexivity|]. split; [exact M|]. split; [|split; [exact D|]].
  - rewrite I. rewrite nth_error_app2 by (rewrite length_firstn; lia).
    rewrite length_firstn.
    replace (fileIndex - Nat.min fileIndex
                           (List.length (SessionPage.fileInfos st)))%nat
      with 0%nat by lia.
    reflexivity.
  - intros text Hr.
    unfold SessionPage.handleSheetsChange in E.
    destruct (SessionPage.select _ _ _) as [infos|]; [|discriminate].
    inversion E; subst st'; clear E.
    unfold SessionPage.request, SessionPage.rejected in *.
    cbn [SessionPage.sessionDetail SessionPage.sessionId
         SessionPage.dataSourceIds] in *.
    destruct (SessionPage.sessionDetail st) as [d|]; [|discriminate].
    cbn [map SessionPage.payload_file_ids]. unfold SessionPage.fileIdsToUse.
    cbn [SessionPage.dataSourceIds]. rewrite D.
    f_equal.
    match goal with
    | |- (if (0 <? List.length ?l)%nat then _ else _) = _ =>
        assert (L : (0 < List.length l)%nat)
    end.
    { rewrite !length_app. cbn [Spec.per_file map List.length]. lia. }
    apply Nat.ltb_lt in L. rewrite L. reflexivity.
Qed.

Lemma refused_selection_witness :
  (0 < List.length (SessionPage.fileInfos Spec.session_two_files))%nat
  /\ exists st',
       SessionPage.handleSheetsChange_awaited Spec.session_two_files 0
         [JS.lit "B"] (inl Api.NotAnError) 1500 = Some st'
       /\ SessionPage.dataSourceIds st' = [JS.lit "f1:B"; JS.lit "f2"]
       /\ SessionPage.messages st' = [].
Proof.
  assert (H : (0 < List.length
                      (SessionPage.fileInfos Spec.session_two_files))%nat)
    by (cbn; lia).
  split; [exact H|].
  pose (gst := {| GeneratePage.messages := []; GeneratePage.loading := false;
                  GeneratePage.fileIds := [JS.lit "f1"];
                  GeneratePage.sessionId := Some (JS.lit "s1");
                  GeneratePage.fileInfos :=
                    GeneratePage.init_infos
                      (map GeneratePage.res Spec.two_uploads);
                  GeneratePage.requests := [] |}).
  assert (G : (0 < List.length (GeneratePage.fileInfos gst))%nat)
    by (cbn; lia).
  destruct (refused_selection Spec.session_two_files gst 0 (JS.lit "B") []
              Api.NotAnError 1500 H G)
    as (_ & _ & _ & _ & info & st' & N & E & M & _ & D & _).
  exists st'. split; [exact E|].
  cbn in N. injection N as <-. split; [rewrite D; reflexivity | exact M].
Defined.

(** ** The sheet selector *)

Lemma includes_In xs x : JS.includes xs x = true <-> In x xs.
Proof.
  unfold JS.includes. rewrite existsb_exists. split.
  - intros (y & Hy & E). apply eqb_eq in E. subst. exact Hy.
  - intros H. exists x. split; [exact H | apply eqb_refl].
Qed.

Lemma includes_not_In xs x : JS.includes xs x = false <-> ~ In x xs.
Proof.
  rewrite <- includes_In. destruct (JS.includes xs x); split; congruence.
Qed.

Lemma filter_other_In (sheet s : JS.jsstring) l :
  In s (filter (fun x => negb (JS.eqb x sheet)) l) <-> In s l /\ s <> sheet.
Proof.
  rewrite filter_In. split; intros [H1 H2]; split; auto.
  - apply negb_true_iff, eqb_neq in H2. exact H2.
  - apply negb_true_iff, eqb_neq. exact H2.
Qed.

Lemma filter_absent (sheet : JS.jsstring) l :
  ~ In sheet l -> filter (fun x => negb (JS.eqb x sheet)) l = l.
Proof.
  induction l as [|y l IH]; intros H; [reflexivity|].
  cbn [filter].
  assert (Ey : JS.eqb y sheet = false).
  { apply eqb_neq. intros ->. apply H. left. reflexivity. }
  rewrite Ey. cbn [negb]. f_equal. apply IH. intros X. apply H.
  right. exact X.
Qed.

(** Taking a sheet out of a selection that holds it once leaves the
    sheets before it and those after it, in their order. *)
Lemma filter_takes_out (sheet : JS.jsstring) l :
  NoDup l -> In sheet l ->
  exists a b, l = a ++ sheet :: b
              /\ filter (fun x => negb (JS.eqb x sheet)) l = a ++ b.
Proof.
  intros Hn Hin. destruct (in_split _ _ Hin) as (a & b & ->).
  exists a, b. split; [reflexivity|].
  apply NoDup_remove_2 in Hn.
  rewrite filter_app. cbn [filter]. rewrite eqb_refl. cbn [negb].
  rewrite !filter_absent; [reflexivity| |];
    intros X; apply Hn, in_or_app; [right | left]; exact X.
Qed.

Lemma filter_one_out (sheet : JS.jsstring) l :
  NoDup l -> In sheet l ->
  S (List.length (filter (fun x => negb (JS.eqb x sheet)) l)) = List.length l.
Proof.
  induction l as [|x l IH]; intros Hn Hin; [contradiction|].
  inversion Hn as [|? ? Hx Hl]; subst. cbn [filter List.length].
  destruct (JS.eqb x sheet) eqn:E; cbn [negb List.length].
  - apply eqb_eq in E. subst x. f_equal.
    assert (F : forall l', ~ In sheet l' ->
                filter (fun x => negb (JS.eqb x sheet)) l' = l').
    { induction l' as [|y l' IH']; intros H; [reflexivity|].
      cbn [filter].
      assert (Ey : JS.eqb y sheet = false).
      { apply eqb_neq. intros ->. apply H. left. reflexivity. }
      rewrite Ey. cbn [negb]. f_equal. apply IH'. intros X. apply H.
      right. exact X. }
    rewrite F by exact Hx. reflexivity.
  - f_equal. apply IH; [exact Hl|]. destruct Hin as [->|Hin]; [|exact Hin].
    rewrite eqb_refl in E. discriminate.
Qed.

(** X20.  A click on a box of the sheet selector hands the page a selection
    that is never empty and, the selection shown having no sheet twice,
    has none twice: the sheet is added at the end when it was not
    selected, and taken out when it was, the other sheets staying in
    their order; the last sheet selected cannot be taken out.  So both
    pages get one token per sheet of the selection for the file, and the
    generate page never meets the empty selection it ignores. *)
Theorem SheetSelector_click_selection
  (sheets selectedSheets : list JS.jsstring) (disabled : bool)
  (sheet : JS.jsstring) (selection : list JS.jsstring) :
  NoDup selectedSheets ->
  SheetSelector.click sheets selectedSheets disabled sheet = Some selection ->
  selection <> []
  /\ NoDup selection
  /\ disabled = false /\ In sheet sheets
  /\ (forall s, s <> sheet -> (In s selection <-> In s selectedSheets))
  /\ (In sheet selection <-> ~ In sheet selectedSheets)
  /\ (~ In sheet selectedSheets -> selection = selectedSheets ++ [sheet])
  /\ (In sheet selectedSheets ->
      S (List.length selection) = List.length selectedSheets)
  /\ (In sheet selectedSheets ->
      exists a b, selectedSheets = a ++ sheet :: b /\ selection = a ++ b)
  /\ (forall fileId,
        Spec.per_file fileId selection
        = map (fun s => fileId ++ JS.lit ":" ++ s) selection).
Proof.
  intros Hn. unfold SheetSelector.click.
  destruct (List.length sheets <=? 1)%nat; [discriminate|].
  destruct disabled; [discriminate|].
  destruct (JS.includes sheets sheet) eqn:Is; cbn [negb]; [|discriminate].
  apply includes_In in Is.
  unfold SheetSelector.handleCheckboxChange.
  destruct (JS.includes selectedSheets sheet) eqn:I; cbn [negb].
  - apply includes_In in I.
    destruct (1 <? List.length selectedSheets)%nat eqn:L; [|discriminate].
    apply Nat.ltb_lt in L. intros H. inversion H; subst; clear H.
    pose proof (filter_one_out sheet selectedSheets Hn I) as C.
    assert (Ne : filter (fun s => negb (JS.eqb s sheet)) selectedSheets <> []).
    { intros X. rewrite X in C. cbn in C. lia. }
    split; [exact Ne|]. split; [apply NoDup_filter, Hn|].
    split; [reflexivity|]. split; [exact Is|].
    split; [|split; [|split; [|split; [|split]]]].
    + intros s Hs. rewrite filter_other_In. tauto.
    + rewrite filter_other_In. tauto.
    + intros X. contradiction.
    + intros _. exact C.
    + intros _. exact (filter_takes_out sheet selectedSheets Hn I).
    + intros fileId. unfold Spec.per_file.
      destruct (filter _ selectedSheets); [contradiction | reflexivity].
  - apply includes_not_In in I. intros H. inversion H; subst; clear H.
    split; [destruct selectedSheets; discriminate|].
    split.
    { apply NoDup_app; [exact Hn | constructor; [intros []|constructor] |].
      intros a Ha [<-|[]]. exact (I Ha). }
    split; [reflexivity|]. split; [exact Is|].
    split; [|split; [|split; [|split; [|split]]]].
    + intros s Hs. rewrite in_app_iff. cbn [In]. split; [|tauto].
      intros [X|[X|[]]]; [exact X | congruence].
    + rewrite in_app_iff. cbn [In]. tauto.
    + reflexivity.
    + intros X. contradiction.
    + intros X. contradiction.
    + intros fileId. unfold Spec.per_file.
      destruct (selectedSheets ++ [sheet]) eqn:E; [|reflexivity].
      destruct selectedSheets; discriminate.
Qed.

Lemma SheetSelector_click_selection_witness :
  NoDup [JS.lit "A"; JS.lit "B"]
  /\ SheetSelector.click [JS.lit "A"; JS.lit "B"; JS.lit "C"]
       [JS.lit "A"; JS.lit "B"] false (JS.lit "A") = Some [JS.lit "B"]
  /\ [JS.lit "B"] <> []
  /\ SheetSelector.click [JS.lit "A"; JS.lit "B"] [JS.lit "B"] false
       (JS.lit "B") = None.
Proof.
  assert (H : NoDup [JS.lit "A"; JS.lit "B"]).
  { constructor; [intros [E|[]]; discriminate E|].
    constructor; [intros []|constructor]. }
  assert (E : SheetSelector.click [JS.lit "A"; JS.lit "B"; JS.lit "C"]
                [JS.lit "A"; JS.lit "B"] false (JS.lit "A")
              = Some [JS.lit "B"]) by reflexivity.
  split; [exact H|]. split; [exact E|].
  split; [|reflexivity].
  exact (proj1 (SheetSelector_click_selection _ _ _ _ _ H E)).
Defined.

(** ** The files of the home page *)

Lemma handleRemoveFile_In prev : forall index f,
  In f (HomePage.handleRemoveFile prev index) -> In f prev.
Proof.
  induction prev as [|x r IH]; intros [|i] f;
    cbn [HomePage.handleRemoveFile In]; auto.
  intros [H|H]; [auto | right; eapply IH, H].
Qed.

Lemma handleRemoveFile_names prev : forall index,
  NoDup (map HomePage.name prev) ->
  NoDup (map HomePage.name (HomePage.handleRemoveFile prev index)).
Proof.
  induction prev as [|x r IH]; intros [|i] H;
    cbn [HomePage.handleRemoveFile map] in *; try constructor;
    inversion H as [|? ? H1 H2]; subst; auto.
  intros X. apply in_map_iff in X. destruct X as (f & E & Hin).
  apply H1. rewrite <- E. apply in_map. eapply handleRemoveFile_In, Hin.
Qed.

Lemma filter_names (p : HomePage.File -> bool) l :
  NoDup (map HomePage.name l) -> NoDup (map HomePage.name (filter p l)).
Proof.
  induction l as [|x l IH]; cbn [filter map]; intros H; [constructor|].
  inversion H as [|? ? H1 H2]; subst.
  destruct (p x); cbn [map]; [|apply IH, H2].
  constructor; [|apply IH, H2].
  intros X. apply in_map_iff in X. destruct X as (f & E & Hin).
  apply filter_In in Hin. apply H1. rewrite <- E. apply in_map, Hin.
Qed.

Lemma handleFilesChange_names prev newFiles :
  NoDup (map HomePage.name prev) -> NoDup (map HomePage.name newFiles) ->
  NoDup (map HomePage.name (HomePage.handleFilesChange prev newFiles)).
Proof.
  intros Hp Hn. unfold HomePage.handleFilesChange. rewrite map_app.
  apply NoDup_app; [exact Hp | apply filter_names, Hn |].
  intros a Ha Hb. apply in_map_iff in Hb. destruct Hb as (f & <- & Hin).
  apply filter_In in Hin. destruct Hin as [_ Hin].
  apply negb_true_iff, includes_not_In in Hin. exact (Hin Ha).
Qed.

(** X21.  The files of the home page keep names that differ from one another,
    whatever is picked and removed, as long as no pick holds two files
    of one name.  A pick keeps the files held, in their order, and adds
    at their end the picked files whose name is new; picking the same
    files again adds nothing.  The page submits only when it holds a
    file, and then the files with the prompt trimmed. *)
Theorem home_files_keep_distinct_names (evs : list Spec.HomeEvent) :
  Forall Spec.distinct_pick evs ->
  NoDup (map HomePage.name (fold_left Spec.home_step evs []))
  /\ (forall prev newFiles,
        exists added,
          HomePage.handleFilesChange prev newFiles = prev ++ added
          /\ (forall f, In f added <->
                        In f newFiles
                        /\ ~ In (HomePage.name f) (map HomePage.name prev))
          /\ (forall f, In f newFiles ->
                 In (HomePage.name f)
                    (map HomePage.name
                       (HomePage.handleFilesChange prev newFiles)))
          /\ HomePage.handleFilesChange
               (HomePage.handleFilesChange prev newFiles) newFiles
             = HomePage.handleFilesChange prev newFiles)
  /\ (forall files prompt,
        HomePage.handleSend files prompt =
        match files with
        | [] => None
        | _ :: _ => Some (files, JS.trim prompt)
        end).
Proof.
  intros H. split; [|split].
  - assert (G : forall files, NoDup (map HomePage.name files) ->
                NoDup (map HomePage.name (fold_left Spec.home_step evs files))).
    { induction H as [|ev evs Hev _ IH]; intros files Hf; cbn [fold_left];
        [exact Hf|].
      apply IH. destruct ev as [newFiles|index]; cbn [Spec.home_step].
      - apply handleFilesChange_names; [exact Hf | exact Hev].
      - apply handleRemoveFile_names, Hf. }
    apply G. constructor.
  - intros prev newFiles. unfold HomePage.handleFilesChange.
    eexists. split; [reflexivity|].
    assert (A : forall f,
               In f (filter (fun f => negb (JS.includes (map HomePage.name prev)
                                              (HomePage.name f))) newFiles)
               <-> In f newFiles
                   /\ ~ In (HomePage.name f) (map HomePage.name prev)).
    { intros f. rewrite filter_In, negb_true_iff, includes_not_In. tauto. }
    split; [exact A|]. split.
    + intros f Hf. rewrite map_app, in_app_iff.
      destruct (JS.includes (map HomePage.name prev) (HomePage.name f)) eqn:I.
      * left. apply includes_In, I.
      * right. apply in_map, A. split; [exact Hf|].
        apply includes_not_In, I.
    + rewrite <- app_nil_r. f_equal.
      assert (E : forall l,
                 (forall f, In f l ->
                    In (HomePage.name f)
                       (map HomePage.name
                          (prev ++ filter
                             (fun f => negb (JS.includes (map HomePage.name prev)
                                               (HomePage.name f))) newFiles))) ->
                 filter
                   (fun f =>
                      negb (JS.includes
                              (map HomePage.name
                                 (prev ++ filter
                                    (fun f => negb (JS.includes
                                                      (map HomePage.name prev)
                                                      (HomePage.name f)))
                                    newFiles))
                              (HomePage.name f))) l = []).
      { induction l as [|x l IH]; intros Hl; [reflexivity|]. cbn [filter].
        rewrite (proj2 (includes_In _ _) (Hl x (or_introl eq_refl))).
        cbn [negb]. apply IH. intros f Hf. apply Hl. right. exact Hf. }
      apply E. intros f Hf. rewrite map_app, in_app_iff.
      destruct (JS.includes (map HomePage.name prev) (HomePage.name f)) eqn:I.
      * left. apply includes_In, I.
      * right. apply in_map, A. split; [exact Hf|].
        apply includes_not_In, I.
  - intros [|f r] prompt; reflexivity.
Qed.

Lemma home_files_keep_distinct_names_witness :
  Forall Spec.distinct_pick
    [Spec.Picked [Spec.a_file "a.csv"; Spec.a_file "b.csv"];
     Spec.Picked [Spec.a_file "b.csv"; Spec.a_file "c.csv"];
     Spec.Removed 0]
  /\ map HomePage.name
       (fold_left Spec.home_step
          [Spec.Picked [Spec.a_file "a.csv"; Spec.a_file "b.csv"];
           Spec.Picked [Spec.a_file "b.csv"; Spec.a_file "c.csv"];
           Spec.Removed 0] [])
     = [JS.lit "b.csv"; JS.lit "c.csv"]
  /\ NoDup [JS.lit "b.csv"; JS.lit "c.csv"].
Proof.
  assert (D : forall a b : string, JS.lit a <> JS.lit b ->
                NoDup [JS.lit a; JS.lit b]).
  { intros a b Hab. constructor; [intros [E|[]]; congruence|].
    constructor; [intros []|constructor]. }
  assert (H : Forall Spec.distinct_pick
                [Spec.Picked [Spec.a_file "a.csv"; Spec.a_file "b.csv"];
                 Spec.Picked [Spec.a_file "b.csv"; Spec.a_file "c.csv"];
                 Spec.Removed 0]).
  { constructor;
      [apply (D "a.csv"%string "b.csv"%string); discriminate|].
    constructor;
      [apply (D "b.csv"%string "c.csv"%string); discriminate|].
    constructor; [exact I | constructor]. }
  split; [exact H|]. split; [reflexivity|].
  exact (proj1 (home_files_keep_distinct_names _ H)).
Defined.

(** ** The page [App] shows *)

(** X22.  [App] shows the page it was last asked for, whatever came
    before: the generate page with the files and the prompt the home
    page submitted, the session page with the id the history opened,
    the history, or the home page.  So it shows the generate page only
    for the files and the prompt just submitted, at least one file, and
    the session page only for the session just opened.  This holds as
    long as the home page submits through its [handleSend] and the ids
    of the sessions opened are not empty. *)
Theorem App_shows_the_page_asked_for
  (evs : list Spec.AppEvent) (ev : Spec.AppEvent) :
  Spec.from_the_pages ev ->
  let shown :=
    App.render (fold_left Spec.app_step (evs ++ [ev]) App.first_render) in
  shown = Spec.asked ev
  /\ (forall f p, shown = App.GeneratePage f p ->
                  ev = Spec.Submit f p /\ f <> [])
  /\ (forall sessionId, shown = App.SessionPage sessionId ->
                        ev = Spec.OpenSession sessionId)
  /\ App.render App.first_render = App.HomePage.
Proof.
  intros He shown.
  assert (E : shown = Spec.asked ev).
  { unfold shown. rewrite fold_left_app. cbn [fold_left].
    generalize (fold_left Spec.app_step evs App.first_render). intros st.
    destruct ev as [f p|h|sessionId| |]; cbn [Spec.app_step Spec.asked].
    - destruct He as (files & prompt & E). unfold HomePage.handleSend in E.
      destruct files as [|x r]; [discriminate|]. cbn in E.
      inversion E; subst. reflexivity.
    - destruct h; cbn; reflexivity.
    - cbn in He. destruct sessionId as [|c s]; [congruence|]. reflexivity.
    - reflexivity.
    - reflexivity. }
  split; [exact E|]. split; [|split; [|reflexivity]].
  - intros f p G. rewrite E in G.
    destruct ev as [f' p'|h|sessionId| |]; cbn [Spec.asked] in G;
      try discriminate G; [|destruct h; discriminate G].
    inversion G; subst. split; [reflexivity|].
    destruct He as (files & prompt & Hh). unfold HomePage.handleSend in Hh.
    destruct files as [|x r]; [discriminate|]. cbn in Hh.
    inversion Hh; subst. discriminate.
  - intros s G. rewrite E in G.
    destruct ev as [f' p'|h|sessionId| |]; cbn [Spec.asked] in G;
      try discriminate G; [destruct h; discriminate G|].
    inversion G; subst. reflexivity.
Qed.

Lemma App_shows_the_page_asked_for_witness :
  Spec.from_the_pages (Spec.Submit [Spec.a_file "a.csv"] (JS.lit "plot"))
  /\ App.render
       (fold_left Spec.app_step
          ([Spec.Navigate true; Spec.OpenSession (JS.lit "s1");
            Spec.BackToHistory; Spec.Navigate false]
           ++ [Spec.Submit [Spec.a_file "a.csv"] (JS.lit "plot")])
          App.first_render)
     = App.GeneratePage [Spec.a_file "a.csv"] (JS.lit "plot").
Proof.
  assert (H : Spec.from_the_pages
                (Spec.Submit [Spec.a_file "a.csv"] (JS.lit "plot"))).
  { exists [Spec.a_file "a.csv"], (JS.lit " plot "). reflexivity. }
  split; [exact H|].
  exact (proj1 (App_shows_the_page_asked_for
                  [Spec.Navigate true; Spec.OpenSession (JS.lit "s1");
                   Spec.BackToHistory; Spec.Navigate false] _ H)).
Defined.
